(** * Lake Formation access-control automation: a shallow embedding

    The three Lambda handlers of the repository are embedded as Rocq
    functions:

    - [Automation]  : src/lakeformation_automation/lambda_function.py
                      (the central dispatcher publishing to SNS);
    - [Central]     : src/lakeformation_permissions/central/lambda_function.py;
    - [Consumption] : src/lakeformation_permissions/consumption/lambda_function.py.

    Python dictionaries are [gmap string json]; the boto3 clients are an
    oracle ([world]) answering every call from the history of calls made so
    far; the handlers run in a small monad [M] that records the calls in the
    order they are issued and carries Python exceptions. Logging is not
    modelled. *)

From Stdlib Require Import ZArith Ascii String.
From stdpp Require Import gmap strings list fin_maps.

Local Set Warnings "-register-all".

(** ** JSON values, as produced by [json.loads] *)

Inductive json : Type :=
| JNull
| JBool (b : bool)
| JNum (z : Z)
| JStr (s : string)
| JArr (l : list json)
| JObj (m : gmap string json).

(** A Python [dict] with string keys. *)
Abbreviation dict := (gmap string json).

(** ** Python exceptions raised by the handlers or by the services *)

Inductive exn : Type :=
| LFAttributeError
| KeyError (k : string)
| TypeError
| AttributeError
| IndexError
| UnboundLocalError
| EntityNotFoundException
| ClientError (code : string).

Definition result (A : Type) : Type := exn + A.

(** ** Python string primitives *)

Module Py.

(** [sub in s] for two [str]: [sub] occurs in [s] as a contiguous slice. *)
Fixpoint str_in (sub s : string) : bool :=
  String.prefix sub s ||
  match s with
  | EmptyString => false
  | String _ s' => str_in sub s'
  end.

(** [s.split(sep)] for a non-empty [sep]: the string is scanned from the
    left, every leftmost non-overlapping occurrence of [sep] closes the
    current piece. [skip] counts the characters of an occurrence still to be
    dropped, [cur] is the piece read so far. *)
Fixpoint split_go (sep : string) (skip : nat) (cur s : string) : list string :=
  match s with
  | EmptyString => [cur]
  | String c s' =>
      match skip with
      | S k => split_go sep k cur s'
      | O =>
          if String.prefix sep s
          then cur :: split_go sep (String.length sep - 1) EmptyString s'
          else split_go sep O (cur +:+ String c EmptyString) s'
      end
  end.

Definition split (sep s : string) : list string := split_go sep 0 EmptyString s.

(** [s.lower()] on ASCII text: the letters A to Z are lower-cased, every
    other character is kept. On a text with other characters Python
    lower-cases by code point, which the embedding does not follow. *)
Definition lower_ascii (c : ascii) : ascii :=
  let n := nat_of_ascii c in
  if (65 <=? n)%nat && (n <=? 90)%nat then ascii_of_nat (n + 32) else c.

Fixpoint lower (s : string) : string :=
  match s with
  | EmptyString => EmptyString
  | String c s' => String (lower_ascii c) (lower s')
  end.

(** Values that can be put in a [set] or compared with a [str] by hash:
    lists and dicts are unhashable. *)
Definition hashable (v : json) : bool :=
  match v with
  | JArr _ | JObj _ => false
  | _ => true
  end.

Definition is_str (k : string) (v : json) : bool :=
  match v with
  | JStr s => String.eqb s k
  | _ => false
  end.

(** [k in v] where [k] is a [str]: key membership for a dict, substring for
    a str, element membership for a list; other JSON values are not
    iterable. *)
Definition contains (k : string) (v : json) : result bool :=
  match v with
  | JObj m => inr (bool_decide (is_Some (m !! k)))
  | JStr s => inr (str_in k s)
  | JArr l => inr (existsb (is_str k) l)
  | _ => inl TypeError
  end.

(** [v[k]] where [k] is a [str]: only a dict can be indexed by a string. *)
Definition getitem (v : json) (k : string) : result json :=
  match v with
  | JObj m =>
      match m !! k with
      | Some x => inr x
      | None => inl (KeyError k)
      end
  | _ => inl TypeError
  end.

(** [k in set(v)] for a [str] [k], with the error [set(v)] raises. A str
    iterates over its characters, a dict over its keys. *)
Definition in_set (k : string) (v : json) : result bool :=
  match v with
  | JArr l => if forallb hashable l then inr (existsb (is_str k) l) else inl TypeError
  | JStr s => inr ((String.length k =? 1)%nat && str_in k s)
  | JObj m => inr (bool_decide (is_Some (m !! k)))
  | _ => inl TypeError
  end.

(** [list(set(lit) - set(v))]: the members of [lit] that are not in [v].
    Only its truth value (non-empty or empty) is used by the callers. *)
Fixpoint set_difference (lit : list string) (v : json) : result (list string) :=
  match lit with
  | [] => inr []
  | p :: lit' =>
      match in_set p v, set_difference lit' v with
      | inl e, _ => inl e
      | _, inl e => inl e
      | inr b, inr r => inr (if b then r else p :: r)
      end
  end.

(** Truth value of a dict or a list: non-empty. *)
Definition truthy_dict (d : dict) : bool := negb (bool_decide (d = ∅)).

Definition str_list (l : list string) : json := JArr (JStr <$> l).

End Py.

(** ** The services

    Every boto3 call the handlers make, with the keyword arguments the source
    passes. The [Config] of the Lake Formation client (timeouts, retries) is
    fixed and left out. [SNS_publish] keeps the message before [json.dumps]
    and the value whose [str()] is the [StringValue] of the [account_id]
    message attribute. *)

Inductive call : Type :=
| LF_grant_permissions (Principal Resource Permissions : json)
                       (PermissionsWithGrantOption : option json)
| LF_revoke_permissions (Principal Resource Permissions : json)
| Glue_get_database (Name : string)
| Glue_create_database (DatabaseInput : json)
| SNS_publish (TopicArn : string) (Message : json) (account_id : json)
| Time_sleep (secs : Z).

(** What a boto3 call returns: [response['ResponseMetadata']['HTTPStatusCode']]. *)
Record response : Type := { HTTPStatusCode : Z }.

(** The outside world: given the calls issued so far and the next call, it
    raises or answers. *)
Definition world : Type := list call -> call -> result response.

(** ** The monad of the handlers: the calls issued so far, and an exception
    or a value. A call is recorded when it is issued, whether it raises or
    not. *)

Definition M (A : Type) : Type := list call -> list call * result A.

Definition ret {A} (a : A) : M A := fun h => (h, inr a).

Definition raise {A} (e : exn) : M A := fun h => (h, inl e).

Definition bind {A B} (m : M A) (k : A -> M B) : M B :=
  fun h =>
    match m h with
    | (h', inl e) => (h', inl e)
    | (h', inr a) => k a h'
    end.

Definition lift {A} (r : result A) : M A := fun h => (h, r).

Definition perform (w : world) (c : call) : M response :=
  fun h => (h ++ [c], w h c).

(** [try: m except e: handler e]. *)
Definition try_except {A} (m : M A) (handler : exn -> M A) : M A :=
  fun h =>
    match m h with
    | (h', inl e) => handler e h'
    | r => r
    end.

#[export] Instance result_ret : MRet result := fun A a => inr a.
#[export] Instance result_bind : MBind result :=
  fun A B k r => match r with inl e => inl e | inr a => k a end.

#[export] Instance M_ret : MRet M := @ret.
#[export] Instance M_bind : MBind M := fun A B k m => bind m k.

(** Running a handler from an empty history. *)
Definition run {A} (m : M A) : list call * result A := m [].
Definition calls_of {A} (m : M A) : list call := fst (run m).
Definition outcome {A} (m : M A) : result A := snd (run m).

(** Statements executed one after the other for every element of a list. *)
Fixpoint for_each {A} (body : A -> M ()) (l : list A) : M () :=
  match l with
  | [] => mret ()
  | x :: l' => _ ← body x; for_each body l'
  end.

(** [time.sleep(secs)]: recorded in the history, never raises. *)
Definition sleep (secs : Z) : M () := fun h => (h ++ [Time_sleep secs], inr ()).

(** ** The ARN pattern

    [arn_pattern], matched with [re.match]: the literal [arn:], then the four
    named groups Partition, Service, Region and AccountID, each a run of
    characters other than a colon and a newline and each closed by a colon;
    then the optional group Ignore, made of the group ResourceType (a run of
    characters other than colon, slash and newline) and one colon or slash;
    then the group Resource, any characters but a newline, up to the end of
    the string or to a newline that ends it. *)

Module Arn.

Definition newline : ascii := ascii_of_nat 10.

(** A run without colon and newline, closed by a colon: the run and what
    follows the colon. *)
Fixpoint field (s : string) : option (string * string) :=
  match s with
  | EmptyString => None
  | String c s' =>
      if Ascii.eqb c ":" then Some (EmptyString, s')
      else if Ascii.eqb c newline then None
      else '(f, r) ← field s'; Some (String c f, r)
  end.

(** The longest run without colon, slash and newline, and what follows it. *)
Fixpoint resource_type (s : string) : string * string :=
  match s with
  | EmptyString => (EmptyString, EmptyString)
  | String c s' =>
      if Ascii.eqb c ":" || Ascii.eqb c "/" || Ascii.eqb c newline
      then (EmptyString, s)
      else let '(t, r) := resource_type s' in (String c t, r)
  end.

(** Any characters up to the end: no newline, except one that ends the
    string. *)
Fixpoint resource_eol (s : string) : option string :=
  match s with
  | EmptyString => Some EmptyString
  | String c s' =>
      if Ascii.eqb c newline
      then match s' with EmptyString => Some EmptyString | _ => None end
      else String c <$> resource_eol s'
  end.

(** The match object: groups 1 to 7. *)
Record match_obj : Type := {
  Partition : string;
  Service : string;
  Region : string;
  AccountID : string;
  Ignore : option string;
  ResourceType : option string;
  Resource : string
}.

Definition arn_match (s : string) : option match_obj :=
  match s with
  | String "a" (String "r" (String "n" (String ":" s1))) =>
      '(partition, s2) ← field s1;
      '(service, s3) ← field s2;
      '(region, s4) ← field s3;
      '(account, s5) ← field s4;
      let without_ignore :=
        res ← resource_eol s5;
        Some {| Partition := partition; Service := service; Region := region;
                AccountID := account; Ignore := None; ResourceType := None;
                Resource := res |} in
      match resource_type s5 with
      | (t, String c s6) =>
          if Ascii.eqb c ":" || Ascii.eqb c "/" then
            match resource_eol s6 with
            | Some res =>
                Some {| Partition := partition; Service := service;
                        Region := region; AccountID := account;
                        Ignore := Some (t +:+ String c EmptyString);
                        ResourceType := Some t; Resource := res |}
            | None => without_ignore
            end
          else without_ignore
      | _ => without_ignore
      end
  | _ => None
  end.

End Arn.

(** [arn_regex.match(v)]: the pattern only applies to a [str]. *)
Definition regex_match (v : json) : result (option Arn.match_obj) :=
  match v with
  | JStr s => inr (Arn.arn_match s)
  | _ => inl TypeError
  end.

(** [d[k]] on a dict. *)
Definition item (d : dict) (k : string) : result json := Py.getitem (JObj d) k.

(** [k in d] on a dict. *)
Definition has_key (k : string) (d : dict) : bool := bool_decide (is_Some (d !! k)).

(** ** src/lakeformation_automation/lambda_function.py

    The dispatcher of the central account. [lambda_handler] is given, for
    every queue record, the list [s3_content['Records']] that
    [read_s3_content] returned for it; the queue envelope and the read from
    S3 are not modelled. *)

Module Automation.
Section Handler.

(** [os.environ['ACCOUNT_ID']], [os.environ['REGION']] and the services. *)
Variables (ACCOUNT_ID REGION : string) (w : world).

Definition generate_db_perm (perm_record : dict) : result dict :=
  principal ← item perm_record "Principal";
  regex_obj ← regex_match principal;
  match regex_obj with
  | Some regex_obj =>
      let table_wild_Card : dict := ∅ in
      let db_perm : dict :=
        <["Principal" := JStr (Arn.AccountID regex_obj)]>
          (<["AccountID" := JStr ACCOUNT_ID]> ∅) in
      no_db ← match perm_record !! "Table" with
              | Some t => has_db ← Py.contains "DatabaseName" t; mret (negb has_db)
              | None => mret false
              end;
      table_json ←
        (if no_db || (negb (has_key "Table" perm_record)
                      && negb (has_key "TableWithColumns" perm_record))
         then inl LFAttributeError
         else if has_key "Table" perm_record then
           t ← item perm_record "Table";
           db ← Py.getitem t "DatabaseName";
           mret (<["DatabaseName" := db]> (∅ : dict))
         else
           twc ← item perm_record "TableWithColumns";
           has_db ← Py.contains "DatabaseName" twc;
           if has_db : bool then
             db ← Py.getitem twc "DatabaseName";
             mret (<["DatabaseName" := db]> (∅ : dict))
           else inl LFAttributeError);
      let table_json := <["TableWildcard" := JObj table_wild_Card]> table_json in
      let db_perm := <["Table" := JObj table_json]> db_perm in
      let db_perm := <["Permissions" := Py.str_list ["SELECT"; "DESCRIBE"]]> db_perm in
      let db_perm :=
        <["PermissionsWithGrantOption" := Py.str_list ["SELECT"; "DESCRIBE"]]> db_perm in
      let db_perm := <["AccessType" := JStr "grant"]> db_perm in
      mret db_perm
  | None => inl LFAttributeError
  end.

Definition topic_arn : string :=
  "arn:aws:sns:" +:+ REGION +:+ ":" +:+ ACCOUNT_ID +:+ ":lakeformation-automation".

Definition publish_sns (record : dict) : M response :=
  let response_to_sns : dict := {[ "perms_to_set" := JObj record ]} in
  account_id ← lift (item record "AccountID");
  perform w (SNS_publish topic_arn (JObj response_to_sns) account_id).

(** The body of [for perm_record in s3_content['Records']]. *)
Definition process_perm_record (perm_record : dict) : M () :=
  let acc_id := ACCOUNT_ID in
  principal ← lift (item perm_record "Principal");
  regex_obj ← lift (regex_match principal);
  access_type ← lift (item perm_record "AccessType");
  cross_account_grant ← lift (
    if Py.is_str "grant" access_type then
      match regex_obj with
      | Some regex_obj => inr (negb (String.eqb (Arn.AccountID regex_obj) acc_id))
      | None => inl TypeError
      end
    else inr false);
  _ ← (if cross_account_grant : bool then
         db_perm ← lift (generate_db_perm perm_record);
         response ← publish_sns db_perm;
         if (HTTPStatusCode response =? 200)%Z then sleep 3 else mret ()
       else mret ());
  response ← publish_sns perm_record;
  mret ().

Definition lambda_handler (manifests : list (list dict)) : M () :=
  for_each (for_each process_perm_record) manifests.

End Handler.
End Automation.

(** The five (central) or four (consumption) dicts [buildjson] returns are
    passed around as a record. *)
Record built : Type := {
  principal_json : dict;
  table_json : dict;
  tableWithColumns_json : dict;
  perm_json : dict;
  perm_grant_json : dict
}.

(** [if 'foundation_' in name: name = name.split('foundation_')[1]], as the
    two branches of [buildjson] write it on the [DatabaseName] they copied. *)
Definition strip_foundation (name : json) : result json :=
  found ← Py.contains "foundation_" name;
  if found : bool then
    parts ← match name with
            | JStr s => inr (Py.split "foundation_" s)
            | _ => inl AttributeError
            end;
    match parts !! 1%nat with
    | Some piece => inr (JStr piece)
    | None => inl IndexError
    end
  else inr name.

(** [if 'Permissions' in event: ... else: LFAttributeError]: the [else]
    branch evaluates the class and raises nothing, [perm_json] stays
    empty. *)
Definition build_perm_json (perm_lit : list string) (event : dict) : result dict :=
  match event !! "Permissions" with
  | Some permissions =>
      missing ← Py.set_difference perm_lit permissions;
      match missing with
      | _ :: _ => mret (<["Permissions" := Py.str_list perm_lit]> (∅ : dict))
      | [] => mret (<["Permissions" := permissions]> (∅ : dict))
      end
  | None => mret ∅
  end.

(** [resource = {}; if table_json: ... elif tableWithColumns_json: ...]. *)
Definition build_resource (table_json tableWithColumns_json : dict) : dict :=
  if Py.truthy_dict table_json then {[ "Table" := JObj table_json ]}
  else if Py.truthy_dict tableWithColumns_json
       then {[ "TableWithColumns" := JObj tableWithColumns_json ]}
       else ∅.

(** [event_body['AccessType'].lower()]. *)
Definition access_type_lower (event_body : dict) : result string :=
  access_type ← item event_body "AccessType";
  match access_type with
  | JStr s => inr (Py.lower s)
  | _ => inl AttributeError
  end.

(** ** src/lakeformation_permissions/central/lambda_function.py

    [lambda_handler] is given the [perms_to_set] dict of every queue record,
    in order. *)

Module Central.
Section Handler.

(** [os.environ['ACCOUNT_ID']] and the services. *)
Variables (ACCOUNT_ID : string) (w : world).

Definition grant_db_describe (principal : dict) (database : json) : M response :=
  let permissions := Py.str_list ["DESCRIBE"] in
  let Database : dict := {[ "Name" := database ]} in
  let database_json : dict := {[ "Database" := JObj Database ]} in
  perform w (LF_grant_permissions (JObj principal) (JObj database_json) permissions None).

(** The branch [if 'Table' in event]. *)
Definition build_table (principal_json : dict) (table : json) : M dict :=
  has_db ← lift (Py.contains "DatabaseName" table);
  if negb has_db then raise LFAttributeError else
  db ← lift (Py.getitem table "DatabaseName");
  let table_json : dict := <["DatabaseName" := db]> ∅ in
  let table_json := <["CatalogId" := JStr ACCOUNT_ID]> table_json in
  response ← grant_db_describe principal_json db;
  db ← lift (strip_foundation db);
  let table_json := <["DatabaseName" := db]> table_json in
  has_name ← lift (Py.contains "Name" table);
  if has_name : bool then
    name ← lift (Py.getitem table "Name");
    mret (<["Name" := name]> table_json)
  else
    has_wildcard ← lift (Py.contains "TableWildcard" table);
    if has_wildcard : bool then
      wildcard ← lift (Py.getitem table "TableWildcard");
      mret (<["TableWildcard" := wildcard]> table_json)
    else raise LFAttributeError.

(** The branch [elif 'TableWithColumns' in event]. *)
Definition build_tableWithColumns (principal_json : dict) (twc : json) : M dict :=
  has_db ← lift (Py.contains "DatabaseName" twc);
  if negb has_db then raise LFAttributeError else
  db ← lift (Py.getitem twc "DatabaseName");
  let tableWithColumns_json : dict := <["DatabaseName" := db]> ∅ in
  let tableWithColumns_json := <["CatalogId" := JStr ACCOUNT_ID]> tableWithColumns_json in
  response ← grant_db_describe principal_json db;
  db ← lift (strip_foundation db);
  let tableWithColumns_json := <["DatabaseName" := db]> tableWithColumns_json in
  has_name ← lift (Py.contains "Name" twc);
  if negb has_name then raise LFAttributeError else
  name ← lift (Py.getitem twc "Name");
  let tableWithColumns_json := <["Name" := name]> tableWithColumns_json in
  has_columns ← lift (Py.contains "ColumnNames" twc);
  if has_columns : bool then
    columns ← lift (Py.getitem twc "ColumnNames");
    mret (<["ColumnNames" := columns]> tableWithColumns_json)
  else
    has_wildcard ← lift (Py.contains "ColumnWildcard" twc);
    if has_wildcard : bool then
      wildcard ← lift (Py.getitem twc "ColumnWildcard");
      mret (<["ColumnWildcard" := wildcard]> tableWithColumns_json)
    else raise LFAttributeError.

Definition perm_lit : list string := ["SELECT"; "DESCRIBE"].

Definition buildjson (event : dict) : M built :=
  principal_json ← match event !! "Principal" with
                   | Some p => mret (<["DataLakePrincipalIdentifier" := p]> (∅ : dict))
                   | None => raise LFAttributeError
                   end;
  '(table_json, tableWithColumns_json) ←
    match event !! "Table", event !! "TableWithColumns" with
    | Some table, _ =>
        table_json ← build_table principal_json table; mret (table_json, ∅)
    | None, Some twc =>
        tableWithColumns_json ← build_tableWithColumns principal_json twc;
        mret (∅, tableWithColumns_json)
    | None, None => raise LFAttributeError
    end;
  perm_json ← lift (build_perm_json perm_lit event);
  let perm_grant_json : dict :=
    if has_key "PermissionsWithGrantOption" event
    then {[ "PermissionsWithGrantOption" := Py.str_list ["SELECT"; "DESCRIBE"] ]}
    else ∅ in
  mret {| principal_json := principal_json; table_json := table_json;
          tableWithColumns_json := tableWithColumns_json;
          perm_json := perm_json; perm_grant_json := perm_grant_json |}.

Definition grant_lf_permissions (b : built) : M response :=
  let resource := build_resource (table_json b) (tableWithColumns_json b) in
  perm_with_grant ← lift (if Py.truthy_dict (perm_grant_json b)
                          then item (perm_grant_json b) "PermissionsWithGrantOption"
                          else inr (JArr []));
  permissions ← lift (item (perm_json b) "Permissions");
  perform w (LF_grant_permissions (JObj (principal_json b)) (JObj resource)
                                  permissions (Some perm_with_grant)).

Definition revoke_lf_permissions (b : built) : M response :=
  let resource := build_resource (table_json b) (tableWithColumns_json b) in
  permissions ← lift (item (perm_json b) "Permissions");
  perform w (LF_revoke_permissions (JObj (principal_json b)) (JObj resource) permissions).

(** [for record in event['Records']]: every iteration rebinds [event_body]
    and the dicts [buildjson] returned; [vars] is their binding, [None]
    before the first iteration. *)
Fixpoint for_records (records : list dict) (vars : option (dict * built))
  : M (option (dict * built)) :=
  match records with
  | [] => mret vars
  | event_body :: records' =>
      b ← buildjson event_body;
      for_records records' (Some (event_body, b))
  end.

Definition lambda_handler (records : list dict) : M () :=
  vars ← for_records records None;
  match vars with
  | None => raise UnboundLocalError
  | Some (event_body, b) =>
      access ← lift (access_type_lower event_body);
      if String.eqb access "grant" then
        response ← grant_lf_permissions b; mret ()
      else if String.eqb access "revoke" then
        response ← revoke_lf_permissions b; mret ()
      else raise LFAttributeError
  end.

End Handler.
End Central.

(** ** src/lakeformation_permissions/consumption/lambda_function.py

    [grant_db_describe] formats and looks up the database name as a [str]
    (its docstring: [database {str}]); in the embedding a [DatabaseName] that
    is not a JSON string stops [buildjson] with [TypeError] before
    [grant_db_describe] is entered. For null, a number or a boolean that is
    the TypeError of the test ['foundation_' not in database], the first
    statement of [grant_db_describe] that looks at the name. For a list or a
    dict the code goes on, with the value formatted into the name, and the
    embedding does not follow it. The consumption path has no
    [perm_grant_json]: the field of [built] stays empty. *)

Module Consumption.
Section Handler.

(** [acc_id], [f_acc_id] (from [os.environ]) and the services. *)
Variables (acc_id f_acc_id : string) (w : world).

Definition check_db_exist (database : string) : M bool :=
  try_except
    (response ← perform w (Glue_get_database database); mret true)
    (fun e => match e with
              | EntityNotFoundException => mret false
              | _ => raise e
              end).

Definition grant_db_describe (principal : dict) (database : string) : M response :=
  let consumption_acct := acc_id in
  let permissions := Py.str_list ["DESCRIBE"] in
  let database :=
    if negb (Py.str_in "foundation_" database)
    then "foundation_" +:+ database else database in
  db_exist ← check_db_exist database;
  _ ← (if negb db_exist then
         let foundations_catalog := f_acc_id in
         target ← lift (match Py.split "foundation_" database !! 1%nat with
                        | Some piece => inr piece
                        | None => inl IndexError
                        end);
         let TargetDatabase : dict :=
           {[ "CatalogId" := JStr foundations_catalog;
              "DatabaseName" := JStr target ]} in
         let DatabaseInput : dict :=
           {[ "Name" := JStr database; "TargetDatabase" := JObj TargetDatabase ]} in
         response ← perform w (Glue_create_database (JObj DatabaseInput));
         mret ()
       else mret ());
  let Database : dict :=
    {[ "CatalogId" := JStr consumption_acct; "Name" := JStr database ]} in
  let database_json : dict := {[ "Database" := JObj Database ]} in
  perform w (LF_grant_permissions (JObj principal) (JObj database_json) permissions None).

(** The database name [grant_db_describe] is given, as a [str]. *)
Definition database_name (db : json) : result string :=
  match db with
  | JStr s => inr s
  | _ => inl TypeError
  end.

(** The branch [if 'Table' in event]. *)
Definition build_table (principal_json : dict) (table : json) : M dict :=
  has_db ← lift (Py.contains "DatabaseName" table);
  if negb has_db then raise LFAttributeError else
  db ← lift (Py.getitem table "DatabaseName");
  let table_json : dict := <["DatabaseName" := db]> ∅ in
  let table_json := <["CatalogId" := JStr f_acc_id]> table_json in
  name ← lift (database_name db);
  response ← grant_db_describe principal_json name;
  db ← lift (strip_foundation db);
  let table_json := <["DatabaseName" := db]> table_json in
  has_name ← lift (Py.contains "Name" table);
  if has_name : bool then
    name ← lift (Py.getitem table "Name");
    mret (<["Name" := name]> table_json)
  else
    has_wildcard ← lift (Py.contains "TableWildcard" table);
    if has_wildcard : bool then
      wildcard ← lift (Py.getitem table "TableWildcard");
      mret (<["TableWildcard" := wildcard]> table_json)
    else raise LFAttributeError.

(** The branch [elif 'TableWithColumns' in event]. *)
Definition build_tableWithColumns (principal_json : dict) (twc : json) : M dict :=
  has_db ← lift (Py.contains "DatabaseName" twc);
  if negb has_db then raise LFAttributeError else
  db ← lift (Py.getitem twc "DatabaseName");
  let tableWithColumns_json : dict := <["DatabaseName" := db]> ∅ in
  let tableWithColumns_json := <["CatalogId" := JStr f_acc_id]> tableWithColumns_json in
  name ← lift (database_name db);
  response ← grant_db_describe principal_json name;
  db ← lift (strip_foundation db);
  let tableWithColumns_json := <["DatabaseName" := db]> tableWithColumns_json in
  has_name ← lift (Py.contains "Name" twc);
  if negb has_name then raise LFAttributeError else
  name ← lift (Py.getitem twc "Name");
  let tableWithColumns_json := <["Name" := name]> tableWithColumns_json in
  has_columns ← lift (Py.contains "ColumnNames" twc);
  if has_columns : bool then
    columns ← lift (Py.getitem twc "ColumnNames");
    mret (<["ColumnNames" := columns]> tableWithColumns_json)
  else
    has_wildcard ← lift (Py.contains "ColumnWildcard" twc);
    if has_wildcard : bool then
      wildcard ← lift (Py.getitem twc "ColumnWildcard");
      mret (<["ColumnWildcard" := wildcard]> tableWithColumns_json)
    else raise LFAttributeError.

Definition perm_lit : list string := ["SELECT"].

Definition buildjson (event : dict) : M built :=
  principal_json ← match event !! "Principal" with
                   | Some p => mret (<["DataLakePrincipalIdentifier" := p]> (∅ : dict))
                   | None => raise LFAttributeError
                   end;
  '(table_json, tableWithColumns_json) ←
    match event !! "Table", event !! "TableWithColumns" with
    | Some table, _ =>
        table_json ← build_table principal_json table; mret (table_json, ∅)
    | None, Some twc =>
        tableWithColumns_json ← build_tableWithColumns principal_json twc;
        mret (∅, tableWithColumns_json)
    | None, None => raise LFAttributeError
    end;
  perm_json ← lift (build_perm_json perm_lit event);
  mret {| principal_json := principal_json; table_json := table_json;
          tableWithColumns_json := tableWithColumns_json;
          perm_json := perm_json; perm_grant_json := ∅ |}.

Definition grant_lf_permissions (b : built) : M response :=
  let resource := build_resource (table_json b) (tableWithColumns_json b) in
  permissions ← lift (item (perm_json b) "Permissions");
  perform w (LF_grant_permissions (JObj (principal_json b)) (JObj resource)
                                  permissions None).

Definition revoke_lf_permissions (b : built) : M response :=
  let resource := build_resource (table_json b) (tableWithColumns_json b) in
  permissions ← lift (item (perm_json b) "Permissions");
  perform w (LF_revoke_permissions (JObj (principal_json b)) (JObj resource) permissions).

Fixpoint for_records (records : list dict) (vars : option (dict * built))
  : M (option (dict * built)) :=
  match records with
  | [] => mret vars
  | event_body :: records' =>
      b ← buildjson event_body;
      for_records records' (Some (event_body, b))
  end.

Definition lambda_handler (records : list dict) : M () :=
  vars ← for_records records None;
  match vars with
  | None => raise UnboundLocalError
  | Some (event_body, b) =>
      access ← lift (access_type_lower event_body);
      if String.eqb access "grant" then
        response ← grant_lf_permissions b; mret ()
      else if String.eqb access "revoke" then
        response ← revoke_lf_permissions b; mret ()
      else raise LFAttributeError
  end.

End Handler.
End Consumption.

(** ** The queue envelope of the two account handlers

    [lambda_handler(event, context)] of the central and of the consumption
    path, from the Lambda event down to [buildjson]: every queue record
    carries, in [body], the text of a notification whose [Message] is the
    text of a dict with the key [perms_to_set]. [json.loads] is a parameter:
    the text is not parsed here. [buildjson], [grant_lf_permissions] and
    [revoke_lf_permissions] are those of the path. *)

Module Queue.
Section Envelope.

(** [json.loads] on a [str], with the exception it raises on a text that is
    no JSON document. *)
Variable json_loads : string → result json.

(** The functions of the path. *)
Variables (buildjson : dict → M built)
          (grant_lf_permissions revoke_lf_permissions : built → M response).

(** [json.loads(v)]: the argument must be a [str]. *)
Definition loads (v : json) : result json :=
  match v with
  | JStr s => json_loads s
  | _ => inl TypeError
  end.

(** [for record in v] (and [len(v)] before it): a list yields its elements, a
    str its characters, a dict its keys; the other values cannot be
    iterated. *)
Definition iterate (v : json) : result (list json) :=
  match v with
  | JArr l => inr l
  | JStr s => inr ((λ c, JStr (String c EmptyString)) <$> list_ascii_of_string s)
  | JObj m => inr ((λ kv, JStr kv.1) <$> map_to_list m)
  | _ => inl TypeError
  end.

(** [json.loads(json.loads(record['body'])['Message'])['perms_to_set']]. *)
Definition perms_to_set (record : json) : result json :=
  body ← Py.getitem record "body";
  notification ← loads body;
  message ← Py.getitem notification "Message";
  payload ← loads message;
  Py.getitem payload "perms_to_set".

(** [buildjson(event)] on any JSON value: on a dict it is [buildjson]; on a
    value that is no dict, ['Principal' in event] is a substring or
    membership test and [event['Principal']] a type error. *)
Definition buildjson_any (event : json) : M (dict * built) :=
  match event with
  | JObj d => b ← buildjson d; mret (d, b)
  | _ =>
      has_principal ← lift (Py.contains "Principal" event);
      if has_principal : bool then
        p ← lift (Py.getitem event "Principal"); raise TypeError
      else raise LFAttributeError
  end.

Fixpoint for_records (records : list json) (vars : option (dict * built))
  : M (option (dict * built)) :=
  match records with
  | [] => mret vars
  | record :: records' =>
      event_body ← lift (perms_to_set record);
      bound ← buildjson_any event_body;
      for_records records' (Some bound)
  end.

Definition lambda_handler (event : json) : M () :=
  delivered ← lift (Py.getitem event "Records");
  records ← lift (iterate delivered);
  vars ← for_records records None;
  match vars with
  | None => raise UnboundLocalError
  | Some (event_body, b) =>
      access ← lift (access_type_lower event_body);
      if String.eqb access "grant" then
        response ← grant_lf_permissions b; mret ()
      else if String.eqb access "revoke" then
        response ← revoke_lf_permissions b; mret ()
      else raise LFAttributeError
  end.

End Envelope.

(** The entry point of the central path. *)
Definition central (json_loads : string → result json) (ACCOUNT_ID : string)
    (w : world) : json → M () :=
  lambda_handler json_loads (Central.buildjson ACCOUNT_ID w)
    (Central.grant_lf_permissions w) (Central.revoke_lf_permissions w).

(** The entry point of the consumption path. *)
Definition consumption (json_loads : string → result json)
    (acc_id f_acc_id : string) (w : world) : json → M () :=
  lambda_handler json_loads (Consumption.buildjson acc_id f_acc_id w)
    (Consumption.grant_lf_permissions w) (Consumption.revoke_lf_permissions w).

End Queue.

(** ** The queue envelope of the dispatcher

    [parse_s3_event] and [lambda_handler(event, context)] of
    src/lakeformation_automation/lambda_function.py, from the Lambda event
    down to [process_perm_record]: every queue record carries, in [body], the
    text of a bucket notification; the first event of the notification names
    the manifest, whose [Records] are dispatched. [json.loads],
    [unquote_plus], the clock and [read_s3_content] are parameters: the text
    is not parsed here, and the reads from the bucket are not recorded among
    the calls. *)

Module Manifest.
Section Envelope.

(** [json.loads] and [urllib.parse.unquote_plus] on a [str]. *)
Variable json_loads : string → result json.
Variable unquote_plus : string → string.

(** [int(round(datetime.utcnow().timestamp()*1000, 0))]. *)
Variable now : Z.

(** [read_s3_content(bucket, key)]: the decoded content of the object, or the
    exception of the read or of the decoding. *)
Variable read_s3_content : json → json → result json.

(** [os.environ['ACCOUNT_ID']], [os.environ['REGION']] and the services. *)
Variables (ACCOUNT_ID REGION : string) (w : world).

(** [v[0]]: the first element of a list, the first character of a str; a
    dict with string keys has no key [0]. *)
Definition first (v : json) : result json :=
  match v with
  | JArr (x :: _) => inr x
  | JArr [] => inl IndexError
  | JStr (String c _) => inr (JStr (String c EmptyString))
  | JStr EmptyString => inl IndexError
  | JObj _ => inl (KeyError "0")
  | _ => inl TypeError
  end.

(** [v.split('.')[0]]: only a str has [split]. *)
Definition before_dot (v : json) : result string :=
  match v with
  | JStr s =>
      match Py.split "." s !! 0%nat with
      | Some piece => inr piece
      | None => inl IndexError
      end
  | _ => inl AttributeError
  end.

(** [unquote_plus(v)]: on a value that is no str, [v.replace] is missing. *)
Definition unquote (v : json) : result string :=
  match v with
  | JStr s => inr (unquote_plus s)
  | _ => inl AttributeError
  end.

Definition parse_s3_event (s3_event : json) : result dict :=
  s3 ← Py.getitem s3_event "s3";
  bucket ← Py.getitem s3 "bucket";
  name ← Py.getitem bucket "name";
  s3 ← Py.getitem s3_event "s3";
  object ← Py.getitem s3 "object";
  key ← Py.getitem object "key";
  key ← unquote key;
  s3 ← Py.getitem s3_event "s3";
  object ← Py.getitem s3 "object";
  size ← Py.getitem object "size";
  eventTime ← Py.getitem s3_event "eventTime";
  date ← before_dot eventTime;
  mret ({[ "bucket" := name;
           "key" := JStr key;
           "size" := size;
           "last_modified_date" := JStr (date +:+ "+00:00");
           "timestamp" := JNum now ]} : dict).

(** The statements of the outer loop before the inner one: from the queue
    record to the records of the manifest it names. *)
Definition manifest (record : json) : result (list json) :=
  body ← Py.getitem record "body";
  notification ← Queue.loads json_loads body;
  events ← Py.getitem notification "Records";
  event_body ← first events;
  message ← parse_s3_event event_body;
  bucket ← item message "bucket";
  key ← item message "key";
  s3_content ← read_s3_content bucket key;
  perm_records ← Py.getitem s3_content "Records";
  Queue.iterate perm_records.

(** The body of the inner loop on any JSON value: [perm_record['Principal']]
    is a type error on a value that is no dict. *)
Definition process_any (perm_record : json) : M () :=
  match perm_record with
  | JObj d => Automation.process_perm_record ACCOUNT_ID REGION w d
  | _ => raise TypeError
  end.

Definition lambda_handler (event : json) : M () :=
  delivered ← lift (Py.getitem event "Records");
  records ← lift (Queue.iterate delivered);
  for_each (fun record =>
              perm_records ← lift (manifest record);
              for_each process_any perm_records)
           records.

End Envelope.
End Manifest.

(** * Vocabulary of the properties *)

(** ** Worlds and records used in the examples *)

(** Every service answers every call with HTTP 200. *)
Definition all_ok : world := fun _ _ => inr {| HTTPStatusCode := 200 |}.

(** As [all_ok], but the catalog has no database yet. *)
Definition empty_catalog : world :=
  fun _ c =>
    match c with
    | Glue_get_database _ => inl EntityNotFoundException
    | _ => inr {| HTTPStatusCode := 200 |}
    end.

Definition consumer_arn : string := "arn:aws:iam::222222222222:role/consumer".

(** [principal_json] as [buildjson] builds it. *)
Definition principal_dict (p : json) : dict := {[ "DataLakePrincipalIdentifier" := p ]}.

Definition consumer_principal : json := JObj (principal_dict (JStr consumer_arn)).

(** The DB-level DESCRIBE grant of the central path for [name]. *)
Definition central_describe (principal : json) (name : string) : call :=
  LF_grant_permissions principal
    (JObj {[ "Database" := JObj {[ "Name" := JStr name ]} ]})
    (Py.str_list ["DESCRIBE"]) None.

(** The DB-level DESCRIBE grant of the consumption path for the catalog
    entry [name] of account [acc_id]. *)
Definition consumption_describe (acc_id : string) (principal : json) (name : string) : call :=
  LF_grant_permissions principal
    (JObj {[ "Database" := JObj {[ "CatalogId" := JStr acc_id; "Name" := JStr name ]} ]})
    (Py.str_list ["DESCRIBE"]) None.

(** The [Resource] argument of a grant or revoke call. *)
Definition resource_of (c : call) : dict :=
  match c with
  | LF_grant_permissions _ (JObj r) _ _ | LF_revoke_permissions _ (JObj r) _ => r
  | _ => ∅
  end.

(** A grant asking for more than the central ceiling. *)
Definition over_ceiling_record : dict :=
  {[ "Principal" := JStr consumer_arn;
     "Table" := JObj {[ "DatabaseName" := JStr "sales"; "Name" := JStr "orders" ]};
     "Permissions" := Py.str_list ["SELECT"; "DESCRIBE"; "DROP"];
     "AccessType" := JStr "grant" ]}.

(** A grant asking for more than the consumption ceiling. *)
Definition over_select_record : dict :=
  {[ "Principal" := JStr consumer_arn;
     "Table" := JObj {[ "DatabaseName" := JStr "sales"; "Name" := JStr "orders" ]};
     "Permissions" := Py.str_list ["SELECT"; "ALL"];
     "AccessType" := JStr "grant" ]}.

(** End-to-end scenario A. *)
Definition scenario_A : dict :=
  {[ "Principal" := JStr consumer_arn;
     "Table" := JObj {[ "DatabaseName" := JStr "foundation_sales" ]};
     "Permissions" := Py.str_list ["SELECT"];
     "AccessType" := JStr "grant" ]}.

(** Scenario A with a table name in its selector. *)
Definition scenario_A_named (name : json) : dict :=
  {[ "Principal" := JStr consumer_arn;
     "Table" := JObj {[ "DatabaseName" := JStr "foundation_sales"; "Name" := name ]};
     "Permissions" := Py.str_list ["SELECT"];
     "AccessType" := JStr "grant" ]}.

(** A world in which no call raises. *)
Definition answers (w : world) : Prop := ∀ h c, ∃ r, w h c = inr r.

(** [c] is a DB-level DESCRIBE grant on database [name]. *)
Definition describes_database (name : string) (c : call) : Prop :=
  ∃ principal, c = central_describe principal name.

(** [c] is a grant of [perms] on a table of database [db]. *)
Definition grants_on_table (db : string) (perms : list string) (c : call) : Prop :=
  ∃ principal (t : dict) o,
    c = LF_grant_permissions principal (JObj {[ "Table" := JObj t ]})
          (Py.str_list perms) o
    ∧ t !! "DatabaseName" = Some (JStr db).

(** What scenario A promises of the calls made. *)
Definition scenario_A_result (calls : list call) : Prop :=
  (∃ c, c ∈ calls ∧ describes_database "sales" c)
  ∧ (∃ c, c ∈ calls ∧ grants_on_table "sales" ["SELECT"; "DESCRIBE"] c).

(** The database name [buildjson] puts in the resource of the fine-grained
    call: the piece after the first [foundation_] when there is one. *)
Definition bare_name (d : string) : string :=
  if Py.str_in "foundation_" d
  then default EmptyString (Py.split "foundation_" d !! 1%nat)
  else d.

(** The selector dict after the [DatabaseName] has been copied, the
    [CatalogId] set and the prefix stripped. *)
Definition selector_base (catalog d : string) : dict :=
  <["DatabaseName" := JStr (bare_name d)]>
    (<["CatalogId" := JStr catalog]> (<["DatabaseName" := JStr d]> ∅)).

(** The end of the [Table] branch: [Name], else [TableWildcard], else the
    validation error. *)
Definition table_selector (base t : dict) : result dict :=
  match t !! "Name", t !! "TableWildcard" with
  | Some n, _ => inr (<["Name" := n]> base)
  | None, Some wc => inr (<["TableWildcard" := wc]> base)
  | None, None => inl LFAttributeError
  end.

(** The end of the [TableWithColumns] branch: [Name] is mandatory, then
    [ColumnNames], else [ColumnWildcard], else the validation error. *)
Definition columns_selector (base t : dict) : result dict :=
  match t !! "Name" with
  | None => inl LFAttributeError
  | Some n =>
      match t !! "ColumnNames", t !! "ColumnWildcard" with
      | Some cs, _ => inr (<["ColumnNames" := cs]> (<["Name" := n]> base))
      | None, Some wc => inr (<["ColumnWildcard" := wc]> (<["Name" := n]> base))
      | None, None => inl LFAttributeError
      end
  end.

(** [perm_grant_json] of the central path. *)
Definition central_grant_option (event : dict) : dict :=
  if has_key "PermissionsWithGrantOption" event
  then {[ "PermissionsWithGrantOption" := Py.str_list ["SELECT"; "DESCRIBE"] ]}
  else ∅.

(** Every call a run adds to the history satisfies [P]. *)
Definition emits {A} (P : call → Prop) (m : M A) : Prop :=
  ∀ h, ∃ t, fst (m h) = h ++ t ∧ Forall P t.

(** A cross-account grant of the manifest: the principal is in account
    222222222222, the record is addressed to that account. *)
Definition cross_account_grant : dict :=
  {[ "AccountID" := JStr "222222222222";
     "Principal" := JStr consumer_arn;
     "Table" := JObj {[ "DatabaseName" := JStr "sales"; "Name" := JStr "orders" ]};
     "Permissions" := Py.str_list ["SELECT"];
     "AccessType" := JStr "grant" ]}.

(** The DB-describe companion [generate_db_perm] derives from it in the
    central account 111111111111. *)
Definition cross_account_companion : dict :=
  {[ "AccountID" := JStr "111111111111";
     "Principal" := JStr "222222222222";
     "Table" := JObj {[ "DatabaseName" := JStr "sales"; "TableWildcard" := JObj ∅ ]};
     "Permissions" := Py.str_list ["SELECT"; "DESCRIBE"];
     "PermissionsWithGrantOption" := Py.str_list ["SELECT"; "DESCRIBE"];
     "AccessType" := JStr "grant" ]}.

(** The message [publish_sns] sends for [record]. *)
Definition sns_message (record : dict) : json := JObj {[ "perms_to_set" := JObj record ]}.

(** The routing attribute of a published message is [account]. *)
Definition routed_to (account : string) (c : call) : Prop :=
  match c with
  | SNS_publish _ _ a => a = JStr account
  | _ => True
  end.

(** What the dispatcher publishes, for the manifest records [originals] in
    the central account [central]: a record of the manifest, routed by its
    own [AccountID] field, or the companion of one, routed to the central
    account. Between the two it may sleep; it makes no other call. *)
Definition dispatched (central : string) (originals : list dict) (c : call) : Prop :=
  match c with
  | SNS_publish _ msg a =>
      ∃ record : dict,
        msg = sns_message record ∧ record !! "AccountID" = Some a
        ∧ (record ∈ originals
           ∨ ∃ r, r ∈ originals
                  ∧ Automation.generate_db_perm central r = inr record
                  ∧ a = JStr central)
  | Time_sleep _ => True
  | _ => False
  end.

(** A record with both selector variants populated. *)
Definition both_selectors : dict :=
  {[ "Principal" := JStr consumer_arn;
     "Table" := JObj {[ "DatabaseName" := JStr "sales"; "Name" := JStr "orders" ]};
     "TableWithColumns" :=
       JObj {[ "DatabaseName" := JStr "sales"; "Name" := JStr "orders";
               "ColumnNames" := Py.str_list ["id"] ]};
     "Permissions" := Py.str_list ["SELECT"; "DESCRIBE"];
     "AccessType" := JStr "grant" ]}.

(** A run that rejects its input before any service is called. *)
Definition rejected_before_any_call {A} (r : list call * result A) : Prop :=
  fst r = [] ∧ ∃ e, snd r = inl e.

(** The record without its [TableWithColumns] selector. *)
Definition without_columns (event : dict) : dict := delete "TableWithColumns" event.

Definition vars_without_columns (vars : option (dict * built)) : option (dict * built) :=
  match vars with
  | Some (event_body, b) => Some (without_columns event_body, b)
  | None => None
  end.

(** The catalog entry the consumption path looks up for the database
    name [d] it receives. *)
Definition link_name (d : string) : string :=
  if negb (Py.str_in "foundation_" d) then "foundation_" +:+ d else d.

(** The [DatabaseInput] of the resource link [name] pointing at the catalog
    of [f_acc_id]. *)
Definition resource_link (f_acc_id name target : string) : json :=
  JObj {[ "Name" := JStr name;
          "TargetDatabase" := JObj {[ "CatalogId" := JStr f_acc_id;
                                      "DatabaseName" := JStr target ]} ]}.

(** What the reconciler and the DESCRIBE grant do for the catalog entry
    [name] with target [target], from the history [h]: the lookup; the
    creation when the lookup reports not-found; the grant when the entry is
    there or was created. *)
Definition reconcile_and_describe (acc_id f_acc_id : string) (w : world)
    (principal : json) (name target : string) (h : list call)
  : list call * result response :=
  let get := Glue_get_database name in
  let create := Glue_create_database (resource_link f_acc_id name target) in
  let grant := consumption_describe acc_id principal name in
  match w h get with
  | inr _ => (h ++ [get; grant], w (h ++ [get]) grant)
  | inl EntityNotFoundException =>
      match w (h ++ [get]) create with
      | inr _ => (h ++ [get; create; grant], w (h ++ [get; create]) grant)
      | inl e => (h ++ [get; create], inl e)
      end
  | inl e => (h ++ [get], inl e)
  end.

(** A record whose selector names its database [d] but not what is selected
    in it: a [Table] without [Name] and [TableWildcard], or (there being no
    [Table]) a [TableWithColumns] without [Name], or without [ColumnNames]
    and [ColumnWildcard]. *)
Inductive incomplete_selector (event : dict) (d : string) : Prop :=
| table_unnamed (t : dict) :
    event !! "Table" = Some (JObj t) →
    t !! "DatabaseName" = Some (JStr d) →
    t !! "Name" = None → t !! "TableWildcard" = None →
    incomplete_selector event d
| columns_unnamed (t : dict) :
    event !! "Table" = None → event !! "TableWithColumns" = Some (JObj t) →
    t !! "DatabaseName" = Some (JStr d) →
    t !! "Name" = None →
    incomplete_selector event d
| columns_unlisted (t : dict) :
    event !! "Table" = None → event !! "TableWithColumns" = Some (JObj t) →
    t !! "DatabaseName" = Some (JStr d) →
    t !! "ColumnNames" = None → t !! "ColumnWildcard" = None →
    incomplete_selector event d.

(** A record without selector, or whose selector does not name its
    database. *)
Inductive missing_field (event : dict) : Prop :=
| no_selector :
    event !! "Table" = None → event !! "TableWithColumns" = None →
    missing_field event
| table_without_database (t : dict) :
    event !! "Table" = Some (JObj t) → t !! "DatabaseName" = None →
    missing_field event
| columns_without_database (t : dict) :
    event !! "Table" = None → event !! "TableWithColumns" = Some (JObj t) →
    t !! "DatabaseName" = None →
    missing_field event.

(** A complete record but for its principal, which is no ARN. *)
Definition bad_principal_record : dict :=
  {[ "AccountID" := JStr "222222222222";
     "Principal" := JStr "consumer";
     "Table" := JObj {[ "DatabaseName" := JStr "sales"; "Name" := JStr "orders" ]};
     "Permissions" := Py.str_list ["SELECT"];
     "AccessType" := JStr "grant" ]}.

(** A complete record but for its selector. *)
Definition no_selector_record : dict :=
  {[ "AccountID" := JStr "222222222222";
     "Principal" := JStr consumer_arn;
     "Permissions" := Py.str_list ["SELECT"];
     "AccessType" := JStr "grant" ]}.

(** The account id parsed from the principal ARN of a record. *)
Definition target_account (r : dict) : option string :=
  match r !! "Principal" with
  | Some (JStr p) => Arn.AccountID <$> Arn.arn_match p
  | _ => None
  end.

(** [AccessType == 'grant']. *)
Definition is_grant (r : dict) : bool :=
  match r !! "AccessType" with
  | Some v => Py.is_str "grant" v
  | None => false
  end.

(** The selector of the record names its database. *)
Definition names_database (r : dict) : Prop :=
  (∃ (t : dict) db, r !! "Table" = Some (JObj t) ∧ t !! "DatabaseName" = Some db)
  ∨ (r !! "Table" = None
     ∧ ∃ (t : dict) db, r !! "TableWithColumns" = Some (JObj t)
                        ∧ t !! "DatabaseName" = Some db).

(** A manifest record the dispatcher can process: its principal is an ARN,
    it has an access type and an account to be routed to, and its selector
    names a database. *)
Definition dispatchable (r : dict) : Prop :=
  is_Some (target_account r) ∧ is_Some (r !! "AccessType")
  ∧ is_Some (r !! "AccountID") ∧ names_database r.

(** The publication of [record] with routing attribute [a]. *)
Definition publication (central region : string) (record : dict) (a : json) : call :=
  SNS_publish (Automation.topic_arn central region) (sns_message record) a.

(** The database the dispatcher reads in a record: the one of the [Table]
    selector when the record has one, else the one of [TableWithColumns]. *)
Definition selected_database (r : dict) : option json :=
  match r !! "Table", r !! "TableWithColumns" with
  | Some (JObj t), _ => t !! "DatabaseName"
  | None, Some (JObj t) => t !! "DatabaseName"
  | _, _ => None
  end.

(** The DB-describe companion for the account [account] and the database
    [db], derived in the central account [central]. *)
Definition companion (central account : string) (db : json) : dict :=
  {[ "AccountID" := JStr central;
     "Principal" := JStr account;
     "Table" := JObj {[ "DatabaseName" := db; "TableWildcard" := JObj ∅ ]};
     "Permissions" := Py.str_list ["SELECT"; "DESCRIBE"];
     "PermissionsWithGrantOption" := Py.str_list ["SELECT"; "DESCRIBE"];
     "AccessType" := JStr "grant" ]}.

(** The dispatch of one record as the specification words it, from the
    history [h] to the history after it. A grant for another account than
    the central one is preceded by the publication of its DB-describe
    intent, the [companion] for that account and the database of the
    record, and by a pause of 3 seconds when that publication was
    acknowledged with HTTP 200; every record is then published once. *)
Inductive dispatch_step (central region : string) (w : world)
  : list call → dict → list call → Prop :=
| dispatch_plain h r a :
    is_grant r = false ∨ target_account r = Some central →
    r !! "AccountID" = Some a →
    dispatch_step central region w h r (h ++ [publication central region r a])
| dispatch_acknowledged h r a target db resp :
    is_grant r = true → target_account r = Some target → target ≠ central →
    selected_database r = Some db →
    w h (publication central region (companion central target db) (JStr central))
    = inr resp →
    HTTPStatusCode resp = 200%Z →
    r !! "AccountID" = Some a →
    dispatch_step central region w h r
      (h ++ [ publication central region (companion central target db) (JStr central);
              Time_sleep 3;
              publication central region r a ])
| dispatch_unacknowledged h r a target db resp :
    is_grant r = true → target_account r = Some target → target ≠ central →
    selected_database r = Some db →
    w h (publication central region (companion central target db) (JStr central))
    = inr resp →
    HTTPStatusCode resp ≠ 200%Z →
    r !! "AccountID" = Some a →
    dispatch_step central region w h r
      (h ++ [ publication central region (companion central target db) (JStr central);
              publication central region r a ]).

(** The dispatch of a batch, record after record. *)
Inductive dispatch_steps (central region : string) (w : world)
  : list call → list dict → list call → Prop :=
| dispatch_done h : dispatch_steps central region w h [] h
| dispatch_next h r h1 rs h2 :
    dispatch_step central region w h r h1 →
    dispatch_steps central region w h1 rs h2 →
    dispatch_steps central region w h (r :: rs) h2.

(** A revoke of the manifest. *)
Definition revoke_record : dict :=
  {[ "AccountID" := JStr "222222222222";
     "Principal" := JStr consumer_arn;
     "Table" := JObj {[ "DatabaseName" := JStr "sales"; "Name" := JStr "orders" ]};
     "Permissions" := Py.str_list ["SELECT"];
     "AccessType" := JStr "revoke" ]}.

(** A fine-grained call: a grant or revoke on a table or on columns. *)
Definition fine_grained (c : call) : bool :=
  has_key "Table" (resource_of c) || has_key "TableWithColumns" (resource_of c).

(** A DB-level grant without grant option. *)
Definition db_describe (c : call) : bool :=
  match c with
  | LF_grant_permissions _ (JObj r) _ None => has_key "Database" r
  | _ => false
  end.

(** The [PermissionsWithGrantOption] argument of a call, if it has one. *)
Definition grant_option (c : call) : option json :=
  match c with
  | LF_grant_permissions _ _ _ o => o
  | _ => None
  end.

(** The calls of normalization: not fine-grained, no grant option. *)
Definition quiet (c : call) : Prop := fine_grained c = false ∧ grant_option c = None.

(** The shape of a normalization step [m]: whatever the history, the calls
    it adds are quiet; when it returns, one of them exactly is a DB-level
    grant and the value returned satisfies [Q]. *)
Definition normalizes {A} (Q : A → Prop) (m : M A) : Prop :=
  ∀ h, ∃ t, fst (m h) = h ++ t ∧ Forall quiet t
            ∧ ∀ a, snd (m h) = inr a →
                   length (List.filter db_describe t) = 1%nat ∧ Q a.

(** One of the two selectors of [b] is filled in. *)
Definition selector_present (b : built) : Prop :=
  Py.truthy_dict (table_json b) = true
  ∨ Py.truthy_dict (tableWithColumns_json b) = true.

(** The fine-grained calls for the normalized record [b]. *)
Definition grant_call (b : built) (permissions : json) (o : option json) : call :=
  LF_grant_permissions (JObj (principal_json b))
    (JObj (build_resource (table_json b) (tableWithColumns_json b))) permissions o.

Definition revoke_call (b : built) (permissions : json) : call :=
  LF_revoke_permissions (JObj (principal_json b))
    (JObj (build_resource (table_json b) (tableWithColumns_json b))) permissions.

(** [final] applies the permissions of the normalized record [b], with the
    grant option [o] when it is a grant. *)
Definition applies (o : option json) (b : built) (final : call) : Prop :=
  ∃ permissions, perm_json b !! "Permissions" = Some permissions
    ∧ (final = grant_call b permissions o ∨ final = revoke_call b permissions).

(** The grant option the central path passes for the normalized record. *)
Definition central_option (event : dict) : option json :=
  Some (if has_key "PermissionsWithGrantOption" event
        then Py.str_list ["SELECT"; "DESCRIBE"] else JArr []).

(** The calls of a handler on a batch ending with [last], when only the last
    record has its permission applied: [pre], the calls of the normalization
    of every record of the batch, one DB-level grant per record and no
    fine-grained call, then the one fine-grained call [final], for the
    normalization [b] of the last record. *)
Definition last_record_only (buildjson : dict → M built) (o : dict → option json)
    (batch : list dict) (last : dict) (calls : list call) : Prop :=
  ∃ pre final h b,
    calls = pre ++ [final]
    ∧ buildjson last h = (pre, inr b)
    ∧ Forall quiet pre
    ∧ length (List.filter db_describe pre) = length batch
    ∧ fine_grained final = true
    ∧ applies (o last) b final.

(** Two grants of one batch. *)
Definition first_of_two : dict :=
  {[ "Principal" := JStr consumer_arn;
     "Table" := JObj {[ "DatabaseName" := JStr "sales"; "Name" := JStr "orders" ]};
     "Permissions" := Py.str_list ["SELECT"; "DESCRIBE"];
     "PermissionsWithGrantOption" := Py.str_list ["ALL"];
     "AccessType" := JStr "grant" ]}.

Definition second_of_two : dict :=
  {[ "Principal" := JStr consumer_arn;
     "Table" := JObj {[ "DatabaseName" := JStr "hr"; "Name" := JStr "staff" ]};
     "Permissions" := Py.str_list ["SELECT"; "DESCRIBE"];
     "PermissionsWithGrantOption" := Py.str_list ["ALL"];
     "AccessType" := JStr "grant" ]}.

(** The two ways a run of an account handler ends: it fails during
    normalization or before the fine-grained call, having made quiet calls
    only; or it reaches the one fine-grained call, for the last record. *)
Definition handler_shape (buildjson : dict → M built) (o : dict → option json)
    (batch : list dict) (calls : list call) (r : result ()) : Prop :=
  (Forall quiet calls ∧ ∃ e, r = inl e)
  ∨ (∃ l, last batch = Some l ∧ last_record_only buildjson o batch l calls).


(** ** Vocabulary of the further properties *)

(** No colon and no newline: the characters of an ARN field. *)
Fixpoint field_chars (s : string) : bool :=
  match s with
  | EmptyString => true
  | String c s' =>
      negb (Ascii.eqb c ":") && negb (Ascii.eqb c Arn.newline) && field_chars s'
  end.

(** No newline. *)
Fixpoint line_chars (s : string) : bool :=
  match s with
  | EmptyString => true
  | String c s' => negb (Ascii.eqb c Arn.newline) && line_chars s'
  end.

(** The text of an ARN with the given fields. *)
Definition arn_text (partition service region account rest : string) : string :=
  "arn:" +:+ partition +:+ ":" +:+ service +:+ ":" +:+ region +:+ ":"
  +:+ account +:+ ":" +:+ rest.

(** What the match object holds after the account field. *)
Definition arn_rest (m : Arn.match_obj) : string :=
  default EmptyString (Arn.Ignore m) +:+ Arn.Resource m.

(** No occurrence of the routing prefix. *)
Definition prefix_free (n : string) : Prop := Py.str_in "foundation_" n = false.

(** The [DatabaseName] of the selector in the resource of a call. *)
Definition selector_database (c : call) : option json :=
  match resource_of c !! "Table", resource_of c !! "TableWithColumns" with
  | Some (JObj t), _ => t !! "DatabaseName"
  | None, Some (JObj t) => t !! "DatabaseName"
  | _, _ => None
  end.

(** The [DatabaseName] of a selector dict, when it is a string, is free of
    the routing prefix. *)
Definition database_prefix_free (selector : dict) : Prop :=
  ∀ n, selector !! "DatabaseName" = Some (JStr n) → prefix_free n.

(** The grant on every table of [d] the central path makes for a
    companion. *)
Definition wildcard_grant (ACCOUNT_ID account d : string) : call :=
  LF_grant_permissions (JObj (principal_dict (JStr account)))
    (JObj {[ "Table" := JObj (<["TableWildcard" := JObj ∅]> (selector_base ACCOUNT_ID d)) ]})
    (Py.str_list ["SELECT"; "DESCRIBE"]) (Some (Py.str_list ["SELECT"; "DESCRIBE"])).

(** Whether a fine-grained call sets or withdraws permissions. *)
Definition applied_as (c : call) : option string :=
  match c with
  | LF_grant_permissions _ _ _ _ => Some "grant"
  | LF_revoke_permissions _ _ _ => Some "revoke"
  | _ => None
  end.

(** The call [c] does what the [AccessType] of the record asks for, read
    without regard to letter case. *)
Definition applied_for (l : dict) (c : call) : Prop :=
  ∃ s, l !! "AccessType" = Some (JStr s) ∧ applied_as c = Some (Py.lower s).

(** The [Principal] argument of a grant or revoke call. *)
Definition principal_of (c : call) : option json :=
  match c with
  | LF_grant_permissions p _ _ _ | LF_revoke_permissions p _ _ => Some p
  | _ => None
  end.

(** A Lake Formation call for the principal [v]. *)
Definition call_for (v : json) (c : call) : Prop :=
  principal_of c = Some (JObj (principal_dict v)).

(** A Lake Formation call for the principal of a record of the batch. *)
Definition for_principal_of (batch : list dict) (c : call) : Prop :=
  ∃ (r : dict) v, r ∈ batch ∧ r !! "Principal" = Some v ∧ call_for v c.

(** A catalog call on a resource link: the lookup of a name that holds the
    routing prefix, or the creation of a link with such a name, pointing in
    the catalog of [f_acc_id] at the database of the name without its
    prefix. *)
Definition on_resource_link (f_acc_id : string) (c : call) : Prop :=
  match c with
  | Glue_get_database name => Py.str_in "foundation_" name = true
  | Glue_create_database v =>
      ∃ name, Py.str_in "foundation_" name = true
              ∧ v = resource_link f_acc_id name (bare_name name)
  | _ => False
  end.

(** The exception [w] answers the call [c] with, after the calls [h].
    [time.sleep] is no service call and never raises. *)
Definition refused (w : world) (h : list call) (c : call) : option exn :=
  match c with
  | Time_sleep _ => None
  | _ => match w h c with
         | inl e => Some e
         | inr _ => None
         end
  end.

(** The one exception a handler catches: not-found at the lookup of a
    catalog entry. *)
Definition not_found_at_lookup (c : call) (e : exn) : bool :=
  match c, e with
  | Glue_get_database _, EntityNotFoundException => true
  | _, _ => false
  end.

(** No exception is swallowed along the calls [t] made after [h], but the
    tolerated ones: a call that is refused is the last call, and its
    exception is the result [r]. *)
Fixpoint propagated {A} (tolerated : call → exn → bool) (w : world)
    (h t : list call) (r : result A) : Prop :=
  match t with
  | [] => True
  | c :: t' =>
      match refused w h c with
      | Some e =>
          if tolerated c e then propagated tolerated w (h ++ [c]) t' r
          else t' = [] ∧ r = inl e
      | None => propagated tolerated w (h ++ [c]) t' r
      end
  end.

(** The same of a statement [m], whatever the calls made before it. *)
Definition propagates {A} (tolerated : call → exn → bool) (w : world) (m : M A) : Prop :=
  ∀ h, ∃ t, fst (m h) = h ++ t ∧ propagated tolerated w h t (snd (m h)).

(** Lake Formation refuses every grant that carries a grant option. *)
Definition no_grant_option : world :=
  fun _ c =>
    match c with
    | LF_grant_permissions _ _ _ (Some _) => inl (ClientError "AccessDeniedException")
    | _ => inr {| HTTPStatusCode := 200 |}
    end.

(** The catalog has no database yet, and refuses to create one. *)
Definition read_only_catalog : world :=
  fun _ c =>
    match c with
    | Glue_get_database _ => inl EntityNotFoundException
    | Glue_create_database _ => inl (ClientError "AccessDeniedException")
    | _ => inr {| HTTPStatusCode := 200 |}
    end.

(** The notification service refuses every message. *)
Definition no_topic : world :=
  fun _ c =>
    match c with
    | SNS_publish _ _ _ => inl (ClientError "NotFound")
    | _ => inr {| HTTPStatusCode := 200 |}
    end.

(** The queue record [record] carries the dict [d] as [perms_to_set]. *)
Definition carries (json_loads : string → result json) (record : json) (d : dict) : Prop :=
  Queue.perms_to_set json_loads record = inr (JObj d).

(** An encoder and a decoder that know the two texts of the delivery of one
    message; what they answer on other values plays no role. *)
Definition two_texts_dumps (v : json) : string :=
  match v with
  | JObj m => if has_key "Message" m then "body of the queue record"
              else "message of the notification"
  | _ => EmptyString
  end.

Definition two_texts_loads (message : json) (text : string) : result json :=
  if String.eqb text "body of the queue record"
  then inr (JObj {[ "Message" := JStr "message of the notification" ]})
  else if String.eqb text "message of the notification"
  then inr message
  else inr JNull.

(** The decoder for one delivery of scenario A. *)
Definition scenario_A_loads : string → result json :=
  two_texts_loads (sns_message (scenario_A_named (JStr "orders"))).

(** The queue record of that delivery. *)
Definition scenario_A_delivery : json :=
  JObj {[ "body" := JStr "body of the queue record" ]}.

(** The record with the routing prefix put before the database name [d] of
    its [Table] selector [t]. *)
Definition with_prefixed_database (r t : dict) (d : string) : dict :=
  <["Table" := JObj (<["DatabaseName" := JStr ("foundation_" +:+ d)]> t)]> r.

(** The fine-grained grant of the central path on the table [n] of the
    database [d]. *)
Definition table_grant (ACCOUNT_ID : string) (p n : json) (d : string)
    (permissions option : json) : call :=
  LF_grant_permissions (JObj (principal_dict p))
    (JObj {[ "Table" := JObj (<["Name" := n]> (selector_base ACCOUNT_ID d)) ]})
    permissions (Some option).

(** The queue record that delivers a notification: its [body] is the text
    of the notification. *)
Definition queue_record (json_dumps : json → string) (notification : dict) : json :=
  JObj {[ "body" := JStr (json_dumps (JObj notification)) ]}.

(** A grant of the manifest written in capital letters. *)
Definition capital_grant : dict := <["AccessType" := JStr "GRANT"]> cross_account_grant.

(** The field [b] of the part [a] of the [s3] block of a bucket event. *)
Definition s3_field (s3_event : json) (a b : string) : result json :=
  s3 ← Py.getitem s3_event "s3";
  part ← Py.getitem s3 a;
  Py.getitem part b.

(** A bucket event of the manifest [key] in [bucket], and the notification
    that holds it first. *)
Definition manifest_event (bucket key : string) : json :=
  JObj {[ "s3" := JObj {[ "bucket" := JObj {[ "name" := JStr bucket ]};
                          "object" := JObj {[ "key" := JStr key; "size" := JNum 512 ]} ]};
          "eventTime" := JStr "2021-06-01T10:00:00.000Z" ]}.

Definition manifest_notification (bucket key : string) (others : list json) : json :=
  JObj {[ "Records" := JArr (manifest_event bucket key :: others) ]}.

(** A bucket with one manifest, of the two records [revoke_record] and
    [cross_account_grant]. *)
Definition one_manifest (bucket key : json) : result json :=
  if Py.is_str "manifests" bucket && Py.is_str "grants.json" key
  then inr (JObj {[ "Records" := JArr [JObj revoke_record; JObj cross_account_grant] ]})
  else inl (ClientError "NoSuchKey").

(** A decoder that knows one text, the notification of that manifest
    followed by the event of another object. *)
Definition one_notification_loads (text : string) : result json :=
  if String.eqb text "notification"
  then inr (manifest_notification "manifests" "grants.json"
              [manifest_event "manifests" "other.json"])
  else inr JNull.

(** The database name the selector of the record gives is no list and no
    dict. On such a record the consumption path is embedded as the code
    runs (see [Consumption.database_name]). *)
Definition scalar_database_name (r : dict) : bool :=
  match selected_database r with
  | Some (JArr _) | Some (JObj _) => false
  | _ => true
  end.

Definition scalar_database_names (batch : list dict) : bool :=
  forallb scalar_database_name batch.

(** Every character of the text is an ASCII character. On such a text
    [Py.lower] is [str.lower]. *)
Fixpoint ascii_only (s : string) : bool :=
  match s with
  | EmptyString => true
  | String (Ascii _ _ _ _ _ _ _ b7) s' => negb b7 && ascii_only s'
  end.

(** The access type of the last record of the batch, when it is a string,
    is written in ASCII characters. *)
Definition ascii_access_type (batch : list dict) : bool :=
  match last batch with
  | Some l =>
      match l !! "AccessType" with
      | Some (JStr s) => ascii_only s
      | _ => true
      end
  | None => true
  end.

(** * Properties *)

(** ** Python primitives on the values the handlers expect *)

Lemma contains_obj_Some k (m : dict) v :
  m !! k = Some v → Py.contains k (JObj m) = inr true.
Proof. intros H. unfold Py.contains. by rewrite H, bool_decide_eq_true_2. Qed.

Lemma contains_obj_None k (m : dict) :
  m !! k = None → Py.contains k (JObj m) = inr false.
Proof.
  intros H. unfold Py.contains. rewrite H, bool_decide_eq_false_2; [done|].
  by intros [? ?].
Qed.

Lemma getitem_obj_Some k (m : dict) v :
  m !! k = Some v → Py.getitem (JObj m) k = inr v.
Proof. intros H. unfold Py.getitem. by rewrite H. Qed.

Lemma item_Some k (m : dict) v : m !! k = Some v → item m k = inr v.
Proof. apply getitem_obj_Some. Qed.

Lemma has_key_Some k (m : dict) v : m !! k = Some v → has_key k m = true.
Proof. intros H. unfold has_key. by rewrite H, bool_decide_eq_true_2. Qed.

Lemma has_key_None k (m : dict) : m !! k = None → has_key k m = false.
Proof.
  intros H. unfold has_key. rewrite H, bool_decide_eq_false_2; [done|].
  by intros [? ?].
Qed.

Lemma truthy_insert k v (m : dict) : Py.truthy_dict (<[k := v]> m) = true.
Proof.
  unfold Py.truthy_dict. rewrite bool_decide_eq_false_2; [done|].
  apply insert_non_empty.
Qed.

Lemma truthy_singleton k v : Py.truthy_dict {[ k := v ]} = true.
Proof. apply truthy_insert. Qed.

Lemma truthy_empty : Py.truthy_dict ∅ = false.
Proof. unfold Py.truthy_dict. by rewrite bool_decide_eq_true_2. Qed.

(** Membership in [set(l)] for a list of strings. *)
Lemma existsb_is_str p ps :
  existsb (Py.is_str p) (JStr <$> ps) = bool_decide (p ∈ ps).
Proof.
  induction ps as [|q ps IH]; cbn [fmap list_fmap existsb Py.is_str].
  - rewrite bool_decide_eq_false_2; [done|]. by intros ?%elem_of_nil.
  - rewrite IH. destruct (String.eqb_spec q p) as [->|Hne]; cbn [orb].
    + rewrite bool_decide_eq_true_2; [done|]. by left.
    + apply bool_decide_ext. rewrite elem_of_cons. intuition congruence.
Qed.

Lemma in_set_str_list p ps :
  Py.in_set p (Py.str_list ps) = inr (bool_decide (p ∈ ps)).
Proof.
  unfold Py.in_set, Py.str_list.
  replace (forallb Py.hashable (JStr <$> ps)) with true.
  - by rewrite existsb_is_str.
  - induction ps; simpl; auto.
Qed.

Lemma set_difference_str_list lit ps :
  Py.set_difference lit (Py.str_list ps) = inr (filter (λ p, p ∉ ps) lit).
Proof.
  induction lit as [|p lit IH]; [done|].
  cbn [Py.set_difference]. rewrite in_set_str_list, IH.
  rewrite filter_cons. destruct (decide (p ∉ ps)) as [Hn|Hn].
  - by rewrite bool_decide_eq_false_2.
  - rewrite bool_decide_eq_true_2; [done|]. by apply dec_stable.
Qed.

(** The permission block of [buildjson], on a list of permission names: the
    literal list replaces the input exactly when one of its members is
    missing from the input; an input that has them all is kept as it is. *)
Lemma build_perm_json_replaced lit (event : dict) ps :
  event !! "Permissions" = Some (Py.str_list ps) →
  ¬ lit ⊆ ps →
  build_perm_json lit event = inr {[ "Permissions" := Py.str_list lit ]}.
Proof.
  intros Hev Hsub. unfold build_perm_json. rewrite Hev.
  cbn [mbind result_bind]. rewrite set_difference_str_list.
  destruct (filter _ lit) as [|x l] eqn:Hf; [|done].
  exfalso. apply Hsub. intros p Hp. apply dec_stable. intros Hn.
  assert (p ∈ filter (λ p, p ∉ ps) lit) as Hin by by apply list_elem_of_filter.
  rewrite Hf in Hin. by apply elem_of_nil in Hin.
Qed.

Lemma build_perm_json_kept lit (event : dict) ps :
  event !! "Permissions" = Some (Py.str_list ps) →
  lit ⊆ ps →
  build_perm_json lit event = inr {[ "Permissions" := Py.str_list ps ]}.
Proof.
  intros Hev Hsub. unfold build_perm_json. rewrite Hev.
  cbn [mbind result_bind]. rewrite set_difference_str_list.
  destruct (filter _ lit) as [|x l] eqn:Hf; [done|].
  exfalso. assert (x ∈ filter (λ p, p ∉ ps) lit) as Hin by (rewrite Hf; by left).
  apply list_elem_of_filter in Hin as [Hn Hin]. by apply Hn, Hsub.
Qed.


(** ** [split] and the prefix *)

Lemma split_go_nonempty sep k cur s : Py.split_go sep k cur s ≠ [].
Proof.
  revert k cur. induction s as [|c s IH]; intros k cur; cbn [Py.split_go]; [done|].
  destruct k; [|apply IH].
  destruct (String.prefix sep (String c s)); [done|apply IH].
Qed.

(** A string in which the separator occurs splits in two pieces at least. *)
Lemma split_go_second sep cur s :
  sep ≠ EmptyString → Py.str_in sep s = true →
  ∃ piece, Py.split_go sep 0 cur s !! 1%nat = Some piece.
Proof.
  intros Hsep. revert cur. induction s as [|c s IH]; intros cur Hin.
  - destruct sep; [done|]. discriminate Hin.
  - cbn [Py.split_go]. cbn [Py.str_in] in Hin.
    destruct (String.prefix sep (String c s)) eqn:Hp.
    + destruct (Py.split_go sep (String.length sep - 1) EmptyString s)
        as [|x l] eqn:Hs.
      * by apply split_go_nonempty in Hs.
      * by exists x.
    + apply IH. exact Hin.
Qed.

Lemma split_foundation_second d :
  Py.str_in "foundation_" d = true →
  Py.split "foundation_" d !! 1%nat = Some (bare_name d).
Proof.
  intros Hin. unfold bare_name. rewrite Hin.
  destruct (split_go_second "foundation_" EmptyString d) as [piece Hp]; [done..|].
  unfold Py.split. by rewrite Hp.
Qed.

Lemma prefix_append s d : String.prefix s (s +:+ d) = true.
Proof.
  induction s as [|a s IH]; simpl.
  - by destruct d.
  - destruct (ascii_dec a a) as [_|Hne]; [exact IH|by destruct Hne].
Qed.

Lemma str_in_prefix sub s : String.prefix sub s = true → Py.str_in sub s = true.
Proof. intros H. destruct s; cbn [Py.str_in]; by rewrite H. Qed.

(** Splitting on a separator that opens the string, and a string in which
    the separator does not occur. *)
Lemma append_cons a s t : String a s +:+ t = String a (s +:+ t).
Proof. reflexivity. Qed.

Lemma append_nil_r s : s +:+ EmptyString = s.
Proof. induction s as [|a s IH]; [done|]. rewrite append_cons. by f_equal. Qed.

Lemma append_snoc cur c s : (cur +:+ String c EmptyString) +:+ s = cur +:+ String c s.
Proof. induction cur as [|a cur IH]; [done|]. rewrite !append_cons. by f_equal. Qed.

Lemma split_go_skip sep skipped cur s :
  Py.split_go sep (String.length skipped) cur (skipped +:+ s)
  = Py.split_go sep 0 cur s.
Proof.
  induction skipped as [|a skipped IH]; [done|].
  rewrite append_cons. cbn [String.length Py.split_go]. exact IH.
Qed.

Lemma split_go_no_sep sep cur s :
  Py.str_in sep s = false → Py.split_go sep 0 cur s = [cur +:+ s].
Proof.
  revert cur. induction s as [|c s IH]; intros cur Hin.
  - by rewrite append_nil_r.
  - cbn [Py.str_in] in Hin. apply orb_false_iff in Hin as [Hp Hin].
    cbn [Py.split_go]. rewrite Hp, IH by done. by rewrite append_snoc.
Qed.

Lemma split_prefixed a sep s :
  Py.str_in (String a sep) s = false →
  Py.split (String a sep) (String a sep +:+ s) = [EmptyString; s].
Proof.
  intros Hin. unfold Py.split.
  rewrite append_cons. cbn [Py.split_go]. rewrite <- append_cons, prefix_append.
  replace (String.length (String a sep) - 1) with (String.length sep)
    by (cbn [String.length]; lia).
  by rewrite split_go_skip, split_go_no_sep.
Qed.

Lemma bare_name_bare b : Py.str_in "foundation_" b = false → bare_name b = b.
Proof. intros Hin. unfold bare_name. by rewrite Hin. Qed.

Lemma bare_name_prefixed b :
  Py.str_in "foundation_" b = false → bare_name ("foundation_" +:+ b) = b.
Proof.
  intros Hin. unfold bare_name.
  rewrite (str_in_prefix _ _ (prefix_append "foundation_" b)).
  by rewrite (split_prefixed _ _ _ Hin).
Qed.

Lemma link_name_bare b :
  Py.str_in "foundation_" b = false → link_name b = "foundation_" +:+ b.
Proof. intros Hin. unfold link_name. by rewrite Hin. Qed.

Lemma link_name_prefixed b : link_name ("foundation_" +:+ b) = "foundation_" +:+ b.
Proof.
  unfold link_name. by rewrite (str_in_prefix _ _ (prefix_append "foundation_" b)).
Qed.

(** ** Running the monad step by step *)

Ltac mstep :=
  unfold mbind, M_bind, bind, mret, M_ret, ret, lift, raise, perform, try_except,
         result_bind, result_ret;
  cbn [negb fst snd].

(** On a string the stripping never fails. *)
Lemma strip_foundation_str d : strip_foundation (JStr d) = inr (JStr (bare_name d)).
Proof.
  unfold strip_foundation. cbn [Py.contains]. mstep.
  destruct (Py.str_in "foundation_" d) eqn:Hin.
  - by rewrite (split_foundation_second d Hin).
  - unfold bare_name. by rewrite Hin.
Qed.

(** ** The central path, run on a record of the expected shape *)

Section CentralRuns.
Variables (ACCOUNT_ID : string) (w : world).

Lemma central_build_table_run pj (t : dict) d h :
  t !! "DatabaseName" = Some (JStr d) →
  Central.build_table ACCOUNT_ID w pj (JObj t) h =
    (h ++ [central_describe (JObj pj) d],
     match w h (central_describe (JObj pj) d) with
     | inl e => inl e
     | inr _ => table_selector (selector_base ACCOUNT_ID d) t
     end).
Proof.
  intros Hdb. unfold Central.build_table, Central.grant_db_describe, table_selector.
  rewrite (contains_obj_Some _ _ _ Hdb), (getitem_obj_Some _ _ _ Hdb). mstep.
  fold (central_describe (JObj pj) d).
  destruct (w h _) as [e|r]; [done|].
  rewrite strip_foundation_str. mstep.
  destruct (t !! "Name") as [n|] eqn:Hn.
  - rewrite (contains_obj_Some _ _ _ Hn), (getitem_obj_Some _ _ _ Hn). by mstep.
  - rewrite (contains_obj_None _ _ Hn). mstep.
    destruct (t !! "TableWildcard") as [wc|] eqn:Hw.
    + rewrite (contains_obj_Some _ _ _ Hw), (getitem_obj_Some _ _ _ Hw). by mstep.
    + rewrite (contains_obj_None _ _ Hw). by mstep.
Qed.

Lemma central_build_tableWithColumns_run pj (t : dict) d h :
  t !! "DatabaseName" = Some (JStr d) →
  Central.build_tableWithColumns ACCOUNT_ID w pj (JObj t) h =
    (h ++ [central_describe (JObj pj) d],
     match w h (central_describe (JObj pj) d) with
     | inl e => inl e
     | inr _ => columns_selector (selector_base ACCOUNT_ID d) t
     end).
Proof.
  intros Hdb.
  unfold Central.build_tableWithColumns, Central.grant_db_describe, columns_selector.
  rewrite (contains_obj_Some _ _ _ Hdb), (getitem_obj_Some _ _ _ Hdb). mstep.
  fold (central_describe (JObj pj) d).
  destruct (w h _) as [e|r]; [done|].
  rewrite strip_foundation_str. mstep.
  destruct (t !! "Name") as [n|] eqn:Hn.
  - rewrite (contains_obj_Some _ _ _ Hn), (getitem_obj_Some _ _ _ Hn). mstep.
    destruct (t !! "ColumnNames") as [cs|] eqn:Hc.
    + rewrite (contains_obj_Some _ _ _ Hc), (getitem_obj_Some _ _ _ Hc). by mstep.
    + rewrite (contains_obj_None _ _ Hc). mstep.
      destruct (t !! "ColumnWildcard") as [wc|] eqn:Hw.
      * rewrite (contains_obj_Some _ _ _ Hw), (getitem_obj_Some _ _ _ Hw). by mstep.
      * rewrite (contains_obj_None _ _ Hw). by mstep.
  - rewrite (contains_obj_None _ _ Hn). by mstep.
Qed.

(** [buildjson] on a record with a principal and a [Table] selector naming
    its database: one call, the DB-level DESCRIBE grant on the name as
    received; when it is answered, the selector, then the permissions. *)
Lemma central_buildjson_table_run (event : dict) p (t : dict) d h :
  event !! "Principal" = Some p →
  event !! "Table" = Some (JObj t) →
  t !! "DatabaseName" = Some (JStr d) →
  Central.buildjson ACCOUNT_ID w event h =
    (h ++ [central_describe (JObj (principal_dict p)) d],
     match w h (central_describe (JObj (principal_dict p)) d) with
     | inl e => inl e
     | inr _ =>
         tj ← table_selector (selector_base ACCOUNT_ID d) t;
         perm ← build_perm_json Central.perm_lit event;
         mret {| principal_json := principal_dict p; table_json := tj;
                 tableWithColumns_json := ∅; perm_json := perm;
                 perm_grant_json := central_grant_option event |}
     end).
Proof.
  intros Hp Ht Hdb. unfold Central.buildjson. rewrite Hp, Ht. mstep.
  rewrite (central_build_table_run _ _ _ _ Hdb). fold (principal_dict p).
  destruct (w h _) as [e|r]; [done|].
  destruct (table_selector _ t) as [e|tj]; [done|].
  by destruct (build_perm_json _ event).
Qed.

Lemma central_buildjson_tableWithColumns_run (event : dict) p (t : dict) d h :
  event !! "Principal" = Some p →
  event !! "Table" = None →
  event !! "TableWithColumns" = Some (JObj t) →
  t !! "DatabaseName" = Some (JStr d) →
  Central.buildjson ACCOUNT_ID w event h =
    (h ++ [central_describe (JObj (principal_dict p)) d],
     match w h (central_describe (JObj (principal_dict p)) d) with
     | inl e => inl e
     | inr _ =>
         twcj ← columns_selector (selector_base ACCOUNT_ID d) t;
         perm ← build_perm_json Central.perm_lit event;
         mret {| principal_json := principal_dict p; table_json := ∅;
                 tableWithColumns_json := twcj; perm_json := perm;
                 perm_grant_json := central_grant_option event |}
     end).
Proof.
  intros Hp Ht Htwc Hdb. unfold Central.buildjson. rewrite Hp, Ht, Htwc. mstep.
  rewrite (central_build_tableWithColumns_run _ _ _ _ Hdb). fold (principal_dict p).
  destruct (w h _) as [e|r]; [done|].
  destruct (columns_selector _ t) as [e|tj]; [done|].
  by destruct (build_perm_json _ event).
Qed.

(** A batch of one record: normalise it, then apply it. *)
Lemma central_handler_single (event : dict) h :
  Central.lambda_handler ACCOUNT_ID w [event] h =
    (b ← Central.buildjson ACCOUNT_ID w event;
     access ← lift (access_type_lower event);
     if String.eqb access "grant" then
       response ← Central.grant_lf_permissions w b; mret ()
     else if String.eqb access "revoke" then
       response ← Central.revoke_lf_permissions w b; mret ()
     else raise LFAttributeError) h.
Proof.
  unfold Central.lambda_handler. cbn [Central.for_records]. mstep.
  by destruct (Central.buildjson ACCOUNT_ID w event h) as [h' [e|b]].
Qed.

End CentralRuns.

(** ** Calls emitted by a run *)

Section Emits.
Context {A : Type} (P : call → Prop).

Lemma emits_ret (a : A) : emits P (mret a).
Proof. intros h. exists []. by rewrite app_nil_r. Qed.

Lemma emits_raise e : emits P (raise e : M A).
Proof. intros h. exists []. by rewrite app_nil_r. Qed.

Lemma emits_lift (r : result A) : emits P (lift r).
Proof. intros h. exists []. by rewrite app_nil_r. Qed.

Lemma emits_calls_of (m : M A) : emits P m → Forall P (calls_of m).
Proof. intros Hm. destruct (Hm []) as (t & Ht & HP). unfold calls_of, run. by rewrite Ht. Qed.

End Emits.

Lemma emits_perform P w c : P c → emits P (perform w c).
Proof. intros Hc h. exists [c]. split; [done|]. by constructor. Qed.

Lemma emits_sleep P secs : P (Time_sleep secs) → emits P (sleep secs).
Proof. intros Hc h. exists [Time_sleep secs]. split; [done|]. by constructor. Qed.

Lemma emits_bind {A B} P (m : M A) (k : A → M B) :
  emits P m → (∀ a, emits P (k a)) → emits P (m ≫= k).
Proof.
  intros Hm Hk h. destruct (Hm h) as (t & Ht & HP). mstep.
  destruct (m h) as [h' [e|a]]; cbn [fst] in *; subst h'.
  - by exists t.
  - destruct (Hk a (h ++ t)) as (t' & Ht' & HP').
    exists (t ++ t'). rewrite Ht', app_assoc. split; [done|]. by apply Forall_app.
Qed.

(** After a pure step the continuation knows its value. *)
Lemma emits_bind_lift {A B} P (r : result A) (k : A → M B) :
  (∀ a, r = inr a → emits P (k a)) → emits P (lift r ≫= k).
Proof.
  intros Hk h. mstep. destruct r as [e|a].
  - exists []. by rewrite app_nil_r.
  - by apply Hk.
Qed.

Lemma emits_for_each {A} P (body : A → M ()) l :
  (∀ x, x ∈ l → emits P (body x)) → emits P (for_each body l).
Proof.
  induction l as [|x l IH]; intros Hbody; cbn [for_each].
  - apply emits_ret.
  - apply emits_bind.
    + apply Hbody. by left.
    + intros _. apply IH. intros y Hy. apply Hbody. by right.
Qed.

Lemma item_inr (d : dict) k v : item d k = inr v → d !! k = Some v.
Proof. unfold item, Py.getitem. destruct (d !! k); congruence. Qed.

(** ** The consumption path, run on a record of the expected shape *)

Lemma str_in_link_name d : Py.str_in "foundation_" (link_name d) = true.
Proof.
  unfold link_name. destruct (Py.str_in "foundation_" d) eqn:Hin; cbn [negb]; [done|].
  apply str_in_prefix, prefix_append.
Qed.

Section ConsumptionRuns.
Variables (acc_id f_acc_id : string) (w : world).

Lemma consumption_grant_db_describe_run pj d h :
  Consumption.grant_db_describe acc_id f_acc_id w pj d h
  = reconcile_and_describe acc_id f_acc_id w (JObj pj)
      (link_name d) (bare_name (link_name d)) h.
Proof.
  unfold Consumption.grant_db_describe, Consumption.check_db_exist,
    reconcile_and_describe.
  fold (link_name d). mstep.
  rewrite (split_foundation_second _ (str_in_link_name d)).
  fold (resource_link f_acc_id (link_name d) (bare_name (link_name d))).
  fold (consumption_describe acc_id (JObj pj) (link_name d)).
  destruct (w h _) as [e|r]; cbn [negb].
  - destruct e; cbn [negb]; try done.
    destruct (w _ (Glue_create_database _)) as [e|r]; by rewrite <- ?app_assoc.
  - by rewrite <- ?app_assoc.
Qed.

End ConsumptionRuns.

Section ConsumptionBuild.
Variables (acc_id f_acc_id : string) (w : world).

Lemma consumption_build_table_run pj (t : dict) d h :
  t !! "DatabaseName" = Some (JStr d) →
  Consumption.build_table acc_id f_acc_id w pj (JObj t) h =
    (let '(h', r) := reconcile_and_describe acc_id f_acc_id w (JObj pj)
                       (link_name d) (bare_name (link_name d)) h in
     (h', match r with
          | inl e => inl e
          | inr _ => table_selector (selector_base f_acc_id d) t
          end)).
Proof.
  intros Hdb. unfold Consumption.build_table, table_selector.
  rewrite (contains_obj_Some _ _ _ Hdb), (getitem_obj_Some _ _ _ Hdb).
  unfold Consumption.database_name. mstep.
  rewrite consumption_grant_db_describe_run.
  destruct (reconcile_and_describe _ _ _ _ _ _ h) as [h' [e|r]]; [done|].
  rewrite strip_foundation_str. mstep.
  destruct (t !! "Name") as [n|] eqn:Hn.
  - rewrite (contains_obj_Some _ _ _ Hn), (getitem_obj_Some _ _ _ Hn). by mstep.
  - rewrite (contains_obj_None _ _ Hn). mstep.
    destruct (t !! "TableWildcard") as [wc|] eqn:Hw.
    + rewrite (contains_obj_Some _ _ _ Hw), (getitem_obj_Some _ _ _ Hw). by mstep.
    + rewrite (contains_obj_None _ _ Hw). by mstep.
Qed.

Lemma consumption_build_tableWithColumns_run pj (t : dict) d h :
  t !! "DatabaseName" = Some (JStr d) →
  Consumption.build_tableWithColumns acc_id f_acc_id w pj (JObj t) h =
    (let '(h', r) := reconcile_and_describe acc_id f_acc_id w (JObj pj)
                       (link_name d) (bare_name (link_name d)) h in
     (h', match r with
          | inl e => inl e
          | inr _ => columns_selector (selector_base f_acc_id d) t
          end)).
Proof.
  intros Hdb. unfold Consumption.build_tableWithColumns, columns_selector.
  rewrite (contains_obj_Some _ _ _ Hdb), (getitem_obj_Some _ _ _ Hdb).
  unfold Consumption.database_name. mstep.
  rewrite consumption_grant_db_describe_run.
  destruct (reconcile_and_describe _ _ _ _ _ _ h) as [h' [e|r]]; [done|].
  rewrite strip_foundation_str. mstep.
  destruct (t !! "Name") as [n|] eqn:Hn.
  - rewrite (contains_obj_Some _ _ _ Hn), (getitem_obj_Some _ _ _ Hn). mstep.
    destruct (t !! "ColumnNames") as [cs|] eqn:Hc.
    + rewrite (contains_obj_Some _ _ _ Hc), (getitem_obj_Some _ _ _ Hc). by mstep.
    + rewrite (contains_obj_None _ _ Hc). mstep.
      destruct (t !! "ColumnWildcard") as [wc|] eqn:Hw.
      * rewrite (contains_obj_Some _ _ _ Hw), (getitem_obj_Some _ _ _ Hw). by mstep.
      * rewrite (contains_obj_None _ _ Hw). by mstep.
  - rewrite (contains_obj_None _ _ Hn). by mstep.
Qed.

(** [buildjson] on a record with a principal and a [Table] selector naming
    its database: the reconciler and the DESCRIBE grant on the catalog
    entry; when they succeed, the selector, then the permissions. *)
Lemma consumption_buildjson_table_run (event : dict) p (t : dict) d h :
  event !! "Principal" = Some p →
  event !! "Table" = Some (JObj t) →
  t !! "DatabaseName" = Some (JStr d) →
  Consumption.buildjson acc_id f_acc_id w event h =
    (let '(h', r) := reconcile_and_describe acc_id f_acc_id w (JObj (principal_dict p))
                       (link_name d) (bare_name (link_name d)) h in
     (h', match r with
          | inl e => inl e
          | inr _ =>
              tj ← table_selector (selector_base f_acc_id d) t;
              perm ← build_perm_json Consumption.perm_lit event;
              mret {| principal_json := principal_dict p; table_json := tj;
                      tableWithColumns_json := ∅; perm_json := perm;
                      perm_grant_json := ∅ |}
          end)).
Proof.
  intros Hp Ht Hdb. unfold Consumption.buildjson. rewrite Hp, Ht. mstep.
  rewrite (consumption_build_table_run _ _ _ _ Hdb). fold (principal_dict p).
  destruct (reconcile_and_describe _ _ _ _ _ _ h) as [h' [e|r]]; [done|].
  destruct (table_selector _ t) as [e|tj]; [done|].
  by destruct (build_perm_json _ event).
Qed.

Lemma consumption_buildjson_tableWithColumns_run (event : dict) p (t : dict) d h :
  event !! "Principal" = Some p →
  event !! "Table" = None →
  event !! "TableWithColumns" = Some (JObj t) →
  t !! "DatabaseName" = Some (JStr d) →
  Consumption.buildjson acc_id f_acc_id w event h =
    (let '(h', r) := reconcile_and_describe acc_id f_acc_id w (JObj (principal_dict p))
                       (link_name d) (bare_name (link_name d)) h in
     (h', match r with
          | inl e => inl e
          | inr _ =>
              twcj ← columns_selector (selector_base f_acc_id d) t;
              perm ← build_perm_json Consumption.perm_lit event;
              mret {| principal_json := principal_dict p; table_json := ∅;
                      tableWithColumns_json := twcj; perm_json := perm;
                      perm_grant_json := ∅ |}
          end)).
Proof.
  intros Hp Ht Htwc Hdb. unfold Consumption.buildjson. rewrite Hp, Ht, Htwc. mstep.
  rewrite (consumption_build_tableWithColumns_run _ _ _ _ Hdb).
  fold (principal_dict p).
  destruct (reconcile_and_describe _ _ _ _ _ _ h) as [h' [e|r]]; [done|].
  destruct (columns_selector _ t) as [e|tj]; [done|].
  by destruct (build_perm_json _ event).
Qed.

End ConsumptionBuild.

(** ** Records with an incomplete selector *)

Lemma table_selector_unnamed base (t : dict) :
  t !! "Name" = None → t !! "TableWildcard" = None →
  table_selector base t = inl LFAttributeError.
Proof. intros Hn Hw. unfold table_selector. by rewrite Hn, Hw. Qed.

Lemma columns_selector_unnamed base (t : dict) :
  t !! "Name" = None → columns_selector base t = inl LFAttributeError.
Proof. intros Hn. unfold columns_selector. by rewrite Hn. Qed.

Lemma columns_selector_unlisted base (t : dict) :
  t !! "ColumnNames" = None → t !! "ColumnWildcard" = None →
  columns_selector base t = inl LFAttributeError.
Proof.
  intros Hc Hw. unfold columns_selector. rewrite Hc, Hw. by destruct (t !! "Name").
Qed.

Lemma central_buildjson_incomplete ACCOUNT_ID w (event : dict) p d h :
  event !! "Principal" = Some p →
  incomplete_selector event d →
  Central.buildjson ACCOUNT_ID w event h =
    (h ++ [central_describe (JObj (principal_dict p)) d],
     match w h (central_describe (JObj (principal_dict p)) d) with
     | inl e => inl e
     | inr _ => inl LFAttributeError
     end).
Proof.
  intros Hp [t Ht Hdb Hn Hw|t Ht Htwc Hdb Hn|t Ht Htwc Hdb Hc Hw].
  - rewrite (central_buildjson_table_run _ _ _ _ _ _ _ Hp Ht Hdb).
    by rewrite table_selector_unnamed.
  - rewrite (central_buildjson_tableWithColumns_run _ _ _ _ _ _ _ Hp Ht Htwc Hdb).
    by rewrite columns_selector_unnamed.
  - rewrite (central_buildjson_tableWithColumns_run _ _ _ _ _ _ _ Hp Ht Htwc Hdb).
    by rewrite columns_selector_unlisted.
Qed.

Lemma consumption_buildjson_incomplete acc_id f_acc_id w (event : dict) p d h :
  event !! "Principal" = Some p →
  incomplete_selector event d →
  Consumption.buildjson acc_id f_acc_id w event h =
    (let '(h', r) := reconcile_and_describe acc_id f_acc_id w (JObj (principal_dict p))
                       (link_name d) (bare_name (link_name d)) h in
     (h', match r with
          | inl e => inl e
          | inr _ => inl LFAttributeError
          end)).
Proof.
  intros Hp [t Ht Hdb Hn Hw|t Ht Htwc Hdb Hn|t Ht Htwc Hdb Hc Hw].
  - rewrite (consumption_buildjson_table_run _ _ _ _ _ _ _ _ Hp Ht Hdb).
    by rewrite table_selector_unnamed.
  - rewrite (consumption_buildjson_tableWithColumns_run _ _ _ _ _ _ _ _ Hp Ht Htwc Hdb).
    by rewrite columns_selector_unnamed.
  - rewrite (consumption_buildjson_tableWithColumns_run _ _ _ _ _ _ _ _ Hp Ht Htwc Hdb).
    by rewrite columns_selector_unlisted.
Qed.

(** The reconciler succeeds only with the DESCRIBE grant as its last call. *)
Lemma reconcile_and_describe_inr acc_id f_acc_id w principal name target h r :
  snd (reconcile_and_describe acc_id f_acc_id w principal name target h) = inr r →
  ∃ pre, fst (reconcile_and_describe acc_id f_acc_id w principal name target h)
         = h ++ pre ++ [consumption_describe acc_id principal name].
Proof.
  unfold reconcile_and_describe. destruct (w h _) as [e|r0].
  - destruct e; try discriminate.
    destruct (w _ (Glue_create_database _)) as [e|r0]; [discriminate|].
    intros _. by eexists [_; _].
  - intros _. by eexists [_].
Qed.

Lemma reconcile_and_describe_answers acc_id f_acc_id w principal name target h :
  answers w →
  ∃ r, snd (reconcile_and_describe acc_id f_acc_id w principal name target h) = inr r.
Proof.
  intros Hw. unfold reconcile_and_describe.
  destruct (Hw h (Glue_get_database name)) as [r ->]. apply Hw.
Qed.
(** ** C1: the permission ceiling *)

(** C1 (the code at the failing input). A permission list that contains the
    ceiling and more is not cut down to the ceiling: on the central path the
    list SELECT, DESCRIBE, DROP is emitted as it is and reaches the fine-grained
    grant call, and on the consumption path the list SELECT, ALL is granted
    as it is. *)
Theorem C1_superset_of_ceiling_is_granted_unchanged :
  build_perm_json Central.perm_lit over_ceiling_record
    = inr {[ "Permissions" := Py.str_list ["SELECT"; "DESCRIBE"; "DROP"] ]}
  ∧ run (Central.lambda_handler "111111111111" all_ok [over_ceiling_record])
    = ([ central_describe consumer_principal "sales";
         LF_grant_permissions consumer_principal
           (JObj {[ "Table" := JObj {[ "DatabaseName" := JStr "sales";
                                       "CatalogId" := JStr "111111111111";
                                       "Name" := JStr "orders" ]} ]})
           (Py.str_list ["SELECT"; "DESCRIBE"; "DROP"])
           (Some (JArr [])) ],
       inr ())
  ∧ run (Consumption.lambda_handler "222222222222" "999999999999" all_ok
           [over_select_record])
    = ([ Glue_get_database "foundation_sales";
         consumption_describe "222222222222" consumer_principal "foundation_sales";
         LF_grant_permissions consumer_principal
           (JObj {[ "Table" := JObj {[ "DatabaseName" := JStr "sales";
                                       "CatalogId" := JStr "999999999999";
                                       "Name" := JStr "orders" ]} ]})
           (Py.str_list ["SELECT"; "ALL"])
           None ],
       inr ()).
Proof. repeat split; vm_compute; reflexivity. Qed.

(** ** C2: end-to-end scenario A on the central path *)

Lemma all_ok_answers : answers all_ok.
Proof. intros h c. by eexists. Qed.

(** C2 (counterexample). On the input of scenario A the central handler
    issues one call, the DB-level DESCRIBE grant on [foundation_sales], and
    then fails with LFAttributeError, the Table selector having neither Name
    nor TableWildcard: no DESCRIBE grant on [sales] and no fine-grained grant
    is made. *)
Lemma C2_scenario_A_fails :
  run (Central.lambda_handler "111111111111" all_ok [scenario_A])
    = ([central_describe consumer_principal "foundation_sales"], inl LFAttributeError)
  ∧ ¬ scenario_A_result
        (calls_of (Central.lambda_handler "111111111111" all_ok [scenario_A])).
Proof.
  assert (run (Central.lambda_handler "111111111111" all_ok [scenario_A])
    = ([central_describe consumer_principal "foundation_sales"], inl LFAttributeError))
    as Hrun by (vm_compute; reflexivity).
  split; [exact Hrun|].
  unfold calls_of. rewrite Hrun. cbn [fst].
  intros [_ (c & Hc & principal & t & o & Heq & _)].
  apply list_elem_of_singleton in Hc. subst c.
  apply (f_equal (λ c, resource_of c !! "Table")) in Heq.
  unfold central_describe in Heq. cbn [resource_of] in Heq.
  rewrite lookup_singleton_ne in Heq by done.
  by rewrite lookup_singleton_eq in Heq.
Qed.


(** C2 (amended). On the central path, whatever the account and as long as
    the permission service answers: scenario A yields the DB-level DESCRIBE
    grant on the database name as received, [foundation_sales], and fails
    with LFAttributeError; the same record with a table [Name] yields that
    DESCRIBE grant followed by one fine-grained grant with Permissions
    SELECT, DESCRIBE, an empty PermissionsWithGrantOption and
    Table.DatabaseName [sales]. *)
Theorem C2_scenario_A_central ACCOUNT_ID (w : world) (name : json) :
  answers w →
  run (Central.lambda_handler ACCOUNT_ID w [scenario_A])
    = ([central_describe consumer_principal "foundation_sales"], inl LFAttributeError)
  ∧ run (Central.lambda_handler ACCOUNT_ID w [scenario_A_named name])
    = ([ central_describe consumer_principal "foundation_sales";
         LF_grant_permissions consumer_principal
           (JObj {[ "Table" := JObj {[ "DatabaseName" := JStr "sales";
                                       "CatalogId" := JStr ACCOUNT_ID;
                                       "Name" := name ]} ]})
           (Py.str_list ["SELECT"; "DESCRIBE"])
           (Some (JArr [])) ],
       inr ()).
Proof.
  intros Hw. unfold run. rewrite !central_handler_single. split.
  - mstep.
    rewrite (central_buildjson_table_run ACCOUNT_ID w scenario_A (JStr consumer_arn)
               {[ "DatabaseName" := JStr "foundation_sales" ]} "foundation_sales")
      by reflexivity.
    destruct (Hw [] (central_describe (JObj (principal_dict (JStr consumer_arn)))
                       "foundation_sales")) as [r ->].
    reflexivity.
  - mstep.
    rewrite (central_buildjson_table_run ACCOUNT_ID w (scenario_A_named name)
               (JStr consumer_arn)
               {[ "DatabaseName" := JStr "foundation_sales"; "Name" := name ]}
               "foundation_sales")
      by reflexivity.
    destruct (Hw [] (central_describe (JObj (principal_dict (JStr consumer_arn)))
                       "foundation_sales")) as [r ->].
    assert (table_selector (selector_base ACCOUNT_ID "foundation_sales")
              {[ "DatabaseName" := JStr "foundation_sales"; "Name" := name ]}
            = inr {[ "DatabaseName" := JStr "sales"; "CatalogId" := JStr ACCOUNT_ID;
                     "Name" := name ]}) as -> by (vm_compute; reflexivity).
    assert (build_perm_json Central.perm_lit (scenario_A_named name)
            = inr {[ "Permissions" := Py.str_list ["SELECT"; "DESCRIBE"] ]}) as ->
      by (vm_compute; reflexivity).
    assert (access_type_lower (scenario_A_named name) = inr "grant") as ->
      by (vm_compute; reflexivity).
    unfold Central.grant_lf_permissions. cbn [String.eqb Ascii.eqb Bool.eqb].
    mstep. cbn [perm_grant_json perm_json table_json tableWithColumns_json principal_json].
    assert (central_grant_option (scenario_A_named name) = ∅) as -> by reflexivity.
    rewrite truthy_empty.
    rewrite (item_Some "Permissions" _ (Py.str_list ["SELECT"; "DESCRIBE"]))
      by reflexivity.
    unfold build_resource. rewrite truthy_insert.
    match goal with |- context [w ?h ?c] => destruct (Hw h c) as [r' ->] end.
    reflexivity.
Qed.

Lemma C2_scenario_A_central_witness :
  run (Central.lambda_handler "111111111111" all_ok [scenario_A_named (JStr "orders")])
    = ([ central_describe consumer_principal "foundation_sales";
         LF_grant_permissions consumer_principal
           (JObj {[ "Table" := JObj {[ "DatabaseName" := JStr "sales";
                                       "CatalogId" := JStr "111111111111";
                                       "Name" := JStr "orders" ]} ]})
           (Py.str_list ["SELECT"; "DESCRIBE"])
           (Some (JArr [])) ],
       inr ()).
Proof.
  exact (proj2 (C2_scenario_A_central "111111111111" all_ok (JStr "orders")
                  all_ok_answers)).
Defined.

(** ** C3: the routing attribute of the published messages *)

(** The companion record carries the central account as [AccountID] and the
    account parsed from the principal ARN as [Principal]. *)
Lemma generate_db_perm_fields ACCOUNT_ID (r d : dict) :
  Automation.generate_db_perm ACCOUNT_ID r = inr d →
  d !! "AccountID" = Some (JStr ACCOUNT_ID)
  ∧ ∃ p m, r !! "Principal" = Some (JStr p) ∧ Arn.arn_match p = Some m
           ∧ d !! "Principal" = Some (JStr (Arn.AccountID m)).
Proof.
  unfold Automation.generate_db_perm, item, Py.getitem, regex_match. mstep.
  intros H.
  destruct (r !! "Principal") as [[| | |p| |]|]; try discriminate H.
  destruct (Arn.arn_match p) as [m|] eqn:Hm; [|discriminate H].
  match type of H with
  | match ?x with _ => _ end = _ => destruct x as [e|no_db]; [discriminate H|]
  end.
  match type of H with
  | match ?x with _ => _ end = _ => destruct x as [e|tj]; [discriminate H|]
  end.
  injection H as <-. split; [reflexivity|]. by exists p, m.
Qed.

Lemma publish_sns_emits ACCOUNT_ID REGION w originals (record : dict) :
  (record ∈ originals
   ∨ ∃ r, r ∈ originals ∧ Automation.generate_db_perm ACCOUNT_ID r = inr record) →
  emits (dispatched ACCOUNT_ID originals)
        (Automation.publish_sns ACCOUNT_ID REGION w record).
Proof.
  intros Hrec. unfold Automation.publish_sns.
  apply emits_bind_lift. intros a Ha%item_inr. apply emits_perform.
  exists record. split; [done|]. split; [done|].
  destruct Hrec as [?|(r & Hr & Hgen)]; [by left|right].
  exists r. split; [done|]. split; [done|].
  apply generate_db_perm_fields in Hgen as [Hacc _]. congruence.
Qed.

Lemma process_perm_record_emits ACCOUNT_ID REGION w originals (r : dict) :
  r ∈ originals →
  emits (dispatched ACCOUNT_ID originals)
        (Automation.process_perm_record ACCOUNT_ID REGION w r).
Proof.
  intros Hr. unfold Automation.process_perm_record.
  do 4 (apply emits_bind_lift; intros ? _).
  apply emits_bind.
  - destruct a2; [|apply emits_ret].
    apply emits_bind_lift. intros db_perm Hgen.
    apply emits_bind; [apply publish_sns_emits; eauto|].
    intros response. destruct (_ =? _)%Z; [by apply emits_sleep|apply emits_ret].
  - intros _. apply emits_bind; [apply publish_sns_emits; eauto|].
    intros _. apply emits_ret.
Qed.

(** C3 (counterexample). For a grant whose principal is in account
    222222222222, dispatched from the central account 111111111111, the
    DB-describe companion is published with the routing attribute
    111111111111, the central account, and not with the account parsed from
    the principal ARN. *)
Lemma C3_companion_is_routed_to_central :
  Arn.AccountID <$> Arn.arn_match consumer_arn = Some "222222222222"
  ∧ run (Automation.lambda_handler "111111111111" "eu-west-1" all_ok
           [[cross_account_grant]])
    = ([ SNS_publish "arn:aws:sns:eu-west-1:111111111111:lakeformation-automation"
           (sns_message cross_account_companion) (JStr "111111111111");
         Time_sleep 3;
         SNS_publish "arn:aws:sns:eu-west-1:111111111111:lakeformation-automation"
           (sns_message cross_account_grant) (JStr "222222222222") ],
       inr ())
  ∧ ¬ Forall (routed_to "222222222222")
        (calls_of (Automation.lambda_handler "111111111111" "eu-west-1" all_ok
                     [[cross_account_grant]])).
Proof.
  assert (run (Automation.lambda_handler "111111111111" "eu-west-1" all_ok
                 [[cross_account_grant]])
    = ([ SNS_publish "arn:aws:sns:eu-west-1:111111111111:lakeformation-automation"
           (sns_message cross_account_companion) (JStr "111111111111");
         Time_sleep 3;
         SNS_publish "arn:aws:sns:eu-west-1:111111111111:lakeformation-automation"
           (sns_message cross_account_grant) (JStr "222222222222") ],
       inr ())) as Hrun by (vm_compute; reflexivity).
  split; [reflexivity|]. split; [exact Hrun|].
  unfold calls_of. rewrite Hrun. cbn [fst].
  intros H. apply Forall_cons in H as [H _]. cbn [routed_to] in H. discriminate H.
Qed.

(** C3 (amended). Every message the central dispatcher publishes carries as
    routing attribute the [AccountID] field of the record it publishes: the
    original record is routed by the [AccountID] field the manifest gives it,
    and the DB-describe companion is routed to the central account. *)
Theorem C3_messages_routed_by_AccountID_field ACCOUNT_ID REGION (w : world)
    (manifests : list (list dict)) :
  Forall (dispatched ACCOUNT_ID (concat manifests))
         (calls_of (Automation.lambda_handler ACCOUNT_ID REGION w manifests)).
Proof.
  apply emits_calls_of. unfold Automation.lambda_handler.
  apply emits_for_each. intros records Hrecords.
  apply emits_for_each. intros r Hr.
  apply process_perm_record_emits.
  apply list_elem_of_In, in_concat. exists records.
  split; by apply list_elem_of_In.
Qed.

(** ** C4: a record with both selector variants *)

Lemma build_perm_json_without_columns lit (event : dict) :
  build_perm_json lit (without_columns event) = build_perm_json lit event.
Proof.
  unfold build_perm_json, without_columns. by rewrite lookup_delete_ne.
Qed.

Lemma access_type_lower_without_columns (event : dict) :
  access_type_lower (without_columns event) = access_type_lower event.
Proof.
  unfold access_type_lower, item, Py.getitem, without_columns.
  by rewrite lookup_delete_ne.
Qed.

Lemma central_buildjson_without_columns ACCOUNT_ID w (event : dict) h :
  is_Some (event !! "Table") →
  Central.buildjson ACCOUNT_ID w (without_columns event) h
  = Central.buildjson ACCOUNT_ID w event h.
Proof.
  intros [t Ht]. unfold Central.buildjson.
  rewrite build_perm_json_without_columns. unfold without_columns, has_key.
  rewrite (lookup_delete_ne event "TableWithColumns" "Principal") by done.
  rewrite (lookup_delete_ne event "TableWithColumns" "Table") by done.
  rewrite (lookup_delete_ne event "TableWithColumns" "PermissionsWithGrantOption")
    by done.
  by rewrite Ht.
Qed.

Lemma consumption_buildjson_without_columns acc_id f_acc_id w (event : dict) h :
  is_Some (event !! "Table") →
  Consumption.buildjson acc_id f_acc_id w (without_columns event) h
  = Consumption.buildjson acc_id f_acc_id w event h.
Proof.
  intros [t Ht]. unfold Consumption.buildjson.
  rewrite build_perm_json_without_columns. unfold without_columns.
  rewrite (lookup_delete_ne event "TableWithColumns" "Principal") by done.
  rewrite (lookup_delete_ne event "TableWithColumns" "Table") by done.
  by rewrite Ht.
Qed.

Lemma central_for_records_without_columns ACCOUNT_ID w records vars h :
  Forall (λ event : dict, is_Some (event !! "Table")) records →
  Central.for_records ACCOUNT_ID w (without_columns <$> records)
    (vars_without_columns vars) h
  = (let '(h', r) := Central.for_records ACCOUNT_ID w records vars h in
     (h', match r with inl e => inl e | inr v => inr (vars_without_columns v) end)).
Proof.
  intros Hall. revert vars h.
  induction Hall as [|event records Hev _ IH]; intros vars h; [done|].
  cbn [fmap list_fmap Central.for_records]. mstep.
  rewrite central_buildjson_without_columns by done.
  destruct (Central.buildjson ACCOUNT_ID w event h) as [h' [e|b]]; [done|].
  apply (IH (Some (event, b))).
Qed.

Lemma consumption_for_records_without_columns acc_id f_acc_id w records vars h :
  Forall (λ event : dict, is_Some (event !! "Table")) records →
  Consumption.for_records acc_id f_acc_id w (without_columns <$> records)
    (vars_without_columns vars) h
  = (let '(h', r) := Consumption.for_records acc_id f_acc_id w records vars h in
     (h', match r with inl e => inl e | inr v => inr (vars_without_columns v) end)).
Proof.
  intros Hall. revert vars h.
  induction Hall as [|event records Hev _ IH]; intros vars h; [done|].
  cbn [fmap list_fmap Consumption.for_records]. mstep.
  rewrite consumption_buildjson_without_columns by done.
  destruct (Consumption.buildjson acc_id f_acc_id w event h) as [h' [e|b]]; [done|].
  apply (IH (Some (event, b))).
Qed.

(** C4 (counterexample). A grant with both [Table] and [TableWithColumns]
    populated is not rejected: on both paths the DB-level DESCRIBE grant and
    the fine-grained grant on the [Table] selector are issued and the handler
    returns normally. *)
Lemma C4_both_selectors_accepted :
  run (Central.lambda_handler "111111111111" all_ok [both_selectors])
    = ([ central_describe consumer_principal "sales";
         LF_grant_permissions consumer_principal
           (JObj {[ "Table" := JObj {[ "DatabaseName" := JStr "sales";
                                       "CatalogId" := JStr "111111111111";
                                       "Name" := JStr "orders" ]} ]})
           (Py.str_list ["SELECT"; "DESCRIBE"])
           (Some (JArr [])) ],
       inr ())
  ∧ ¬ rejected_before_any_call
        (run (Central.lambda_handler "111111111111" all_ok [both_selectors]))
  ∧ ¬ rejected_before_any_call
        (run (Consumption.lambda_handler "222222222222" "999999999999" all_ok
                [both_selectors])).
Proof.
  split; [vm_compute; reflexivity|].
  split; intros [Hcalls _]; vm_compute in Hcalls; discriminate Hcalls.
Qed.

(** C4 (amended). A record in which both [Table] and [TableWithColumns] are
    populated is not rejected for that: on both paths [Table] is used and
    [TableWithColumns] is ignored, the handler makes the same calls and ends
    the same way as on the records without their [TableWithColumns]. *)
Theorem C4_TableWithColumns_ignored_beside_Table ACCOUNT_ID acc_id f_acc_id
    (w : world) (records : list dict) (h : list call) :
  Forall (λ event : dict, is_Some (event !! "Table")) records →
  Central.lambda_handler ACCOUNT_ID w records h
    = Central.lambda_handler ACCOUNT_ID w (without_columns <$> records) h
  ∧ Consumption.lambda_handler acc_id f_acc_id w records h
    = Consumption.lambda_handler acc_id f_acc_id w (without_columns <$> records) h.
Proof.
  intros Hall. split.
  - unfold Central.lambda_handler. mstep.
    change (@None (dict * built)) with (vars_without_columns None) at 2.
    rewrite central_for_records_without_columns by done.
    destruct (Central.for_records ACCOUNT_ID w records None h)
      as [h' [e|[[event b]|]]]; [done| |done].
    cbn [vars_without_columns]. by rewrite access_type_lower_without_columns.
  - unfold Consumption.lambda_handler. mstep.
    change (@None (dict * built)) with (vars_without_columns None) at 2.
    rewrite consumption_for_records_without_columns by done.
    destruct (Consumption.for_records acc_id f_acc_id w records None h)
      as [h' [e|[[event b]|]]]; [done| |done].
    cbn [vars_without_columns]. by rewrite access_type_lower_without_columns.
Qed.

Lemma C4_TableWithColumns_ignored_beside_Table_witness :
  run (Central.lambda_handler "111111111111" all_ok [both_selectors])
    = run (Central.lambda_handler "111111111111" all_ok
             [without_columns both_selectors])
  ∧ run (Consumption.lambda_handler "222222222222" "999999999999" all_ok
           [both_selectors])
    = run (Consumption.lambda_handler "222222222222" "999999999999" all_ok
             [without_columns both_selectors]).
Proof.
  apply (C4_TableWithColumns_ignored_beside_Table "111111111111" "222222222222"
           "999999999999" all_ok [both_selectors] []).
  constructor; [|constructor]. by eexists.
Defined.

(** ** C7: the resource-link reconciler of the consumption path *)

(** C7 (counterexample). For the database name [myfoundation_db] the entry
    looked up is [myfoundation_db] itself, which is not [foundation_]
    followed by any name, and the link that is created points at the
    database [db]. *)
Lemma C7_name_containing_the_prefix :
  run (Consumption.grant_db_describe "222222222222" "999999999999" empty_catalog
         (principal_dict (JStr consumer_arn)) "myfoundation_db")
    = ([ Glue_get_database "myfoundation_db";
         Glue_create_database (resource_link "999999999999" "myfoundation_db" "db");
         consumption_describe "222222222222" consumer_principal "myfoundation_db" ],
       inr {| HTTPStatusCode := 200 |})
  ∧ ¬ ∃ bare,
        head (calls_of (Consumption.grant_db_describe "222222222222" "999999999999"
                          empty_catalog (principal_dict (JStr consumer_arn))
                          "myfoundation_db"))
        = Some (Glue_get_database ("foundation_" +:+ bare)).
Proof.
  assert (run (Consumption.grant_db_describe "222222222222" "999999999999"
                 empty_catalog (principal_dict (JStr consumer_arn)) "myfoundation_db")
    = ([ Glue_get_database "myfoundation_db";
         Glue_create_database (resource_link "999999999999" "myfoundation_db" "db");
         consumption_describe "222222222222" consumer_principal "myfoundation_db" ],
       inr {| HTTPStatusCode := 200 |})) as Hrun by (vm_compute; reflexivity).
  split; [exact Hrun|].
  unfold calls_of. rewrite Hrun. cbn [fst head].
  intros [bare H]. rewrite append_cons in H. discriminate H.
Qed.

(** C7 (amended). For every database name [b] in which [foundation_] does
    not occur, received bare or with the prefix, the reconciler looks up the
    catalog entry [foundation_b]. When the entry is there, the next and last
    call is the DESCRIBE grant on it: the catalog is not written. When the
    lookup reports not-found, the entry is created with target catalog
    [f_acc_id] and target database [b], and the DESCRIBE grant follows a
    successful creation. Any other lookup failure propagates, and neither
    creation nor grant is attempted. *)
Theorem C7_resource_link_for_bare_names acc_id f_acc_id (w : world) (pj : dict)
    (b d : string) (h : list call) :
  Py.str_in "foundation_" b = false →
  d = b ∨ d = "foundation_" +:+ b →
  let name := "foundation_" +:+ b in
  let get := Glue_get_database name in
  let create :=
    Glue_create_database
      (JObj {[ "Name" := JStr name;
               "TargetDatabase" := JObj {[ "CatalogId" := JStr f_acc_id;
                                           "DatabaseName" := JStr b ]} ]}) in
  let grant := consumption_describe acc_id (JObj pj) name in
  Consumption.grant_db_describe acc_id f_acc_id w pj d h =
    match w h get with
    | inr _ => (h ++ [get; grant], w (h ++ [get]) grant)
    | inl EntityNotFoundException =>
        match w (h ++ [get]) create with
        | inr _ => (h ++ [get; create; grant], w (h ++ [get; create]) grant)
        | inl e => (h ++ [get; create], inl e)
        end
    | inl e => (h ++ [get], inl e)
    end.
Proof.
  intros Hb Hd name get create grant.
  rewrite consumption_grant_db_describe_run.
  assert (link_name d = name) as ->.
  { destruct Hd as [->| ->]; [by apply link_name_bare|apply link_name_prefixed]. }
  subst get create grant name. by rewrite (bare_name_prefixed b Hb).
Qed.

Lemma C7_resource_link_for_bare_names_witness :
  Consumption.grant_db_describe "222222222222" "999999999999" empty_catalog
    (principal_dict (JStr consumer_arn)) "sales" []
  = ([ Glue_get_database "foundation_sales";
       Glue_create_database (resource_link "999999999999" "foundation_sales" "sales");
       consumption_describe "222222222222" consumer_principal "foundation_sales" ],
     inr {| HTTPStatusCode := 200 |}).
Proof.
  exact (C7_resource_link_for_bare_names "222222222222" "999999999999" empty_catalog
           (principal_dict (JStr consumer_arn)) "sales" "sales" []
           eq_refl (or_introl eq_refl)).
Defined.

(** ** C10: the validation error comes after the DESCRIBE grant *)

(** C10. For a record that has a principal and whose selector names its
    database but is incomplete, [buildjson] has issued the DB-level DESCRIBE
    grant before it raises its validation error. On the central path the
    grant on the database is the one call made, and LFAttributeError is
    raised when it has been answered. On the consumption path the reconciler
    and the grant on the linked entry come first, and LFAttributeError is
    raised only when they have succeeded, the grant being then the last call
    made. *)
Theorem C10_validation_error_after_describe ACCOUNT_ID acc_id f_acc_id (w : world)
    (event : dict) (p : json) (d : string) (h : list call) :
  event !! "Principal" = Some p →
  incomplete_selector event d →
  let describe := central_describe (JObj (principal_dict p)) d in
  let link_describe :=
    consumption_describe acc_id (JObj (principal_dict p)) (link_name d) in
  let reconciled :=
    reconcile_and_describe acc_id f_acc_id w (JObj (principal_dict p))
      (link_name d) (bare_name (link_name d)) h in
  Central.buildjson ACCOUNT_ID w event h
    = (h ++ [describe],
       match w h describe with inl e => inl e | inr _ => inl LFAttributeError end)
  ∧ Consumption.buildjson acc_id f_acc_id w event h
    = (fst reconciled,
       match snd reconciled with inl e => inl e | inr _ => inl LFAttributeError end)
  ∧ (∀ r, snd reconciled = inr r → ∃ pre, fst reconciled = h ++ pre ++ [link_describe]).
Proof.
  intros Hp Hsel describe link_describe reconciled. split; [|split].
  - by apply central_buildjson_incomplete.
  - rewrite (consumption_buildjson_incomplete _ _ _ _ _ _ _ Hp Hsel).
    fold reconciled. by destruct reconciled.
  - intros r. apply reconcile_and_describe_inr.
Qed.

Lemma C10_validation_error_after_describe_witness :
  Central.buildjson "111111111111" all_ok scenario_A []
    = ([central_describe consumer_principal "foundation_sales"], inl LFAttributeError)
  ∧ Consumption.buildjson "222222222222" "999999999999" all_ok scenario_A []
    = ([ Glue_get_database "foundation_sales";
         consumption_describe "222222222222" consumer_principal "foundation_sales" ],
       inl LFAttributeError).
Proof.
  destruct (C10_validation_error_after_describe "111111111111" "222222222222"
              "999999999999" all_ok scenario_A (JStr consumer_arn) "foundation_sales" []
              eq_refl
              (table_unnamed scenario_A "foundation_sales"
                 {[ "DatabaseName" := JStr "foundation_sales" ]}
                 eq_refl eq_refl eq_refl eq_refl))
    as (Hcentral & Hconsumption & _).
  split; [exact Hcentral|exact Hconsumption].
Defined.

(** ** C5: the error raised by a failed normalization *)

Lemma missing_field_no_database (event : dict) :
  missing_field event →
  match event !! "Table", event !! "TableWithColumns" with
  | Some t, _ | None, Some t => Py.contains "DatabaseName" t = inr false
  | None, None => True
  end.
Proof.
  intros [Ht Htwc|t Ht Hdb|t Ht Htwc Hdb].
  - by rewrite Ht, Htwc.
  - rewrite Ht. by apply contains_obj_None.
  - rewrite Ht, Htwc. by apply contains_obj_None.
Qed.

Lemma generate_db_perm_invalid ACCOUNT_ID (r : dict) p :
  r !! "Principal" = Some (JStr p) →
  Arn.arn_match p = None ∨ missing_field r →
  Automation.generate_db_perm ACCOUNT_ID r = inl LFAttributeError.
Proof.
  intros Hp Hbad. unfold Automation.generate_db_perm.
  rewrite (item_Some _ _ _ Hp). unfold regex_match. mstep.
  destruct (Arn.arn_match p) as [m|]; [|done].
  destruct Hbad as [?|Hmissing]; [done|].
  apply missing_field_no_database in Hmissing. unfold has_key.
  destruct (r !! "Table") as [t|] eqn:Ht.
  - by rewrite Hmissing.
  - destruct (r !! "TableWithColumns") as [t|] eqn:Htwc.
    + rewrite !bool_decide_eq_false_2 by (by intros [? ?]).
      rewrite bool_decide_eq_true_2 by eauto. cbn [negb andb orb].
      rewrite (item_Some _ _ _ Htwc). by rewrite Hmissing.
    + by rewrite !bool_decide_eq_false_2 by (by intros [? ?]).
Qed.

Lemma central_buildjson_missing ACCOUNT_ID w (event : dict) p h :
  event !! "Principal" = Some p →
  missing_field event →
  Central.buildjson ACCOUNT_ID w event h = (h, inl LFAttributeError).
Proof.
  intros Hp Hmissing. apply missing_field_no_database in Hmissing.
  unfold Central.buildjson, Central.build_table, Central.build_tableWithColumns.
  rewrite Hp. mstep.
  destruct (event !! "Table") as [t|]; [by rewrite Hmissing|].
  destruct (event !! "TableWithColumns") as [t|]; [by rewrite Hmissing|done].
Qed.

Lemma consumption_buildjson_missing acc_id f_acc_id w (event : dict) p h :
  event !! "Principal" = Some p →
  missing_field event →
  Consumption.buildjson acc_id f_acc_id w event h = (h, inl LFAttributeError).
Proof.
  intros Hp Hmissing. apply missing_field_no_database in Hmissing.
  unfold Consumption.buildjson, Consumption.build_table,
    Consumption.build_tableWithColumns.
  rewrite Hp. mstep.
  destruct (event !! "Table") as [t|]; [by rewrite Hmissing|].
  destruct (event !! "TableWithColumns") as [t|]; [by rewrite Hmissing|done].
Qed.

(** C5 (counterexample). A principal that is no ARN and a missing selector
    make [generate_db_perm] fail with the same exception, LFAttributeError:
    the two causes are not told apart by the type of the error. *)
Lemma C5_same_error_for_both_causes :
  Arn.arn_match "consumer" = None
  ∧ Automation.generate_db_perm "111111111111" bad_principal_record
    = inl LFAttributeError
  ∧ Automation.generate_db_perm "111111111111" no_selector_record
    = inl LFAttributeError
  ∧ ¬ ∃ InvalidPrincipalError MissingAttributeError : exn,
        InvalidPrincipalError ≠ MissingAttributeError
        ∧ Automation.generate_db_perm "111111111111" bad_principal_record
          = inl InvalidPrincipalError
        ∧ Automation.generate_db_perm "111111111111" no_selector_record
          = inl MissingAttributeError.
Proof.
  assert (Automation.generate_db_perm "111111111111" bad_principal_record
          = inl LFAttributeError) as Hbad by (vm_compute; reflexivity).
  assert (Automation.generate_db_perm "111111111111" no_selector_record
          = inl LFAttributeError) as Hno by (vm_compute; reflexivity).
  split; [reflexivity|]. split; [exact Hbad|]. split; [exact Hno|].
  intros (e1 & e2 & Hne & H1 & H2). rewrite Hbad in H1. rewrite Hno in H2.
  congruence.
Qed.

(** C5 (amended). Every failure of normalization is signalled by the one
    exception LFAttributeError. For every record whose principal string does
    not match the ARN pattern, and for every record with no selector or with
    a selector that lacks DatabaseName, [generate_db_perm] fails with
    LFAttributeError; for the latter records [buildjson] fails with
    LFAttributeError on both paths before any service is called; and for a
    selector that lacks Name and its wildcard alternative, [buildjson] fails
    with LFAttributeError on both paths when the services answer. *)
Theorem C5_failures_raise_LFAttributeError ACCOUNT_ID acc_id f_acc_id (w : world)
    (r : dict) (p : string) (h : list call) :
  r !! "Principal" = Some (JStr p) →
  answers w →
  (Arn.arn_match p = None ∨ missing_field r →
   Automation.generate_db_perm ACCOUNT_ID r = inl LFAttributeError)
  ∧ (missing_field r →
     Central.buildjson ACCOUNT_ID w r h = (h, inl LFAttributeError)
     ∧ Consumption.buildjson acc_id f_acc_id w r h = (h, inl LFAttributeError))
  ∧ (∀ d, incomplete_selector r d →
     snd (Central.buildjson ACCOUNT_ID w r h) = inl LFAttributeError
     ∧ snd (Consumption.buildjson acc_id f_acc_id w r h) = inl LFAttributeError).
Proof.
  intros Hp Hw. split; [|split].
  - by apply generate_db_perm_invalid.
  - intros Hmissing. split.
    + by apply (central_buildjson_missing _ _ _ _ _ Hp).
    + by apply (consumption_buildjson_missing _ _ _ _ _ _ Hp).
  - intros d Hsel. split.
    + rewrite (central_buildjson_incomplete _ _ _ _ _ _ Hp Hsel). cbn [snd].
      by destruct (Hw h (central_describe (JObj (principal_dict (JStr p))) d))
        as [r0 ->].
    + rewrite (consumption_buildjson_incomplete _ _ _ _ _ _ _ Hp Hsel).
      destruct (reconcile_and_describe_answers acc_id f_acc_id w
                  (JObj (principal_dict (JStr p))) (link_name d)
                  (bare_name (link_name d)) h Hw) as [r0 Hr0].
      destruct (reconcile_and_describe _ _ _ _ _ _ h) as [h' res].
      cbn [snd] in *. by rewrite Hr0.
Qed.

Lemma C5_failures_raise_LFAttributeError_witness :
  Automation.generate_db_perm "111111111111" no_selector_record = inl LFAttributeError
  ∧ Central.buildjson "111111111111" all_ok no_selector_record []
    = ([], inl LFAttributeError)
  ∧ Consumption.buildjson "222222222222" "999999999999" all_ok no_selector_record []
    = ([], inl LFAttributeError).
Proof.
  destruct (C5_failures_raise_LFAttributeError "111111111111" "222222222222"
              "999999999999" all_ok no_selector_record consumer_arn []
              eq_refl all_ok_answers) as (Hgen & Hbuild & _).
  assert (missing_field no_selector_record) as Hmissing
    by (apply no_selector; reflexivity).
  split; [exact (Hgen (or_intror Hmissing))|exact (Hbuild Hmissing)].
Defined.

(** ** C6: the order of the publications *)

Lemma target_account_Some (r : dict) t :
  target_account r = Some t →
  ∃ p m, r !! "Principal" = Some (JStr p) ∧ Arn.arn_match p = Some m
         ∧ Arn.AccountID m = t.
Proof.
  unfold target_account. intros H.
  destruct (r !! "Principal") as [[| | |p| |]|]; try discriminate H.
  destruct (Arn.arn_match p) as [m|] eqn:Hm; [|discriminate H].
  cbn [fmap option_fmap option_map] in H. injection H as <-. by exists p, m.
Qed.

Lemma generate_db_perm_dispatchable central (r : dict) t :
  target_account r = Some t → names_database r →
  ∃ intent, Automation.generate_db_perm central r = inr intent.
Proof.
  intros (p & m & Hp & Hm & _)%target_account_Some Hdb.
  unfold Automation.generate_db_perm.
  rewrite (item_Some _ _ _ Hp). unfold regex_match. mstep. rewrite Hm.
  destruct Hdb as [(t' & db & Ht & Hdb)|(Ht & t' & db & Htwc & Hdb)].
  - rewrite Ht, (contains_obj_Some _ _ _ Hdb), (has_key_Some _ _ _ Ht).
    cbn [negb andb orb]. rewrite (item_Some _ _ _ Ht), (getitem_obj_Some _ _ _ Hdb).
    by eexists.
  - rewrite Ht, (has_key_None _ _ Ht), (has_key_Some _ _ _ Htwc).
    cbn [negb andb orb].
    rewrite (item_Some _ _ _ Htwc), (contains_obj_Some _ _ _ Hdb),
      (getitem_obj_Some _ _ _ Hdb).
    by eexists.
Qed.

Lemma generate_db_perm_companion central (r : dict) account db :
  target_account r = Some account →
  selected_database r = Some db →
  Automation.generate_db_perm central r = inr (companion central account db).
Proof.
  intros (p & m & Hp & Hm & <-)%target_account_Some Hdb.
  unfold Automation.generate_db_perm.
  rewrite (item_Some _ _ _ Hp). unfold regex_match. mstep. rewrite Hm.
  unfold selected_database in Hdb.
  destruct (r !! "Table") as [[| | | | |t]|] eqn:Ht; try discriminate Hdb.
  - rewrite (contains_obj_Some _ _ _ Hdb), (has_key_Some _ _ _ Ht).
    cbn [negb andb orb]. rewrite (item_Some _ _ _ Ht), (getitem_obj_Some _ _ _ Hdb).
    reflexivity.
  - destruct (r !! "TableWithColumns") as [[| | | | |t]|] eqn:Htwc; try discriminate Hdb.
    rewrite (has_key_None _ _ Ht), (has_key_Some _ _ _ Htwc).
    cbn [negb andb orb].
    rewrite (item_Some _ _ _ Htwc), (contains_obj_Some _ _ _ Hdb),
      (getitem_obj_Some _ _ _ Hdb).
    reflexivity.
Qed.

Lemma names_database_selected (r : dict) :
  names_database r → ∃ db, selected_database r = Some db.
Proof.
  unfold selected_database.
  intros [(t & db & -> & Hdb)|(-> & t & db & -> & Hdb)]; by exists db.
Qed.

Lemma publish_sns_run central region w (record : dict) a h :
  record !! "AccountID" = Some a →
  Automation.publish_sns central region w record h
  = (h ++ [publication central region record a],
     w h (publication central region record a)).
Proof.
  intros Ha. unfold Automation.publish_sns. rewrite (item_Some _ _ _ Ha). by mstep.
Qed.

Lemma process_perm_record_step central region w (r : dict) h :
  answers w → dispatchable r →
  ∃ h', Automation.process_perm_record central region w r h = (h', inr ())
        ∧ dispatch_step central region w h r h'.
Proof.
  intros Hw ([t Ht] & [access Haccess] & [a Ha] & Hdb).
  destruct (target_account_Some _ _ Ht) as (p & m & Hp & Hm & Hacc).
  unfold Automation.process_perm_record.
  rewrite (item_Some _ _ _ Hp), (item_Some _ _ _ Haccess). unfold regex_match.
  mstep. rewrite Hm.
  assert (is_grant r = Py.is_str "grant" access) as Hgrant
    by (unfold is_grant; by rewrite Haccess).
  destruct (Py.is_str "grant" access).
  - rewrite Hacc. destruct (String.eqb_spec t central) as [->|Hne]; cbn [negb].
    + rewrite (publish_sns_run _ _ _ _ _ _ Ha).
      destruct (Hw h (publication central region r a)) as [resp ->].
      eexists. split; [done|]. apply dispatch_plain; auto.
    + destruct (names_database_selected r Hdb) as [db Hsel].
      rewrite (generate_db_perm_companion central r t db Ht Hsel).
      rewrite (publish_sns_run _ _ _ (companion central t db) (JStr central) _ eq_refl).
      destruct (w h (publication central region (companion central t db) (JStr central)))
        as [e|resp] eqn:Hresp.
      { destruct (Hw h (publication central region (companion central t db)
                          (JStr central))). congruence. }
      destruct (Z.eqb_spec (HTTPStatusCode resp) 200) as [Hok|Hnok].
      * unfold sleep. rewrite (publish_sns_run _ _ _ _ _ _ Ha).
        destruct (Hw ((h ++ [publication central region (companion central t db)
                               (JStr central)])
                        ++ [Time_sleep 3])
                    (publication central region r a)) as [resp' ->].
        eexists. split; [done|]. rewrite <- !app_assoc.
        by eapply dispatch_acknowledged.
      * rewrite (publish_sns_run _ _ _ _ _ _ Ha).
        destruct (Hw (h ++ [publication central region (companion central t db)
                              (JStr central)])
                    (publication central region r a)) as [resp' ->].
        eexists. split; [done|]. rewrite <- !app_assoc.
        by eapply dispatch_unacknowledged.
  - rewrite (publish_sns_run _ _ _ _ _ _ Ha).
    destruct (Hw h (publication central region r a)) as [resp ->].
    eexists. split; [done|]. apply dispatch_plain; auto.
Qed.

Lemma dispatch_steps_app central region w h rs h1 rs' h2 :
  dispatch_steps central region w h rs h1 →
  dispatch_steps central region w h1 rs' h2 →
  dispatch_steps central region w h (rs ++ rs') h2.
Proof.
  induction 1 as [|h r h1 rs h1' Hstep _ IH]; intros Hrest; [done|].
  cbn [app]. eapply dispatch_next; [done|]. by apply IH.
Qed.

Lemma for_each_perm_record_steps central region w records h :
  answers w → Forall dispatchable records →
  ∃ h', for_each (Automation.process_perm_record central region w) records h
          = (h', inr ())
        ∧ dispatch_steps central region w h records h'.
Proof.
  intros Hw Hall. revert h.
  induction Hall as [|r records Hr _ IH]; intros h; cbn [for_each].
  - exists h. split; [done|]. constructor.
  - destruct (process_perm_record_step central region w r h Hw Hr) as (h1 & Hrun & Hstep).
    destruct (IH h1) as (h2 & Hrun' & Hsteps).
    exists h2. mstep. rewrite Hrun. split; [done|]. by eapply dispatch_next.
Qed.

(** C6 (counterexample). A grant of the shape the specification gives a
    record, with a principal in account 222222222222 and no [AccountID]
    field, dispatched from the central account 111111111111 with every
    publication acknowledged: the DB-describe intent is published and the
    pause made, then the dispatcher ends with KeyError on [AccountID]; the
    record itself is not published. *)
Lemma C6_record_without_AccountID_is_not_published :
  delete "AccountID" cross_account_grant
  = {[ "Principal" := JStr consumer_arn;
       "Table" := JObj {[ "DatabaseName" := JStr "sales"; "Name" := JStr "orders" ]};
       "Permissions" := Py.str_list ["SELECT"];
       "AccessType" := JStr "grant" ]}
  ∧ run (Automation.lambda_handler "111111111111" "eu-west-1" all_ok
           [[delete "AccountID" cross_account_grant]])
    = ([ publication "111111111111" "eu-west-1"
           (companion "111111111111" "222222222222" (JStr "sales"))
           (JStr "111111111111");
         Time_sleep 3 ],
       inl (KeyError "AccountID"))
  ∧ ¬ (∃ a, publication "111111111111" "eu-west-1"
              (delete "AccountID" cross_account_grant) a
            ∈ calls_of (Automation.lambda_handler "111111111111" "eu-west-1" all_ok
                          [[delete "AccountID" cross_account_grant]])).
Proof.
  assert (run (Automation.lambda_handler "111111111111" "eu-west-1" all_ok
                 [[delete "AccountID" cross_account_grant]])
    = ([ publication "111111111111" "eu-west-1"
           (companion "111111111111" "222222222222" (JStr "sales"))
           (JStr "111111111111");
         Time_sleep 3 ],
       inl (KeyError "AccountID"))) as Hrun by (vm_compute; reflexivity).
  split; [reflexivity|]. split; [exact Hrun|].
  unfold calls_of. rewrite Hrun. cbn [fst].
  intros [a Ha]. apply elem_of_cons in Ha as [Ha|Ha].
  - apply (f_equal (λ c, match c with
                         | SNS_publish _ (JObj m) _ =>
                             match m !! "perms_to_set" with
                             | Some (JObj record) => record !! "AccountID"
                             | _ => None
                             end
                         | _ => None
                         end)) in Ha.
    vm_compute in Ha. discriminate Ha.
  - apply elem_of_cons in Ha as [Ha|Ha]; [discriminate Ha|].
    by apply elem_of_nil in Ha.
Qed.

(** C6. When every record of the batch has a principal that is an ARN, an
    access type, a selector naming its database and the [AccountID] field
    it is routed by, and the notification service answers, the central
    dispatcher returns normally and its calls are the dispatch of the
    records one after the other: for every grant whose principal is in
    another account than the central one, the DB-describe intent for that
    account and the database of the record is published first, then comes
    a pause of 3 seconds when that publication was acknowledged with HTTP
    200, then the original record; every other record, grant or revoke, is
    published alone; every record is published exactly once. *)
Theorem C6_dispatch_order central region (w : world) (manifests : list (list dict)) :
  answers w →
  Forall dispatchable (concat manifests) →
  ∃ h, run (Automation.lambda_handler central region w manifests) = (h, inr ())
       ∧ dispatch_steps central region w [] (concat manifests) h.
Proof.
  intros Hw. unfold run, Automation.lambda_handler. generalize (@nil call).
  induction manifests as [|records manifests IH]; intros h Hall; cbn [for_each concat].
  - exists h. split; [done|]. constructor.
  - cbn [concat] in Hall. apply Forall_app in Hall as [Hrecords Hall].
    destruct (for_each_perm_record_steps central region w records h Hw Hrecords)
      as (h1 & Hrun & Hsteps).
    destruct (IH h1 Hall) as (h2 & Hrun' & Hsteps').
    exists h2. mstep. rewrite Hrun. split; [done|]. by eapply dispatch_steps_app.
Qed.

Lemma C6_dispatch_order_witness :
  ∃ h, run (Automation.lambda_handler "111111111111" "eu-west-1" all_ok
              [[cross_account_grant; revoke_record]]) = (h, inr ())
       ∧ dispatch_steps "111111111111" "eu-west-1" all_ok []
           [cross_account_grant; revoke_record] h.
Proof.
  apply (C6_dispatch_order "111111111111" "eu-west-1" all_ok
           [[cross_account_grant; revoke_record]] all_ok_answers).
  cbn [concat app].
  apply Forall_cons_2; [|apply Forall_cons_2; [|apply Forall_nil_2]].
  - split; [by eexists|]. split; [by eexists|]. split; [by eexists|].
    left. by eexists _, _.
  - split; [by eexists|]. split; [by eexists|]. split; [by eexists|].
    left. by eexists _, _.
Defined.

(** ** The shape of the runs of the two account handlers *)

Ltac leaf_without_call :=
  exists []; split; [by rewrite app_nil_r|]; split; [constructor|];
  intros ? ?; discriminate.

Ltac leaf_with_describe :=
  eexists [_]; split; [reflexivity|]; split; [by repeat constructor|];
  intros ? ?;
  first [discriminate | simplify_eq; split; [reflexivity|apply truthy_insert]].

Lemma central_build_table_normalizes ACCOUNT_ID w pj table :
  normalizes (λ d : dict, Py.truthy_dict d = true)
             (Central.build_table ACCOUNT_ID w pj table).
Proof.
  intros h. unfold Central.build_table, Central.grant_db_describe. mstep.
  repeat case_match; simplify_eq; cbn [fst snd];
    first [leaf_without_call | leaf_with_describe].
Qed.

Lemma central_build_tableWithColumns_normalizes ACCOUNT_ID w pj twc :
  normalizes (λ d : dict, Py.truthy_dict d = true)
             (Central.build_tableWithColumns ACCOUNT_ID w pj twc).
Proof.
  intros h. unfold Central.build_tableWithColumns, Central.grant_db_describe. mstep.
  repeat case_match; simplify_eq; cbn [fst snd];
    first [leaf_without_call | leaf_with_describe].
Qed.

(** [buildjson] on the central path, for any record. *)
Lemma central_buildjson_normalizes ACCOUNT_ID w (event : dict) :
  normalizes (λ b, selector_present b
                   ∧ perm_grant_json b = central_grant_option event)
             (Central.buildjson ACCOUNT_ID w event).
Proof.
  intros h. unfold Central.buildjson. mstep.
  destruct (event !! "Principal") as [p|]; [|leaf_without_call].
  destruct (event !! "Table") as [table|].
  - destruct (central_build_table_normalizes ACCOUNT_ID w
                (<["DataLakePrincipalIdentifier" := p]> ∅) table h)
      as (t & Ht & Hquiet & Hok).
    destruct (Central.build_table _ _ _ _ h) as [h' [e|tj]];
      cbn [fst snd] in *; subst h'.
    + exists t. split; [done|]. split; [done|]. intros ? ?; discriminate.
    + destruct (Hok tj eq_refl) as [Hcount Htj].
      exists t. split; [by destruct (build_perm_json _ event)|]. split; [done|].
      intros b Hb. destruct (build_perm_json _ event) as [e|perm]; [discriminate Hb|].
      cbn [snd] in Hb.
      injection Hb as <-. split; [done|]. split; [by left|done].
  - destruct (event !! "TableWithColumns") as [twc|]; [|leaf_without_call].
    destruct (central_build_tableWithColumns_normalizes ACCOUNT_ID w
                (<["DataLakePrincipalIdentifier" := p]> ∅) twc h)
      as (t & Ht & Hquiet & Hok).
    destruct (Central.build_tableWithColumns _ _ _ _ h) as [h' [e|twcj]];
      cbn [fst snd] in *; subst h'.
    + exists t. split; [done|]. split; [done|]. intros ? ?; discriminate.
    + destruct (Hok twcj eq_refl) as [Hcount Htwcj].
      exists t. split; [by destruct (build_perm_json _ event)|]. split; [done|].
      intros b Hb. destruct (build_perm_json _ event) as [e|perm]; [discriminate Hb|].
      cbn [snd] in Hb.
      injection Hb as <-. split; [done|]. split; [by right|done].
Qed.

(** Composition of the shape: pure steps before, pure steps after. *)
Lemma normalizes_raise {A} (Q : A → Prop) e : normalizes Q (raise e).
Proof. intros h. leaf_without_call. Qed.

Lemma normalizes_lift_bind {A B} (Q : B → Prop) (r : result A) (k : A → M B) :
  (∀ a, normalizes Q (k a)) → normalizes Q (lift r ≫= k).
Proof.
  intros Hk h. mstep. destruct r as [e|a]; [leaf_without_call|apply Hk].
Qed.

Lemma normalizes_bind_pure {A B} (Q1 : A → Prop) (Q : B → Prop) (m : M A)
    (k : A → M B) :
  normalizes Q1 m →
  (∀ a h, Q1 a → fst (k a h) = h ∧ ∀ b, snd (k a h) = inr b → Q b) →
  normalizes Q (m ≫= k).
Proof.
  intros Hm Hk h. destruct (Hm h) as (t & Ht & Hquiet & Hok). mstep.
  destruct (m h) as [h' [e|a]]; cbn [fst snd] in *; subst h'.
  - exists t. split; [done|]. split; [done|]. intros ? ?; discriminate.
  - destruct (Hok a eq_refl) as [Hcount HQ1].
    destruct (Hk a (h ++ t) HQ1) as [Hfst Hsnd].
    exists t. split; [done|]. split; [done|]. intros b Hb. split; [done|].
    by apply Hsnd.
Qed.

Lemma consumption_grant_db_describe_normalizes acc_id f_acc_id w pj d :
  normalizes (λ _, True) (Consumption.grant_db_describe acc_id f_acc_id w pj d).
Proof.
  intros h. rewrite consumption_grant_db_describe_run. unfold reconcile_and_describe.
  destruct (w h _) as [e|r].
  - destruct e;
      try (eexists [_]; split; [reflexivity|]; split; [by repeat constructor|];
           intros ? ?; discriminate).
    destruct (w _ (Glue_create_database _)) as [e|r].
    + eexists [_; _]. split; [reflexivity|]. split; [by repeat constructor|].
      intros ? ?; discriminate.
    + eexists [_; _; _]. split; [reflexivity|]. split; [by repeat constructor|].
      by intros ? ?.
  - eexists [_; _]. split; [reflexivity|]. split; [by repeat constructor|].
    by intros ? ?.
Qed.

Lemma consumption_build_table_normalizes acc_id f_acc_id w pj table :
  normalizes (λ d : dict, Py.truthy_dict d = true)
             (Consumption.build_table acc_id f_acc_id w pj table).
Proof.
  unfold Consumption.build_table.
  apply normalizes_lift_bind. intros has_db.
  destruct has_db; cbn [negb]; [|apply normalizes_raise].
  apply normalizes_lift_bind. intros db.
  apply normalizes_lift_bind. intros name.
  eapply normalizes_bind_pure; [apply consumption_grant_db_describe_normalizes|].
  intros _ h _. mstep.
  repeat case_match; simplify_eq; cbn [fst snd]; (split; [done|]);
    intros tj Htj; simplify_eq; apply truthy_insert.
Qed.

Lemma consumption_build_tableWithColumns_normalizes acc_id f_acc_id w pj twc :
  normalizes (λ d : dict, Py.truthy_dict d = true)
             (Consumption.build_tableWithColumns acc_id f_acc_id w pj twc).
Proof.
  unfold Consumption.build_tableWithColumns.
  apply normalizes_lift_bind. intros has_db.
  destruct has_db; cbn [negb]; [|apply normalizes_raise].
  apply normalizes_lift_bind. intros db.
  apply normalizes_lift_bind. intros name.
  eapply normalizes_bind_pure; [apply consumption_grant_db_describe_normalizes|].
  intros _ h _. mstep.
  repeat case_match; simplify_eq; cbn [fst snd]; (split; [done|]);
    intros tj Htj; simplify_eq; apply truthy_insert.
Qed.

(** [buildjson] on the consumption path, for any record. *)
Lemma consumption_buildjson_normalizes acc_id f_acc_id w (event : dict) :
  normalizes (λ b, selector_present b ∧ perm_grant_json b = ∅)
             (Consumption.buildjson acc_id f_acc_id w event).
Proof.
  unfold Consumption.buildjson.
  destruct (event !! "Principal") as [p|].
  2: { intros h. mstep. leaf_without_call. }
  change (mret (<["DataLakePrincipalIdentifier" := p]> (∅ : dict)))
    with (lift (inr (<["DataLakePrincipalIdentifier" := p]> (∅ : dict)) : result dict)).
  apply normalizes_lift_bind. intros pj.
  destruct (event !! "Table") as [table|].
  - apply (normalizes_bind_pure (λ s : dict * dict, Py.truthy_dict s.1 = true)).
    + eapply normalizes_bind_pure; [apply consumption_build_table_normalizes|].
      intros tj h Htj. cbn [mret M_ret ret fst snd]. split; [done|].
      intros [tj' twcj'] Hb. injection Hb as <- <-. exact Htj.
    + intros [tj twcj] h Htj. cbn [fst] in Htj. mstep.
      destruct (build_perm_json _ event); cbn [fst snd]; (split; [done|]);
        intros b Hb; simplify_eq.
      split; [by left|done].
  - destruct (event !! "TableWithColumns") as [twc|].
    2: { intros h. mstep. leaf_without_call. }
    apply (normalizes_bind_pure (λ s : dict * dict, Py.truthy_dict s.2 = true)).
    + eapply normalizes_bind_pure; [apply consumption_build_tableWithColumns_normalizes|].
      intros twcj h Htwcj. cbn [mret M_ret ret fst snd]. split; [done|].
      intros [tj' twcj'] Hb. injection Hb as <- <-. exact Htwcj.
    + intros [tj twcj] h Htwcj. cbn [snd] in Htwcj. mstep.
      destruct (build_perm_json _ event); cbn [fst snd]; (split; [done|]);
        intros b Hb; simplify_eq.
      split; [by right|done].
Qed.

(** The loop over the records: quiet calls, one DB-level grant per record
    when it ends normally, and the variables bound by the last iteration. *)
Lemma central_for_records_shape ACCOUNT_ID w records vars h :
  ∃ t, fst (Central.for_records ACCOUNT_ID w records vars h) = h ++ t
       ∧ Forall quiet t
       ∧ ∀ v, snd (Central.for_records ACCOUNT_ID w records vars h) = inr v →
              length (List.filter db_describe t) = length records
              ∧ match last records with
                | None => v = vars
                | Some l =>
                    ∃ h0 b, v = Some (l, b)
                            ∧ Central.buildjson ACCOUNT_ID w l h0 = (h ++ t, inr b)
                            ∧ selector_present b
                            ∧ perm_grant_json b = central_grant_option l
                end.
Proof.
  revert vars h. induction records as [|event records IH]; intros vars h.
  - exists []. cbn. rewrite app_nil_r. split; [done|]. split; [constructor|].
    by intros v [= <-].
  - cbn [Central.for_records]. mstep.
    destruct (central_buildjson_normalizes ACCOUNT_ID w event h)
      as (t1 & Ht1 & Hquiet1 & Hok1).
    destruct (Central.buildjson ACCOUNT_ID w event h) as [h1 [e|b]] eqn:Hbuild;
      cbn [fst snd] in *; subst h1.
    + exists t1. split; [done|]. split; [done|]. intros ? ?; discriminate.
    + destruct (Hok1 b eq_refl) as (Hcount1 & Hsel & Hopt).
      destruct records as [|event' records].
      * exists t1. cbn. split; [done|]. split; [done|].
        intros v [= <-]. split; [done|]. by exists h, b.
      * destruct (IH (Some (event, b)) (h ++ t1)) as (t2 & Ht2 & Hquiet2 & Hok2).
        exists (t1 ++ t2). rewrite app_assoc. split; [done|].
        split; [by apply Forall_app|].
        intros v Hv. destruct (Hok2 v Hv) as [Hcount2 Hlast].
        rewrite List.filter_app, length_app, Hcount1, Hcount2.
        split; [done|].
        change (last (event :: event' :: records)) with (last (event' :: records)).
        destruct (last (event' :: records)) eqn:Hl; [exact Hlast|].
        by apply last_None in Hl.
Qed.

Lemma consumption_for_records_shape acc_id f_acc_id w records vars h :
  ∃ t, fst (Consumption.for_records acc_id f_acc_id w records vars h) = h ++ t
       ∧ Forall quiet t
       ∧ ∀ v, snd (Consumption.for_records acc_id f_acc_id w records vars h) = inr v →
              length (List.filter db_describe t) = length records
              ∧ match last records with
                | None => v = vars
                | Some l =>
                    ∃ h0 b, v = Some (l, b)
                            ∧ Consumption.buildjson acc_id f_acc_id w l h0
                              = (h ++ t, inr b)
                            ∧ selector_present b
                            ∧ perm_grant_json b = ∅
                end.
Proof.
  revert vars h. induction records as [|event records IH]; intros vars h.
  - exists []. cbn. rewrite app_nil_r. split; [done|]. split; [constructor|].
    by intros v [= <-].
  - cbn [Consumption.for_records]. mstep.
    destruct (consumption_buildjson_normalizes acc_id f_acc_id w event h)
      as (t1 & Ht1 & Hquiet1 & Hok1).
    destruct (Consumption.buildjson acc_id f_acc_id w event h) as [h1 [e|b]] eqn:Hbuild;
      cbn [fst snd] in *; subst h1.
    + exists t1. split; [done|]. split; [done|]. intros ? ?; discriminate.
    + destruct (Hok1 b eq_refl) as (Hcount1 & Hsel & Hopt).
      destruct records as [|event' records].
      * exists t1. cbn. split; [done|]. split; [done|].
        intros v [= <-]. split; [done|]. by exists h, b.
      * destruct (IH (Some (event, b)) (h ++ t1)) as (t2 & Ht2 & Hquiet2 & Hok2).
        exists (t1 ++ t2). rewrite app_assoc. split; [done|].
        split; [by apply Forall_app|].
        intros v Hv. destruct (Hok2 v Hv) as [Hcount2 Hlast].
        rewrite List.filter_app, length_app, Hcount1, Hcount2.
        split; [done|].
        change (last (event :: event' :: records)) with (last (event' :: records)).
        destruct (last (event' :: records)) eqn:Hl; [exact Hlast|].
        by apply last_None in Hl.
Qed.

Lemma fine_grained_resource (b : built) :
  selector_present b →
  has_key "Table" (build_resource (table_json b) (tableWithColumns_json b))
  || has_key "TableWithColumns" (build_resource (table_json b) (tableWithColumns_json b))
  = true.
Proof.
  unfold build_resource. intros [Ht|Htwc].
  - rewrite Ht. by rewrite (has_key_Some "Table" _ (JObj (table_json b)))
      by apply lookup_singleton_eq.
  - destruct (Py.truthy_dict (table_json b)).
    + by rewrite (has_key_Some "Table" _ (JObj (table_json b)))
        by apply lookup_singleton_eq.
    + rewrite Htwc.
      rewrite (has_key_Some "TableWithColumns" _ (JObj (tableWithColumns_json b)))
        by apply lookup_singleton_eq.
      apply orb_true_r.
Qed.

Lemma central_handler_shape ACCOUNT_ID w batch :
  handler_shape (Central.buildjson ACCOUNT_ID w) central_option batch
    (calls_of (Central.lambda_handler ACCOUNT_ID w batch))
    (outcome (Central.lambda_handler ACCOUNT_ID w batch)).
Proof.
  unfold calls_of, outcome, run, Central.lambda_handler. mstep.
  destruct (central_for_records_shape ACCOUNT_ID w batch None [])
    as (t & Ht & Hquiet & Hok).
  destruct (Central.for_records ACCOUNT_ID w batch None []) as [h1 [e|v]];
    cbn [fst snd app] in *; subst h1; [left; eauto|].
  destruct (Hok v eq_refl) as [Hcount Hlast].
  destruct (last batch) as [l|] eqn:Hl; [|subst v; left; eauto].
  destruct Hlast as (h0 & b & -> & Hbuild & Hsel & Hopt).
  destruct (access_type_lower l) as [e|access]; [left; eauto|].
  assert (fine_grained_call :
            ∀ c, resource_of c
                 = build_resource (table_json b) (tableWithColumns_json b) →
                 fine_grained c = true).
  { intros c Hc. unfold fine_grained. rewrite Hc. by apply fine_grained_resource. }
  destruct (String.eqb access "grant").
  - unfold Central.grant_lf_permissions. mstep.
    rewrite Hopt. unfold central_grant_option.
    destruct (has_key "PermissionsWithGrantOption" l) eqn:Hkey.
    + rewrite truthy_singleton, (item_Some _ _ _ (lookup_singleton_eq _ _)).
      destruct (item (perm_json b) "Permissions") as [e|perms] eqn:Hperms;
        [left; eauto|].
      right. exists l. split; [done|]. eexists t, _, h0, b.
      split; [by destruct (w t _)|]. split; [done|]. split; [done|].
      split; [done|]. split; [by apply fine_grained_call|].
      exists perms. split; [by apply item_inr|]. left.
      unfold grant_call, central_option. by rewrite Hkey.
    + rewrite truthy_empty.
      destruct (item (perm_json b) "Permissions") as [e|perms] eqn:Hperms;
        [left; eauto|].
      right. exists l. split; [done|]. eexists t, _, h0, b.
      split; [by destruct (w t _)|]. split; [done|]. split; [done|].
      split; [done|]. split; [by apply fine_grained_call|].
      exists perms. split; [by apply item_inr|]. left.
      unfold grant_call, central_option. by rewrite Hkey.
  - destruct (String.eqb access "revoke"); [|left; eauto].
    unfold Central.revoke_lf_permissions. mstep.
    destruct (item (perm_json b) "Permissions") as [e|perms] eqn:Hperms;
      [left; eauto|].
    right. exists l. split; [done|]. eexists t, _, h0, b.
    split; [by destruct (w t _)|]. split; [done|]. split; [done|].
    split; [done|]. split; [by apply fine_grained_call|].
    exists perms. split; [by apply item_inr|]. by right.
Qed.

Lemma consumption_handler_shape acc_id f_acc_id w batch :
  handler_shape (Consumption.buildjson acc_id f_acc_id w) (λ _, None) batch
    (calls_of (Consumption.lambda_handler acc_id f_acc_id w batch))
    (outcome (Consumption.lambda_handler acc_id f_acc_id w batch)).
Proof.
  unfold calls_of, outcome, run, Consumption.lambda_handler. mstep.
  destruct (consumption_for_records_shape acc_id f_acc_id w batch None [])
    as (t & Ht & Hquiet & Hok).
  destruct (Consumption.for_records acc_id f_acc_id w batch None []) as [h1 [e|v]];
    cbn [fst snd app] in *; subst h1; [left; eauto|].
  destruct (Hok v eq_refl) as [Hcount Hlast].
  destruct (last batch) as [l|] eqn:Hl; [|subst v; left; eauto].
  destruct Hlast as (h0 & b & -> & Hbuild & Hsel & Hopt).
  destruct (access_type_lower l) as [e|access]; [left; eauto|].
  assert (fine_grained_call :
            ∀ c, resource_of c
                 = build_resource (table_json b) (tableWithColumns_json b) →
                 fine_grained c = true).
  { intros c Hc. unfold fine_grained. rewrite Hc. by apply fine_grained_resource. }
  destruct (String.eqb access "grant").
  - unfold Consumption.grant_lf_permissions. mstep.
    destruct (item (perm_json b) "Permissions") as [e|perms] eqn:Hperms;
      [left; eauto|].
    right. exists l. split; [done|]. eexists t, _, h0, b.
    split; [by destruct (w t _)|]. split; [done|]. split; [done|].
    split; [done|]. split; [by apply fine_grained_call|].
    exists perms. split; [by apply item_inr|]. by left.
  - destruct (String.eqb access "revoke"); [|left; eauto].
    unfold Consumption.revoke_lf_permissions. mstep.
    destruct (item (perm_json b) "Permissions") as [e|perms] eqn:Hperms;
      [left; eauto|].
    right. exists l. split; [done|]. eexists t, _, h0, b.
    split; [by destruct (w t _)|]. split; [done|]. split; [done|].
    split; [done|]. split; [by apply fine_grained_call|].
    exists perms. split; [by apply item_inr|]. by right.
Qed.




(** ** C8: grantable permissions *)



(** ** C9: only the last record of a batch is applied *)




(** A batch of two grants on the central path: two DB-level grants, and the
    one fine-grained grant, on the table of the second record. *)
Example two_record_batch_run :
  run (Central.lambda_handler "111111111111" all_ok [first_of_two; second_of_two])
  = ([ central_describe consumer_principal "sales";
       central_describe consumer_principal "hr";
       LF_grant_permissions consumer_principal
         (JObj {[ "Table" := JObj {[ "DatabaseName" := JStr "hr";
                                     "CatalogId" := JStr "111111111111";
                                     "Name" := JStr "staff" ]} ]})
         (Py.str_list ["SELECT"; "DESCRIBE"])
         (Some (Py.str_list ["SELECT"; "DESCRIBE"])) ],
     inr ()).
Proof. vm_compute. reflexivity. Qed.


(** * Further properties of the code *)

(** ** The ARN pattern *)

Lemma field_spec s f r :
  Arn.field s = Some (f, r) → s = f +:+ String ":" r ∧ field_chars f = true.
Proof.
  revert f r. induction s as [|c s IH]; intros f r H; [discriminate H|].
  cbn [Arn.field] in H. destruct (Ascii.eqb_spec c ":") as [->|Hcolon].
  - by injection H as <- <-.
  - destruct (Ascii.eqb c Arn.newline) eqn:Hnl; [discriminate H|].
    destruct (Arn.field s) as [[f' r']|]; [|discriminate H].
    cbn in H. injection H as <- <-.
    destruct (IH f' r' eq_refl) as [-> Hf]. split; [done|].
    cbn [field_chars]. rewrite Hnl, Hf.
    by destruct (Ascii.eqb_spec c ":").
Qed.

Lemma field_complete f r :
  field_chars f = true → Arn.field (f +:+ String ":" r) = Some (f, r).
Proof.
  induction f as [|c f IH]; intros Hf; [done|].
  cbn [field_chars] in Hf. apply andb_true_iff in Hf as [Hc Hf].
  apply andb_true_iff in Hc as [Hcolon Hnl].
  rewrite append_cons. cbn [Arn.field].
  destruct (Ascii.eqb c ":"); [discriminate Hcolon|].
  destruct (Ascii.eqb c Arn.newline); [discriminate Hnl|].
  by rewrite (IH Hf).
Qed.

Lemma resource_eol_spec s res :
  Arn.resource_eol s = Some res →
  (s = res ∨ s = res +:+ String Arn.newline EmptyString) ∧ line_chars res = true.
Proof.
  revert res. induction s as [|c s IH]; intros res H.
  - injection H as <-. by split; [left|].
  - cbn [Arn.resource_eol] in H. destruct (Ascii.eqb_spec c Arn.newline) as [->|Hnl].
    + destruct s; [|discriminate H]. injection H as <-. by split; [right|].
    + destruct (Arn.resource_eol s) as [res'|]; [|discriminate H].
      cbn in H. injection H as <-.
      destruct (IH res' eq_refl) as [Hs Hres]. split.
      * destruct Hs as [->| ->]; [by left|by right].
      * cbn [line_chars]. rewrite Hres. by destruct (Ascii.eqb_spec c Arn.newline).
Qed.

Lemma resource_eol_complete s : line_chars s = true → Arn.resource_eol s = Some s.
Proof.
  induction s as [|c s IH]; intros Hs; [done|].
  cbn [line_chars] in Hs. apply andb_true_iff in Hs as [Hnl Hs].
  cbn [Arn.resource_eol]. destruct (Ascii.eqb c Arn.newline); [discriminate Hnl|].
  by rewrite (IH Hs).
Qed.

Lemma line_chars_append s t :
  line_chars (s +:+ t) = line_chars s && line_chars t.
Proof.
  induction s as [|c s IH]; [done|].
  rewrite append_cons. cbn [line_chars]. rewrite IH. by rewrite andb_assoc.
Qed.

Lemma resource_type_spec s t r :
  Arn.resource_type s = (t, r) → s = t +:+ r ∧ line_chars t = true.
Proof.
  revert t r. induction s as [|c s IH]; intros t r H.
  - by injection H as <- <-.
  - cbn [Arn.resource_type] in H.
    destruct (Ascii.eqb c ":" || Ascii.eqb c "/" || Ascii.eqb c Arn.newline) eqn:Hc.
    + by injection H as <- <-.
    + destruct (Arn.resource_type s) as [t' r']. injection H as <- <-.
      destruct (IH t' r' eq_refl) as [-> Ht]. split; [done|].
      cbn [line_chars]. rewrite Ht.
      apply orb_false_iff in Hc as [_ ->]. done.
Qed.

Lemma colon_append x : ":" +:+ x = String ":" x.
Proof. reflexivity. Qed.

Lemma append_assoc a b c : (a +:+ b) +:+ c = a +:+ (b +:+ c).
Proof. induction a as [|x a IH]; [done|]. rewrite !append_cons. by f_equal. Qed.

(** X1. The pattern matches every text made of [arn:], four fields without
    colon and newline, each closed by a colon, and a rest without newline;
    the groups are the fields, the account id among them, and the rest is
    shared between the groups Ignore and Resource. *)
Theorem arn_match_of_text partition service region account rest :
  field_chars partition = true → field_chars service = true →
  field_chars region = true → field_chars account = true →
  line_chars rest = true →
  ∃ m, Arn.arn_match (arn_text partition service region account rest) = Some m
       ∧ Arn.Partition m = partition ∧ Arn.Service m = service
       ∧ Arn.Region m = region ∧ Arn.AccountID m = account
       ∧ arn_rest m = rest.
Proof.
  intros Hp Hs Hr Ha Hrest. unfold arn_text.
  change ("arn:" +:+ ?x) with (String "a" (String "r" (String "n" (String ":" x)))).
  unfold Arn.arn_match. rewrite !colon_append.
  rewrite (field_complete _ _ Hp). cbn [mbind option_bind].
  rewrite (field_complete _ _ Hs). cbn [mbind option_bind].
  rewrite (field_complete _ _ Hr). cbn [mbind option_bind].
  rewrite (field_complete _ _ Ha). cbn [mbind option_bind].
  rewrite (resource_eol_complete _ Hrest). cbn [mbind option_bind].
  destruct (Arn.resource_type rest) as [t [|c s6]] eqn:Htype.
  - eexists. split; [done|]. by cbn.
  - destruct (Ascii.eqb c ":" || Ascii.eqb c "/").
    + destruct (resource_type_spec _ _ _ Htype) as [Hsplit _].
      assert (line_chars s6 = true) as Hs6.
      { rewrite Hsplit, line_chars_append in Hrest. cbn [line_chars] in Hrest.
        apply andb_true_iff in Hrest as [_ Hrest].
        by apply andb_true_iff in Hrest as [_ Hrest]. }
      rewrite (resource_eol_complete _ Hs6).
      eexists. split; [done|]. cbn. repeat (split; [done|]).
      unfold arn_rest. cbn. by rewrite append_snoc.
    + eexists. split; [done|]. by cbn.
Qed.

Lemma arn_match_of_text_witness :
  ∃ m, Arn.arn_match (arn_text "aws" "iam" "" "222222222222" "role/consumer") = Some m
       ∧ Arn.Partition m = "aws" ∧ Arn.Service m = "iam"
       ∧ Arn.Region m = "" ∧ Arn.AccountID m = "222222222222"
       ∧ arn_rest m = "role/consumer".
Proof.
  exact (arn_match_of_text "aws" "iam" "" "222222222222" "role/consumer"
           eq_refl eq_refl eq_refl eq_refl eq_refl).
Defined.

(** X2. A text the pattern matches is [arn:] and the groups put back
    together, with at most one newline after them; the four fields, the
    account id among them, hold no colon and no newline. *)
Theorem arn_match_text s m :
  Arn.arn_match s = Some m →
  (s = arn_text (Arn.Partition m) (Arn.Service m) (Arn.Region m) (Arn.AccountID m)
         (arn_rest m)
   ∨ s = arn_text (Arn.Partition m) (Arn.Service m) (Arn.Region m) (Arn.AccountID m)
           (arn_rest m +:+ String Arn.newline EmptyString))
  ∧ field_chars (Arn.Partition m) = true ∧ field_chars (Arn.Service m) = true
  ∧ field_chars (Arn.Region m) = true ∧ field_chars (Arn.AccountID m) = true
  ∧ line_chars (arn_rest m) = true.
Proof.
  unfold Arn.arn_match. intros H.
  destruct s as [|c1 s]; [discriminate H|].
  destruct c1 as [[] [] [] [] [] [] [] []]; try discriminate H.
  destruct s as [|c2 s]; [discriminate H|].
  destruct c2 as [[] [] [] [] [] [] [] []]; try discriminate H.
  destruct s as [|c3 s]; [discriminate H|].
  destruct c3 as [[] [] [] [] [] [] [] []]; try discriminate H.
  destruct s as [|c4 s1]; [discriminate H|].
  destruct c4 as [[] [] [] [] [] [] [] []]; try discriminate H.
  destruct (Arn.field s1) as [[partition s2]|] eqn:H1;
    cbn [mbind option_bind] in H; [|discriminate H].
  destruct (Arn.field s2) as [[service s3]|] eqn:H2;
    cbn [mbind option_bind] in H; [|discriminate H].
  destruct (Arn.field s3) as [[region s4]|] eqn:H3;
    cbn [mbind option_bind] in H; [|discriminate H].
  destruct (Arn.field s4) as [[account s5]|] eqn:H4;
    cbn [mbind option_bind] in H; [|discriminate H].
  destruct (field_spec _ _ _ H1) as [-> Hp].
  destruct (field_spec _ _ _ H2) as [-> Hs].
  destruct (field_spec _ _ _ H3) as [-> Hr].
  destruct (field_spec _ _ _ H4) as [-> Ha].
  assert (∀ m', (res ← Arn.resource_eol s5;
                 Some {| Arn.Partition := partition; Arn.Service := service;
                         Arn.Region := region; Arn.AccountID := account;
                         Arn.Ignore := None; Arn.ResourceType := None;
                         Arn.Resource := res |}) = Some m' →
          (s5 = arn_rest m' ∨ s5 = arn_rest m' +:+ String Arn.newline EmptyString)
          ∧ Arn.Partition m' = partition ∧ Arn.Service m' = service
          ∧ Arn.Region m' = region ∧ Arn.AccountID m' = account
          ∧ line_chars (arn_rest m') = true) as Hplain.
  { intros m' Hm'. destruct (Arn.resource_eol s5) as [res|] eqn:Hres; [|discriminate Hm'].
    cbn in Hm'. injection Hm' as <-. unfold arn_rest. cbn.
    destruct (resource_eol_spec _ _ Hres) as [Hs5 Hline]. done. }
  assert ((s5 = arn_rest m ∨ s5 = arn_rest m +:+ String Arn.newline EmptyString)
          ∧ Arn.Partition m = partition ∧ Arn.Service m = service
          ∧ Arn.Region m = region ∧ Arn.AccountID m = account
          ∧ line_chars (arn_rest m) = true) as (Hs5 & <- & <- & <- & <- & Hline).
  { destruct (Arn.resource_type s5) as [t [|c s6]] eqn:Htype; [by apply Hplain|].
    destruct (Ascii.eqb c ":" || Ascii.eqb c "/") eqn:Hc; [|by apply Hplain].
    destruct (Arn.resource_eol s6) as [res|] eqn:Hres; [|by apply Hplain].
    injection H as <-. unfold arn_rest. cbn.
    destruct (resource_type_spec _ _ _ Htype) as [-> Ht].
    destruct (resource_eol_spec _ _ Hres) as [Hs6 Hline].
    rewrite append_snoc. split; [|split; [done|split; [done|split; [done|split; [done|]]]]].
    - destruct Hs6 as [->| ->]; [by left|right]. by rewrite append_assoc.
    - rewrite line_chars_append. cbn [line_chars]. rewrite Ht, Hline.
      destruct (Ascii.eqb_spec c Arn.newline) as [->|]; [discriminate Hc|done]. }
  split; [|done]. unfold arn_text.
  change ("arn:" +:+ ?x) with (String "a" (String "r" (String "n" (String ":" x)))).
  rewrite !colon_append.
  destruct Hs5 as [->| ->]; [by left|by right].
Qed.

Lemma arn_match_text_witness :
  consumer_arn = arn_text "aws" "iam" "" "222222222222" "role/consumer"
  ∨ consumer_arn = arn_text "aws" "iam" "" "222222222222"
                     ("role/consumer" +:+ String Arn.newline EmptyString).
Proof.
  exact (proj1 (arn_match_text consumer_arn
                  {| Arn.Partition := "aws"; Arn.Service := "iam"; Arn.Region := "";
                     Arn.AccountID := "222222222222"; Arn.Ignore := Some "role/";
                     Arn.ResourceType := Some "role"; Arn.Resource := "consumer" |}
                  eq_refl)).
Defined.

(** ** The pieces of [split] and the routing prefix *)

Lemma prefix_nil_r sep : sep ≠ EmptyString → String.prefix sep EmptyString = false.
Proof. by destruct sep. Qed.

Lemma prefix_of_append sep b s :
  String.prefix sep b = true → String.prefix sep (b +:+ s) = true.
Proof.
  revert b. induction sep as [|x sep IH]; intros b H.
  - by destruct (b +:+ s).
  - destruct b as [|y b]; [discriminate H|]. rewrite append_cons.
    cbn [String.prefix] in *. destruct (ascii_dec x y); [by apply IH|done].
Qed.

(** A string none of whose non-empty suffixes starts with the separator. *)
Lemma str_in_false_of_suffixes sep cur :
  sep ≠ EmptyString →
  (∀ a b, cur = a +:+ b → b ≠ EmptyString → String.prefix sep b = false) →
  Py.str_in sep cur = false.
Proof.
  intros Hsep. induction cur as [|c cur IH]; intros Hsuffix.
  - cbn [Py.str_in]. by rewrite prefix_nil_r.
  - cbn [Py.str_in]. rewrite (Hsuffix EmptyString (String c cur)) by done.
    apply IH. intros a b -> Hb. by apply (Hsuffix (String c a) b).
Qed.

Lemma append_snoc_split cur c a b :
  cur +:+ String c EmptyString = a +:+ b → b ≠ EmptyString →
  ∃ b', b = b' +:+ String c EmptyString ∧ cur = a +:+ b'.
Proof.
  revert cur. induction a as [|x a IH]; intros cur H Hb.
  - by exists cur.
  - destruct cur as [|y cur].
    + rewrite append_cons in H. injection H as _ H.
      destruct a; [by destruct b|discriminate H].
    + rewrite !append_cons in H. injection H as -> H.
      destruct (IH cur H Hb) as (b' & -> & ->). by exists b'.
Qed.

(** The pieces of a split hold no occurrence of the separator. *)
Lemma split_go_pieces sep skip cur s :
  sep ≠ EmptyString →
  (skip = 0%nat →
   ∀ a b, cur = a +:+ b → b ≠ EmptyString → String.prefix sep (b +:+ s) = false) →
  (skip ≠ 0%nat → cur = EmptyString) →
  Forall (λ piece, Py.str_in sep piece = false) (Py.split_go sep skip cur s).
Proof.
  intros Hsep. revert skip cur. induction s as [|c s IH]; intros skip cur Hopen Hskip.
  - cbn [Py.split_go]. constructor; [|constructor].
    destruct skip as [|k].
    + apply str_in_false_of_suffixes; [done|]. intros a b Hcur Hb.
      rewrite <- (append_nil_r b). by eapply Hopen.
    + rewrite Hskip by done. cbn [Py.str_in]. by rewrite prefix_nil_r.
  - cbn [Py.split_go]. destruct skip as [|k].
    + destruct (String.prefix sep (String c s)) eqn:Hp.
      * constructor.
        -- apply str_in_false_of_suffixes; [done|]. intros a b Hcur Hb.
           destruct (String.prefix sep b) eqn:Hpb; [|done].
           rewrite <- (Hopen eq_refl a b Hcur Hb). symmetry.
           by apply prefix_of_append.
        -- apply IH; [|done]. intros _ a b Hab Hb. by destruct a, b.
      * apply IH; [|done]. intros _ a b Hab Hb.
        destruct (append_snoc_split _ _ _ _ Hab Hb) as (b' & -> & ->).
        rewrite append_snoc. destruct b' as [|y b']; [exact Hp|].
        by apply (Hopen eq_refl a (String y b')).
    + apply IH.
      * intros _ a b Hab Hb. rewrite Hskip in Hab by done. by destruct a, b.
      * intros _. by apply Hskip.
Qed.

Lemma split_pieces sep s :
  sep ≠ EmptyString → Forall (λ piece, Py.str_in sep piece = false) (Py.split sep s).
Proof.
  intros Hsep. apply split_go_pieces; [done| |done].
  intros _ a b Hab Hb. by destruct a, b.
Qed.

(** What is left of a database name is free of the prefix. *)
Lemma bare_name_prefix_free d : prefix_free (bare_name d).
Proof.
  unfold prefix_free, bare_name.
  destruct (Py.str_in "foundation_" d) eqn:Hin; [|done].
  destruct (Py.split "foundation_" d !! 1%nat) as [piece|] eqn:Hpiece; [|done].
  cbn [default].
  by apply (Forall_lookup_1 _ _ _ _ (split_pieces "foundation_" d ltac:(done)) Hpiece).
Qed.

Lemma strip_foundation_prefix_free x n :
  strip_foundation x = inr (JStr n) → prefix_free n.
Proof.
  destruct x as [| | |d| |]; try discriminate.
  - rewrite strip_foundation_str. intros [= <-]. apply bare_name_prefix_free.
  - unfold strip_foundation. cbn [Py.contains]. mstep.
    destruct (existsb _ l); discriminate.
  - unfold strip_foundation. cbn [Py.contains]. mstep.
    destruct (bool_decide _); discriminate.
Qed.

(** ** The routing prefix in the resource of the fine-grained call *)

Ltac database_leaf :=
  intros n Hn; rewrite ?lookup_insert_ne in Hn by done;
  rewrite lookup_insert_eq in Hn; simplify_eq;
  eauto using strip_foundation_prefix_free.

Lemma central_build_table_database ACCOUNT_ID w pj table h tj :
  snd (Central.build_table ACCOUNT_ID w pj table h) = inr tj →
  database_prefix_free tj.
Proof.
  unfold Central.build_table, Central.grant_db_describe. mstep.
  repeat case_match; simplify_eq; cbn [snd]; intros ?; simplify_eq; database_leaf.
Qed.

Lemma central_build_tableWithColumns_database ACCOUNT_ID w pj twc h twcj :
  snd (Central.build_tableWithColumns ACCOUNT_ID w pj twc h) = inr twcj →
  database_prefix_free twcj.
Proof.
  unfold Central.build_tableWithColumns, Central.grant_db_describe. mstep.
  repeat case_match; simplify_eq; cbn [snd]; intros ?; simplify_eq; database_leaf.
Qed.

Lemma consumption_build_table_database acc_id f_acc_id w pj table h tj :
  snd (Consumption.build_table acc_id f_acc_id w pj table h) = inr tj →
  database_prefix_free tj.
Proof.
  unfold Consumption.build_table. mstep.
  repeat case_match; simplify_eq; cbn [snd]; intros ?; simplify_eq; database_leaf.
Qed.

Lemma consumption_build_tableWithColumns_database acc_id f_acc_id w pj twc h twcj :
  snd (Consumption.build_tableWithColumns acc_id f_acc_id w pj twc h) = inr twcj →
  database_prefix_free twcj.
Proof.
  unfold Consumption.build_tableWithColumns. mstep.
  repeat case_match; simplify_eq; cbn [snd]; intros ?; simplify_eq; database_leaf.
Qed.

Lemma empty_database_prefix_free : database_prefix_free ∅.
Proof. intros n Hn. by rewrite lookup_empty in Hn. Qed.

Lemma central_buildjson_database ACCOUNT_ID w (event : dict) h b :
  snd (Central.buildjson ACCOUNT_ID w event h) = inr b →
  database_prefix_free (table_json b)
  ∧ database_prefix_free (tableWithColumns_json b).
Proof.
  unfold Central.buildjson. mstep.
  destruct (event !! "Principal") as [p|]; [|discriminate].
  destruct (event !! "Table") as [table|].
  - pose proof (central_build_table_database ACCOUNT_ID w
                  (<["DataLakePrincipalIdentifier" := p]> ∅) table h) as Htable.
    destruct (Central.build_table _ _ _ _ h) as [h' [e|tj]]; [discriminate|].
    destruct (build_perm_json _ event); [discriminate|].
    intros [= <-]. split; [by apply Htable|apply empty_database_prefix_free].
  - destruct (event !! "TableWithColumns") as [twc|]; [|discriminate].
    pose proof (central_build_tableWithColumns_database ACCOUNT_ID w
                  (<["DataLakePrincipalIdentifier" := p]> ∅) twc h) as Htwc.
    destruct (Central.build_tableWithColumns _ _ _ _ h) as [h' [e|twcj]]; [discriminate|].
    destruct (build_perm_json _ event); [discriminate|].
    intros [= <-]. split; [apply empty_database_prefix_free|by apply Htwc].
Qed.

Lemma consumption_buildjson_database acc_id f_acc_id w (event : dict) h b :
  snd (Consumption.buildjson acc_id f_acc_id w event h) = inr b →
  database_prefix_free (table_json b)
  ∧ database_prefix_free (tableWithColumns_json b).
Proof.
  unfold Consumption.buildjson. mstep.
  destruct (event !! "Principal") as [p|]; [|discriminate].
  destruct (event !! "Table") as [table|].
  - pose proof (consumption_build_table_database acc_id f_acc_id w
                  (<["DataLakePrincipalIdentifier" := p]> ∅) table h) as Htable.
    destruct (Consumption.build_table _ _ _ _ _ h) as [h' [e|tj]]; [discriminate|].
    destruct (build_perm_json _ event); [discriminate|].
    intros [= <-]. split; [by apply Htable|apply empty_database_prefix_free].
  - destruct (event !! "TableWithColumns") as [twc|]; [|discriminate].
    pose proof (consumption_build_tableWithColumns_database acc_id f_acc_id w
                  (<["DataLakePrincipalIdentifier" := p]> ∅) twc h) as Htwc.
    destruct (Consumption.build_tableWithColumns _ _ _ _ _ h) as [h' [e|twcj]];
      [discriminate|].
    destruct (build_perm_json _ event); [discriminate|].
    intros [= <-]. split; [apply empty_database_prefix_free|by apply Htwc].
Qed.

Lemma quiet_selector_database c : quiet c → selector_database c = None.
Proof.
  intros [Hfine _]. unfold fine_grained, has_key in Hfine.
  apply orb_false_iff in Hfine as [Ht Htwc].
  apply bool_decide_eq_false in Ht, Htwc.
  unfold selector_database.
  destruct (resource_of c !! "Table"); [by destruct Ht|].
  destruct (resource_of c !! "TableWithColumns"); [by destruct Htwc|done].
Qed.

Lemma build_resource_database (tj twcj : dict) n :
  database_prefix_free tj → database_prefix_free twcj →
  match build_resource tj twcj !! "Table",
        build_resource tj twcj !! "TableWithColumns" with
  | Some (JObj t), _ => t !! "DatabaseName"
  | None, Some (JObj t) => t !! "DatabaseName"
  | _, _ => None
  end = Some (JStr n) →
  prefix_free n.
Proof.
  intros Htj Htwcj. unfold build_resource.
  destruct (Py.truthy_dict tj).
  - rewrite lookup_singleton_eq. apply Htj.
  - destruct (Py.truthy_dict twcj).
    + rewrite lookup_singleton_ne by done. rewrite lookup_singleton_eq. apply Htwcj.
    + by rewrite !lookup_empty.
Qed.

Lemma handler_shape_database buildjson o batch calls r c n :
  (∀ l h h' b, buildjson l h = (h', inr b) →
               database_prefix_free (table_json b)
               ∧ database_prefix_free (tableWithColumns_json b)) →
  handler_shape buildjson o batch calls r →
  c ∈ calls → selector_database c = Some (JStr n) → prefix_free n.
Proof.
  intros Hbuild [[Hquiet _]|(l & _ & pre & final & h & b & -> & Hb & Hquiet & _ & _ & Happ)]
    Hc Hn.
  - rewrite Forall_forall in Hquiet.
    by rewrite (quiet_selector_database c (Hquiet c Hc)) in Hn.
  - apply elem_of_app in Hc as [Hc|Hc].
    + rewrite Forall_forall in Hquiet.
      by rewrite (quiet_selector_database c (Hquiet c Hc)) in Hn.
    + apply list_elem_of_singleton in Hc as ->.
      destruct (Hbuild l h pre b Hb) as [Htj Htwcj].
      destruct Happ as (perms & _ & [-> | ->]);
        by apply (build_resource_database _ _ n Htj Htwcj).
Qed.

(** X3. On both paths, whatever the batch and the answers of the services:
    in the resource of every call made, the [DatabaseName] of the [Table] or
    [TableWithColumns] selector, when it is a string, holds no occurrence of
    [foundation_]. *)
Theorem selector_database_prefix_free ACCOUNT_ID acc_id f_acc_id (w : world)
    (batch : list dict) (c : call) (n : string) :
  c ∈ calls_of (Central.lambda_handler ACCOUNT_ID w batch)
  ∨ c ∈ calls_of (Consumption.lambda_handler acc_id f_acc_id w batch) →
  selector_database c = Some (JStr n) →
  prefix_free n.
Proof.
  intros [Hc|Hc] Hn.
  - eapply (handler_shape_database _ _ _ _ _ c n); [|apply central_handler_shape|done..].
    intros l h h' b Hb. apply (central_buildjson_database ACCOUNT_ID w l h).
    by rewrite Hb.
  - eapply (handler_shape_database _ _ _ _ _ c n);
      [|apply consumption_handler_shape|done..].
    intros l h h' b Hb. apply (consumption_buildjson_database acc_id f_acc_id w l h).
    by rewrite Hb.
Qed.

Lemma selector_database_prefix_free_witness : prefix_free "sales".
Proof.
  apply (selector_database_prefix_free "111111111111" "222222222222" "999999999999"
           all_ok [scenario_A_named (JStr "orders")]
           (LF_grant_permissions consumer_principal
              (JObj {[ "Table" := JObj {[ "DatabaseName" := JStr "sales";
                                          "CatalogId" := JStr "111111111111";
                                          "Name" := JStr "orders" ]} ]})
              (Py.str_list ["SELECT"; "DESCRIBE"]) (Some (JArr [])))
           "sales").
  - left. vm_compute. right. left.
  - vm_compute. reflexivity.
Defined.

(** ** The dispatcher on records it does not validate, or cannot process *)

(** X4. A record that is no grant is published as it is: the dispatcher looks
    neither at what its principal parses to, nor at its selector, nor at its
    permissions. *)
Theorem dispatcher_publishes_other_records_unvalidated central region (w : world)
    (r : dict) (p : string) (access a : json) (h : list call) :
  r !! "Principal" = Some (JStr p) →
  r !! "AccessType" = Some access →
  Py.is_str "grant" access = false →
  r !! "AccountID" = Some a →
  Automation.process_perm_record central region w r h
  = (h ++ [publication central region r a],
     match w h (publication central region r a) with
     | inl e => inl e
     | inr _ => inr ()
     end).
Proof.
  intros Hp Haccess Hgrant Ha. unfold Automation.process_perm_record.
  rewrite (item_Some _ _ _ Hp), (item_Some _ _ _ Haccess). unfold regex_match.
  mstep. rewrite Hgrant. rewrite (publish_sns_run _ _ _ _ _ _ Ha).
  by destruct (w h _).
Qed.

Lemma dispatcher_publishes_other_records_unvalidated_witness :
  Automation.process_perm_record "111111111111" "eu-west-1" all_ok
    (<["Principal" := JStr "consumer"]> revoke_record) []
  = ([publication "111111111111" "eu-west-1"
        (<["Principal" := JStr "consumer"]> revoke_record) (JStr "222222222222")],
     inr ()).
Proof.
  exact (dispatcher_publishes_other_records_unvalidated "111111111111" "eu-west-1"
           all_ok (<["Principal" := JStr "consumer"]> revoke_record) "consumer"
           (JStr "revoke") (JStr "222222222222") [] eq_refl eq_refl eq_refl eq_refl).
Defined.

(** X5. A grant whose principal does not match the ARN pattern stops the
    dispatcher with TypeError before anything is published for it: the match
    object is subscripted before [generate_db_perm] is called. *)
Theorem dispatcher_grant_without_arn central region (w : world) (r : dict)
    (p : string) (h : list call) :
  r !! "Principal" = Some (JStr p) →
  Arn.arn_match p = None →
  r !! "AccessType" = Some (JStr "grant") →
  Automation.process_perm_record central region w r h = (h, inl TypeError).
Proof.
  intros Hp Hm Haccess. unfold Automation.process_perm_record.
  rewrite (item_Some _ _ _ Hp), (item_Some _ _ _ Haccess). unfold regex_match.
  mstep. by rewrite Hm.
Qed.

Lemma dispatcher_grant_without_arn_witness :
  Automation.process_perm_record "111111111111" "eu-west-1" all_ok
    bad_principal_record []
  = ([], inl TypeError).
Proof.
  exact (dispatcher_grant_without_arn "111111111111" "eu-west-1" all_ok
           bad_principal_record "consumer" [] eq_refl eq_refl eq_refl).
Defined.

(** X6. A grant for another account that has no [AccountID], when the
    publication of its DB-describe companion is answered: the companion is
    published, the pause of 3 seconds is made exactly when the answer is
    HTTP 200, then the publication of the record itself fails with KeyError
    before the notification service is called for it. *)
Theorem dispatcher_companion_without_original central region (w : world) (r : dict)
    (target : string) (db : json) (resp : response) (h : list call) :
  target_account r = Some target → target ≠ central →
  r !! "AccessType" = Some (JStr "grant") →
  selected_database r = Some db →
  r !! "AccountID" = None →
  w h (publication central region (companion central target db) (JStr central))
  = inr resp →
  Automation.process_perm_record central region w r h
  = (h ++ publication central region (companion central target db) (JStr central)
       :: (if (HTTPStatusCode resp =? 200)%Z then [Time_sleep 3] else []),
     inl (KeyError "AccountID")).
Proof.
  intros Ht Hne Haccess Hdb Ha Hresp.
  destruct (target_account_Some _ _ Ht) as (p & m & Hp & Hm & Hacc).
  unfold Automation.process_perm_record.
  rewrite (item_Some _ _ _ Hp), (item_Some _ _ _ Haccess). unfold regex_match.
  mstep. rewrite Hm. cbn [Py.is_str String.eqb Ascii.eqb Bool.eqb].
  rewrite Hacc. destruct (String.eqb_spec target central) as [?|_]; [done|].
  cbn [negb]. rewrite (generate_db_perm_companion central r target db Ht Hdb).
  rewrite (publish_sns_run _ _ _ (companion central target db) (JStr central) _ eq_refl).
  rewrite Hresp.
  assert (∀ h', Automation.publish_sns central region w r h'
                = (h', inl (KeyError "AccountID"))) as Hpub.
  { intros h'. unfold Automation.publish_sns, item, Py.getitem. rewrite Ha. by mstep. }
  destruct (HTTPStatusCode resp =? 200)%Z.
  - unfold sleep. rewrite Hpub. by rewrite <- app_assoc.
  - by rewrite Hpub.
Qed.

Lemma dispatcher_companion_without_original_witness :
  Automation.process_perm_record "111111111111" "eu-west-1" all_ok
    (delete "AccountID" cross_account_grant) []
  = ([] ++ publication "111111111111" "eu-west-1"
             (companion "111111111111" "222222222222" (JStr "sales"))
             (JStr "111111111111")
        :: (if (HTTPStatusCode {| HTTPStatusCode := 200 |} =? 200)%Z
            then [Time_sleep 3] else []),
     inl (KeyError "AccountID")).
Proof.
  apply (dispatcher_companion_without_original "111111111111" "eu-west-1" all_ok
           (delete "AccountID" cross_account_grant) "222222222222" (JStr "sales")
           {| HTTPStatusCode := 200 |} []).
  - reflexivity.
  - discriminate.
  - reflexivity.
  - reflexivity.
  - reflexivity.
  - reflexivity.
Defined.

Lemma for_each_stops {A} (body : A → M ()) before failing after h h1 h2 e :
  for_each body before h = (h1, inr ()) →
  body failing h1 = (h2, inl e) →
  for_each body (before ++ failing :: after) h = (h2, inl e).
Proof.
  revert h. induction before as [|x before IH]; intros h Hbefore Hfail.
  - injection Hbefore as <-. cbn [app for_each]. mstep. by rewrite Hfail.
  - cbn [app for_each] in *. revert Hbefore. mstep.
    destruct (body x h) as [h' [e'|[]]]; [discriminate|]. intros Hbefore.
    by apply IH.
Qed.

(** X7. A record that fails stops the batch: the records before it have been
    published, the records after it are not looked at, and the error of the
    record is the error of the dispatcher. *)
Theorem dispatcher_stops_at_first_failure central region (w : world)
    (before after : list dict) (failing : dict) (h h1 h2 : list call) (e : exn) :
  Automation.lambda_handler central region w [before] h = (h1, inr ()) →
  Automation.process_perm_record central region w failing h1 = (h2, inl e) →
  Automation.lambda_handler central region w [before ++ failing :: after] h
  = (h2, inl e).
Proof.
  unfold Automation.lambda_handler. cbn [for_each]. mstep.
  destruct (for_each _ before h) as [h' [e'|[]]] eqn:Hbefore; [discriminate|].
  intros [= ->] Hfail.
  by rewrite (for_each_stops _ _ _ after _ _ _ _ Hbefore Hfail).
Qed.

Lemma dispatcher_stops_at_first_failure_witness :
  Automation.lambda_handler "111111111111" "eu-west-1" all_ok
    [[revoke_record] ++ bad_principal_record :: [cross_account_grant]] []
  = ([publication "111111111111" "eu-west-1" revoke_record (JStr "222222222222")],
     inl TypeError).
Proof.
  apply (dispatcher_stops_at_first_failure "111111111111" "eu-west-1" all_ok
           [revoke_record] [cross_account_grant] bad_principal_record []
           [publication "111111111111" "eu-west-1" revoke_record (JStr "222222222222")]).
  - vm_compute. reflexivity.
  - vm_compute. reflexivity.
Defined.

(** ** The DB-describe companion and what the central path does with it *)

(** X8. The companion of a record is made of the account of its principal
    and of the database of its selector, the one of [Table] when the record
    has both selectors; the permissions, the access type, the table and the
    columns of the record do not enter it. *)
Theorem companion_of_record central (r : dict) account db :
  target_account r = Some account →
  selected_database r = Some db →
  Automation.generate_db_perm central r = inr (companion central account db).
Proof. apply generate_db_perm_companion. Qed.

Lemma companion_of_record_witness :
  Automation.generate_db_perm "111111111111" both_selectors
  = inr (companion "111111111111" "222222222222" (JStr "sales")).
Proof.
  exact (companion_of_record "111111111111" both_selectors "222222222222"
           (JStr "sales") eq_refl eq_refl).
Defined.

Lemma central_handler_companion ACCOUNT_ID w central account d :
  answers w →
  run (Central.lambda_handler ACCOUNT_ID w [companion central account (JStr d)])
  = ([central_describe (JObj (principal_dict (JStr account))) d;
      wildcard_grant ACCOUNT_ID account d], inr ()).
Proof.
  intros Hw. unfold run. rewrite central_handler_single. mstep.
  rewrite (central_buildjson_table_run ACCOUNT_ID w _ (JStr account)
             {[ "DatabaseName" := JStr d; "TableWildcard" := JObj ∅ ]} d)
    by reflexivity.
  destruct (Hw [] (central_describe (JObj (principal_dict (JStr account))) d))
    as [resp ->].
  rewrite (build_perm_json_kept _ _ ["SELECT"; "DESCRIBE"]) by done.
  change (table_selector _ _)
    with (@inr exn dict (<["TableWildcard" := JObj ∅]> (selector_base ACCOUNT_ID d))).
  mstep. unfold Central.grant_lf_permissions. mstep. cbn [perm_grant_json perm_json
    table_json tableWithColumns_json principal_json].
  change (central_grant_option _)
    with ({[ "PermissionsWithGrantOption" := Py.str_list ["SELECT"; "DESCRIBE"] ]} : dict).
  rewrite truthy_singleton, !(item_Some _ _ _ (lookup_singleton_eq _ _)).
  unfold build_resource. rewrite truthy_insert.
  fold (wildcard_grant ACCOUNT_ID account d).
  change (access_type_lower _) with (@inr exn string "grant").
  cbn [String.eqb Ascii.eqb Bool.eqb app].
  by destruct (Hw [central_describe (JObj (principal_dict (JStr account))) d]
                 (wildcard_grant ACCOUNT_ID account d)) as [resp' ->].
Qed.

(** X9. The companion the dispatcher derives from a record is accepted by
    the central path: when the services answer, the database is described
    to the account of the principal under the name the record gives it,
    then SELECT and DESCRIBE are granted to that account, with the grant
    option for both, on every table of the database in the central
    catalog. *)
Theorem companion_applied_by_central central ACCOUNT_ID (w : world) (r : dict)
    (account d : string) :
  answers w →
  target_account r = Some account →
  selected_database r = Some (JStr d) →
  ∃ intent,
    Automation.generate_db_perm central r = inr intent
    ∧ run (Central.lambda_handler ACCOUNT_ID w [intent])
      = ([central_describe (JObj (principal_dict (JStr account))) d;
          wildcard_grant ACCOUNT_ID account d], inr ()).
Proof.
  intros Hw Ht Hdb. exists (companion central account (JStr d)).
  split; [by apply generate_db_perm_companion|by apply central_handler_companion].
Qed.

Lemma companion_applied_by_central_witness :
  ∃ intent,
    Automation.generate_db_perm "111111111111" cross_account_grant = inr intent
    ∧ run (Central.lambda_handler "111111111111" all_ok [intent])
      = ([central_describe (JObj (principal_dict (JStr "222222222222"))) "sales";
          wildcard_grant "111111111111" "222222222222" "sales"], inr ()).
Proof.
  exact (companion_applied_by_central "111111111111" "111111111111" all_ok
           cross_account_grant "222222222222" "sales" all_ok_answers eq_refl eq_refl).
Defined.

(** ** The permission block *)

(** X10. On a list of permission names the permission block returns the
    input as it is when the input holds every member of the literal list,
    and the literal list when it does not; either way the result holds
    every member of the literal list, and the block run again on its own
    result changes nothing. *)
Theorem permission_block_floor (lit : list string) (event : dict) (ps : list string) :
  event !! "Permissions" = Some (Py.str_list ps) →
  ∃ out,
    build_perm_json lit event = inr {[ "Permissions" := Py.str_list out ]}
    ∧ (lit ⊆ ps → out = ps)
    ∧ (¬ lit ⊆ ps → out = lit)
    ∧ lit ⊆ out
    ∧ build_perm_json lit {[ "Permissions" := Py.str_list out ]}
      = inr {[ "Permissions" := Py.str_list out ]}.
Proof.
  intros Hev. destruct (decide (Forall (λ p, p ∈ ps) lit)) as [Hsub|Hsub].
  - rewrite Forall_forall in Hsub. exists ps.
    split; [by apply build_perm_json_kept|]. split; [done|].
    split; [by intros []|]. split; [done|].
    apply build_perm_json_kept; [apply lookup_singleton_eq|done].
  - assert (¬ lit ⊆ ps) as Hnot
      by (intros Hall; apply Hsub; by rewrite Forall_forall).
    exists lit. split; [by apply (build_perm_json_replaced _ _ ps)|].
    split; [by intros ?|]. split; [done|]. split; [done|].
    apply build_perm_json_kept; [apply lookup_singleton_eq|done].
Qed.

Lemma permission_block_floor_witness :
  ∃ out,
    build_perm_json Central.perm_lit over_ceiling_record
    = inr {[ "Permissions" := Py.str_list out ]}
    ∧ (Central.perm_lit ⊆ ["SELECT"; "DESCRIBE"; "DROP"]
       → out = ["SELECT"; "DESCRIBE"; "DROP"])
    ∧ (¬ Central.perm_lit ⊆ ["SELECT"; "DESCRIBE"; "DROP"] → out = Central.perm_lit)
    ∧ Central.perm_lit ⊆ out
    ∧ build_perm_json Central.perm_lit {[ "Permissions" := Py.str_list out ]}
      = inr {[ "Permissions" := Py.str_list out ]}.
Proof.
  exact (permission_block_floor Central.perm_lit over_ceiling_record
           ["SELECT"; "DESCRIBE"; "DROP"] eq_refl).
Defined.

Lemma set_difference_text lit s :
  Forall (λ p, String.length p ≠ 1%nat) lit →
  Py.set_difference lit (JStr s) = inr lit.
Proof.
  induction 1 as [|p lit Hp _ IH]; [done|].
  cbn [Py.set_difference Py.in_set]. rewrite IH.
  by destruct (Nat.eqb_spec (String.length p) 1).
Qed.

(** X11. A [Permissions] value that is one string and not a list is read as
    the set of its characters: on both paths the literal list replaces it,
    also when the string is the name of a permission of that list. *)
Theorem permissions_given_as_text (event : dict) (s : string) :
  event !! "Permissions" = Some (JStr s) →
  build_perm_json Central.perm_lit event
  = inr {[ "Permissions" := Py.str_list Central.perm_lit ]}
  ∧ build_perm_json Consumption.perm_lit event
    = inr {[ "Permissions" := Py.str_list Consumption.perm_lit ]}.
Proof.
  intros Hev. unfold build_perm_json. rewrite Hev. cbn [mbind result_bind].
  rewrite !set_difference_text; [done|..];
    unfold Consumption.perm_lit, Central.perm_lit; repeat constructor; done.
Qed.

Lemma permissions_given_as_text_witness :
  build_perm_json Central.perm_lit {[ "Permissions" := JStr "SELECT" ]}
  = inr {[ "Permissions" := Py.str_list Central.perm_lit ]}
  ∧ build_perm_json Consumption.perm_lit {[ "Permissions" := JStr "SELECT" ]}
    = inr {[ "Permissions" := Py.str_list Consumption.perm_lit ]}.
Proof.
  exact (permissions_given_as_text {[ "Permissions" := JStr "SELECT" ]} "SELECT" eq_refl).
Defined.

(** ** A record without permissions *)

Lemma central_buildjson_perm_json ACCOUNT_ID w (event : dict) h h' b :
  Central.buildjson ACCOUNT_ID w event h = (h', inr b) →
  build_perm_json Central.perm_lit event = inr (perm_json b).
Proof.
  unfold Central.buildjson. mstep.
  destruct (event !! "Principal") as [p|]; [|discriminate].
  destruct (event !! "Table") as [table|].
  - destruct (Central.build_table _ _ _ _ h) as [h1 [e|tj]]; [discriminate|].
    destruct (build_perm_json _ event); [discriminate|]. by intros [= _ <-].
  - destruct (event !! "TableWithColumns") as [twc|]; [|discriminate].
    destruct (Central.build_tableWithColumns _ _ _ _ h) as [h1 [e|twcj]]; [discriminate|].
    destruct (build_perm_json _ event); [discriminate|]. by intros [= _ <-].
Qed.

Lemma consumption_buildjson_perm_json acc_id f_acc_id w (event : dict) h h' b :
  Consumption.buildjson acc_id f_acc_id w event h = (h', inr b) →
  build_perm_json Consumption.perm_lit event = inr (perm_json b).
Proof.
  unfold Consumption.buildjson. mstep.
  destruct (event !! "Principal") as [p|]; [|discriminate].
  destruct (event !! "Table") as [table|].
  - destruct (Consumption.build_table _ _ _ _ _ h) as [h1 [e|tj]]; [discriminate|].
    destruct (build_perm_json _ event); [discriminate|]. by intros [= _ <-].
  - destruct (event !! "TableWithColumns") as [twc|]; [|discriminate].
    destruct (Consumption.build_tableWithColumns _ _ _ _ _ h) as [h1 [e|twcj]];
      [discriminate|].
    destruct (build_perm_json _ event); [discriminate|]. by intros [= _ <-].
Qed.

Lemma handler_shape_without_permissions buildjson lit o batch (l : dict) calls r :
  (∀ h h' b, buildjson l h = (h', inr b) → build_perm_json lit l = inr (perm_json b)) →
  last batch = Some l → l !! "Permissions" = None →
  handler_shape buildjson o batch calls r →
  Forall quiet calls ∧ ∃ e, r = inl e.
Proof.
  intros Hperm Hl Hnone [?|(l' & Hl' & pre & final & h & b & _ & Hb & _ & _ & _ & Happ)];
    [done|].
  exfalso. rewrite Hl in Hl'. injection Hl' as <-.
  apply Hperm in Hb. unfold build_perm_json in Hb. rewrite Hnone in Hb.
  injection Hb as Hb. destruct Happ as (perms & Hperms & _).
  by rewrite <- Hb, lookup_empty in Hperms.
Qed.

(** X12. When the last record of the batch has no [Permissions], and no
    record names its database by a list or a dict, neither path makes a
    fine-grained call, whatever the services answer, and the handler ends
    with an exception: the record is not applied as if it asked for
    nothing. *)
Theorem absent_permissions_never_applied ACCOUNT_ID acc_id f_acc_id (w : world)
    (batch : list dict) (l : dict) :
  last batch = Some l →
  l !! "Permissions" = None →
  scalar_database_names batch = true →
  (Forall quiet (calls_of (Central.lambda_handler ACCOUNT_ID w batch))
   ∧ ∃ e, outcome (Central.lambda_handler ACCOUNT_ID w batch) = inl e)
  ∧ (Forall quiet (calls_of (Consumption.lambda_handler acc_id f_acc_id w batch))
     ∧ ∃ e, outcome (Consumption.lambda_handler acc_id f_acc_id w batch) = inl e).
Proof.
  intros Hl Hnone _. split.
  - eapply handler_shape_without_permissions; [|done|done|apply central_handler_shape].
    apply central_buildjson_perm_json.
  - eapply handler_shape_without_permissions;
      [|done|done|apply consumption_handler_shape].
    apply consumption_buildjson_perm_json.
Qed.

Lemma absent_permissions_never_applied_witness :
  (Forall quiet (calls_of (Central.lambda_handler "111111111111" all_ok
                             [delete "Permissions" (scenario_A_named (JStr "orders"))]))
   ∧ ∃ e, outcome (Central.lambda_handler "111111111111" all_ok
                     [delete "Permissions" (scenario_A_named (JStr "orders"))]) = inl e)
  ∧ (Forall quiet (calls_of (Consumption.lambda_handler "222222222222" "111111111111"
                               all_ok
                               [delete "Permissions" (scenario_A_named (JStr "orders"))]))
     ∧ ∃ e, outcome (Consumption.lambda_handler "222222222222" "111111111111"
                       all_ok [delete "Permissions" (scenario_A_named (JStr "orders"))])
            = inl e).
Proof.
  exact (absent_permissions_never_applied "111111111111" "222222222222" "111111111111"
           all_ok [delete "Permissions" (scenario_A_named (JStr "orders"))]
           (delete "Permissions" (scenario_A_named (JStr "orders")))
           eq_refl eq_refl eq_refl).
Defined.

Lemma access_type_lower_text (event : dict) s :
  event !! "AccessType" = Some (JStr s) → access_type_lower event = inr (Py.lower s).
Proof. intros H. unfold access_type_lower. by rewrite (item_Some _ _ _ H). Qed.

(** X13. A record that is complete but for its [Permissions], asking for a
    grant or a revoke in any letter case: when the services answer, the
    database is described to the principal (on the consumption path, after
    the catalog entry was looked up), then the handler ends with KeyError on
    [Permissions]; the validation error is not raised. *)
Theorem absent_permissions_error ACCOUNT_ID acc_id f_acc_id (w : world)
    (event t : dict) (p n : json) (d s : string) :
  answers w →
  event !! "Principal" = Some p →
  event !! "Table" = Some (JObj t) →
  t !! "DatabaseName" = Some (JStr d) →
  t !! "Name" = Some n →
  event !! "Permissions" = None →
  event !! "AccessType" = Some (JStr s) →
  Py.lower s = "grant" ∨ Py.lower s = "revoke" →
  run (Central.lambda_handler ACCOUNT_ID w [event])
  = ([central_describe (JObj (principal_dict p)) d], inl (KeyError "Permissions"))
  ∧ run (Consumption.lambda_handler acc_id f_acc_id w [event])
    = ([Glue_get_database (link_name d);
        consumption_describe acc_id (JObj (principal_dict p)) (link_name d)],
       inl (KeyError "Permissions")).
Proof.
  intros Hw Hp Ht Hdb Hn Hnone Haccess Hs.
  assert (build_perm_json Central.perm_lit event = inr ∅
          ∧ build_perm_json Consumption.perm_lit event = inr ∅) as [Hc Hk]
    by (unfold build_perm_json; by rewrite Hnone).
  assert (∀ base, table_selector base t = inr (<["Name" := n]> base)) as Hsel
    by (intros base; unfold table_selector; by rewrite Hn).
  split.
  - unfold run. rewrite central_handler_single. mstep.
    rewrite (central_buildjson_table_run _ _ _ _ _ _ _ Hp Ht Hdb).
    destruct (Hw [] (central_describe (JObj (principal_dict p)) d)) as [resp ->].
    rewrite Hsel, Hc. mstep. rewrite (access_type_lower_text _ _ Haccess).
    unfold Central.grant_lf_permissions, Central.revoke_lf_permissions. mstep.
    cbn [perm_json perm_grant_json].
    change (item ∅ "Permissions") with (@inl exn json (KeyError "Permissions")).
    destruct Hs as [-> | ->]; cbn [String.eqb Ascii.eqb Bool.eqb]; [|done].
    unfold central_grant_option.
    destruct (has_key "PermissionsWithGrantOption" event).
    + by rewrite truthy_singleton, (item_Some _ _ _ (lookup_singleton_eq _ _)).
    + by rewrite truthy_empty.
  - unfold run, Consumption.lambda_handler. cbn [Consumption.for_records]. mstep.
    rewrite (consumption_buildjson_table_run _ _ _ _ _ _ _ _ Hp Ht Hdb).
    unfold reconcile_and_describe.
    destruct (Hw [] (Glue_get_database (link_name d))) as [resp ->].
    destruct (Hw ([] ++ [Glue_get_database (link_name d)])
                (consumption_describe acc_id (JObj (principal_dict p)) (link_name d)))
      as [resp' ->].
    rewrite Hsel, Hk. mstep. rewrite (access_type_lower_text _ _ Haccess).
    unfold Consumption.grant_lf_permissions, Consumption.revoke_lf_permissions. mstep.
    cbn [perm_json].
    change (item ∅ "Permissions") with (@inl exn json (KeyError "Permissions")).
    by destruct Hs as [-> | ->]; cbn [String.eqb Ascii.eqb Bool.eqb].
Qed.

Lemma absent_permissions_error_witness :
  run (Central.lambda_handler "111111111111" all_ok
         [delete "Permissions" (scenario_A_named (JStr "orders"))])
  = ([central_describe consumer_principal "foundation_sales"],
     inl (KeyError "Permissions"))
  ∧ run (Consumption.lambda_handler "222222222222" "111111111111" all_ok
           [delete "Permissions" (scenario_A_named (JStr "orders"))])
    = ([Glue_get_database (link_name "foundation_sales");
        consumption_describe "222222222222" consumer_principal
          (link_name "foundation_sales")],
       inl (KeyError "Permissions")).
Proof.
  exact (absent_permissions_error "111111111111" "222222222222" "111111111111" all_ok
           (delete "Permissions" (scenario_A_named (JStr "orders")))
           {[ "DatabaseName" := JStr "foundation_sales"; "Name" := JStr "orders" ]}
           (JStr consumer_arn) (JStr "orders") "foundation_sales" "grant"
           all_ok_answers eq_refl eq_refl eq_refl eq_refl eq_refl eq_refl
           (or_introl eq_refl)).
Defined.

(** ** The access type of the last record *)

Lemma bind_run {A B} (m : M A) (k : A → M B) h :
  (m ≫= k) h = match m h with
               | (h', inl e) => (h', inl e)
               | (h', inr a) => k a h'
               end.
Proof. reflexivity. Qed.

Lemma access_type_lower_inr (l : dict) a :
  access_type_lower l = inr a →
  ∃ s, l !! "AccessType" = Some (JStr s) ∧ a = Py.lower s.
Proof.
  unfold access_type_lower, item, Py.getitem. mstep.
  destruct (l !! "AccessType") as [[| | |s| |]|]; try discriminate.
  intros [= <-]. by exists s.
Qed.

Lemma quiet_not_fine_grained t c :
  Forall quiet t → c ∈ t → fine_grained c = true → False.
Proof.
  rewrite Forall_forall. intros Hquiet Hc Hfine.
  destruct (Hquiet c Hc) as [Hq _]. congruence.
Qed.

Lemma apply_access_type (l : dict) (grant revoke : M response) :
  emits (λ c, applied_as c = Some "grant") grant →
  emits (λ c, applied_as c = Some "revoke") revoke →
  emits (applied_for l)
    (access ← lift (access_type_lower l);
     if String.eqb access "grant" then response ← grant; mret ()
     else if String.eqb access "revoke" then response ← revoke; mret ()
     else raise LFAttributeError).
Proof.
  intros Hgrant Hrevoke. apply emits_bind_lift.
  intros a (s & Hs & ->)%access_type_lower_inr.
  assert (∀ kind (m : M response),
            Py.lower s = kind → emits (λ c, applied_as c = Some kind) m →
            emits (applied_for l) (response ← m; mret ())) as Hkind.
  { intros kind m Hkind Hm. apply emits_bind; [|intros; apply emits_ret].
    intros h. destruct (Hm h) as (t & Ht & HP). exists t. split; [done|].
    eapply Forall_impl; [done|]. intros c Hc. exists s. by rewrite Hkind. }
  destruct (String.eqb_spec (Py.lower s) "grant") as [Hg|_]; [by eapply Hkind|].
  destruct (String.eqb_spec (Py.lower s) "revoke") as [Hr|_]; [by eapply Hkind|].
  apply emits_raise.
Qed.

Lemma central_apply_emits w b :
  emits (λ c, applied_as c = Some "grant") (Central.grant_lf_permissions w b)
  ∧ emits (λ c, applied_as c = Some "revoke") (Central.revoke_lf_permissions w b).
Proof.
  split.
  - unfold Central.grant_lf_permissions.
    do 2 (apply emits_bind_lift; intros ? _). by apply emits_perform.
  - unfold Central.revoke_lf_permissions.
    apply emits_bind_lift; intros ? _. by apply emits_perform.
Qed.

Lemma consumption_apply_emits w b :
  emits (λ c, applied_as c = Some "grant") (Consumption.grant_lf_permissions w b)
  ∧ emits (λ c, applied_as c = Some "revoke") (Consumption.revoke_lf_permissions w b).
Proof.
  split.
  - unfold Consumption.grant_lf_permissions.
    apply emits_bind_lift; intros ? _. by apply emits_perform.
  - unfold Consumption.revoke_lf_permissions.
    apply emits_bind_lift; intros ? _. by apply emits_perform.
Qed.

Lemma central_handler_access ACCOUNT_ID w batch c :
  c ∈ calls_of (Central.lambda_handler ACCOUNT_ID w batch) →
  fine_grained c = true →
  ∃ l, last batch = Some l ∧ applied_for l c.
Proof.
  unfold calls_of, run, Central.lambda_handler. rewrite bind_run.
  destruct (central_for_records_shape ACCOUNT_ID w batch None [])
    as (t & Ht & Hquiet & Hok).
  destruct (Central.for_records ACCOUNT_ID w batch None []) as [h1 [e|v]];
    cbn [fst snd app] in *; subst h1.
  { intros. exfalso. by eapply quiet_not_fine_grained. }
  destruct (Hok v eq_refl) as [_ Hlast].
  destruct (last batch) as [l|]; [|subst v; intros; exfalso; by eapply quiet_not_fine_grained].
  destruct Hlast as (h0 & b & -> & _). cbv beta iota.
  destruct (central_apply_emits w b) as [Hgrant Hrevoke].
  destruct (apply_access_type l _ _ Hgrant Hrevoke t) as (t' & -> & Hfor).
  intros [Hc|Hc]%elem_of_app Hfine; [exfalso; by eapply quiet_not_fine_grained|].
  exists l. split; [done|]. rewrite Forall_forall in Hfor. by apply Hfor.
Qed.

Lemma consumption_handler_access acc_id f_acc_id w batch c :
  c ∈ calls_of (Consumption.lambda_handler acc_id f_acc_id w batch) →
  fine_grained c = true →
  ∃ l, last batch = Some l ∧ applied_for l c.
Proof.
  unfold calls_of, run, Consumption.lambda_handler. rewrite bind_run.
  destruct (consumption_for_records_shape acc_id f_acc_id w batch None [])
    as (t & Ht & Hquiet & Hok).
  destruct (Consumption.for_records acc_id f_acc_id w batch None []) as [h1 [e|v]];
    cbn [fst snd app] in *; subst h1.
  { intros. exfalso. by eapply quiet_not_fine_grained. }
  destruct (Hok v eq_refl) as [_ Hlast].
  destruct (last batch) as [l|]; [|subst v; intros; exfalso; by eapply quiet_not_fine_grained].
  destruct Hlast as (h0 & b & -> & _). cbv beta iota.
  destruct (consumption_apply_emits w b) as [Hgrant Hrevoke].
  destruct (apply_access_type l _ _ Hgrant Hrevoke t) as (t' & -> & Hfor).
  intros [Hc|Hc]%elem_of_app Hfine; [exfalso; by eapply quiet_not_fine_grained|].
  exists l. split; [done|]. rewrite Forall_forall in Hfor. by apply Hfor.
Qed.

(** X14. For a batch whose last record has an access type written in ASCII
    characters, and in which no record names its database by a list or a
    dict: on both paths a fine-grained call is made only when the
    [AccessType] of the last record is a string, and it is a grant when
    that string is [grant] in any letter case, a revoke when it is [revoke]
    in any letter case; with any other access type, or none, nothing is
    granted or revoked on a table. *)
Theorem access_type_decides ACCOUNT_ID acc_id f_acc_id (w : world)
    (batch : list dict) (c : call) :
  ascii_access_type batch = true →
  scalar_database_names batch = true →
  c ∈ calls_of (Central.lambda_handler ACCOUNT_ID w batch)
  ∨ c ∈ calls_of (Consumption.lambda_handler acc_id f_acc_id w batch) →
  fine_grained c = true →
  ∃ l s, last batch = Some l
         ∧ l !! "AccessType" = Some (JStr s)
         ∧ ascii_only s = true
         ∧ applied_as c = Some (Py.lower s).
Proof.
  intros Hascii _ Hc Hfine.
  assert (∃ l, last batch = Some l ∧ applied_for l c) as (l & Hl & s & Hs & Has).
  { destruct Hc as [Hc|Hc].
    - by apply (central_handler_access ACCOUNT_ID w).
    - by apply (consumption_handler_access acc_id f_acc_id w). }
  exists l, s. unfold ascii_access_type in Hascii. by rewrite Hl, Hs in Hascii.
Qed.

Lemma access_type_decides_witness :
  ∃ l s, last [<["AccessType" := JStr "Revoke"]> over_select_record] = Some l
         ∧ l !! "AccessType" = Some (JStr s)
         ∧ ascii_only s = true
         ∧ applied_as
             (LF_revoke_permissions consumer_principal
                (JObj {[ "Table" := JObj {[ "DatabaseName" := JStr "sales";
                                            "CatalogId" := JStr "111111111111";
                                            "Name" := JStr "orders" ]} ]})
                (Py.str_list ["SELECT"; "ALL"]))
           = Some (Py.lower s).
Proof.
  apply (access_type_decides "111111111111" "222222222222" "111111111111" all_ok
           [<["AccessType" := JStr "Revoke"]> over_select_record]).
  - reflexivity.
  - reflexivity.
  - right. vm_compute. right. right. left.
  - vm_compute. reflexivity.
Defined.

(** ** The services called, and for whom *)

Lemma emits_bind_ret {A B} P (a : A) (k : A → M B) :
  emits P (k a) → emits P (mret a ≫= k).
Proof. intros Hk h. apply Hk. Qed.

Lemma emits_bind_raise {A B} P e (k : A → M B) : emits P (raise e ≫= k).
Proof. intros h. exists []. by rewrite app_nil_r. Qed.

Ltac emits_walk :=
  repeat match goal with
         | |- emits _ (mret _) => apply emits_ret
         | |- emits _ (raise _) => apply emits_raise
         | |- emits _ (lift _ ≫= _) => apply emits_bind_lift; intros ? ?
         | |- emits _ (mret _ ≫= _) => apply emits_bind_ret
         | |- emits _ (raise _ ≫= _) => apply emits_bind_raise
         | |- emits _ (_ ≫= _) => apply emits_bind; [|intros ?]
         | |- emits _ (match ?x with _ => _ end) => destruct x
         end.

Lemma emits_impl {A} (P Q : call → Prop) (m : M A) :
  (∀ c, P c → Q c) → emits P m → emits Q m.
Proof.
  intros HPQ Hm h. destruct (Hm h) as (t & Ht & HP). exists t. split; [done|].
  by eapply Forall_impl.
Qed.

Lemma central_buildjson_principal ACCOUNT_ID w (event : dict) h h' b :
  Central.buildjson ACCOUNT_ID w event h = (h', inr b) →
  ∃ v, event !! "Principal" = Some v ∧ principal_json b = principal_dict v.
Proof.
  unfold Central.buildjson. mstep.
  destruct (event !! "Principal") as [p|]; [|discriminate].
  destruct (event !! "Table") as [table|].
  - destruct (Central.build_table _ _ _ _ h) as [h1 [e|tj]]; [discriminate|].
    destruct (build_perm_json _ event); [discriminate|]. intros [= _ <-]. by exists p.
  - destruct (event !! "TableWithColumns") as [twc|]; [|discriminate].
    destruct (Central.build_tableWithColumns _ _ _ _ h) as [h1 [e|twcj]]; [discriminate|].
    destruct (build_perm_json _ event); [discriminate|]. intros [= _ <-]. by exists p.
Qed.

Lemma consumption_buildjson_principal acc_id f_acc_id w (event : dict) h h' b :
  Consumption.buildjson acc_id f_acc_id w event h = (h', inr b) →
  ∃ v, event !! "Principal" = Some v ∧ principal_json b = principal_dict v.
Proof.
  unfold Consumption.buildjson. mstep.
  destruct (event !! "Principal") as [p|]; [|discriminate].
  destruct (event !! "Table") as [table|].
  - destruct (Consumption.build_table _ _ _ _ _ h) as [h1 [e|tj]]; [discriminate|].
    destruct (build_perm_json _ event); [discriminate|]. intros [= _ <-]. by exists p.
  - destruct (event !! "TableWithColumns") as [twc|]; [|discriminate].
    destruct (Consumption.build_tableWithColumns _ _ _ _ _ h) as [h1 [e|twcj]];
      [discriminate|].
    destruct (build_perm_json _ event); [discriminate|]. intros [= _ <-]. by exists p.
Qed.

Lemma central_buildjson_calls ACCOUNT_ID w (event : dict) v :
  event !! "Principal" = Some v →
  emits (call_for v) (Central.buildjson ACCOUNT_ID w event).
Proof.
  intros Hv. unfold Central.buildjson. rewrite Hv. cbv beta iota.
  assert (∀ db, emits (call_for v)
                  (Central.grant_db_describe w (<["DataLakePrincipalIdentifier" := v]> ∅) db))
    as Hdescribe by (intros db; by apply emits_perform).
  unfold Central.build_table, Central.build_tableWithColumns.
  emits_walk; simplify_eq; apply Hdescribe.
Qed.

Lemma reconcile_and_describe_calls acc_id f_acc_id w v d h :
  ∃ t, fst (reconcile_and_describe acc_id f_acc_id w (JObj (principal_dict v))
              (link_name d) (bare_name (link_name d)) h) = h ++ t
       ∧ Forall (λ c, call_for v c ∨ on_resource_link f_acc_id c) t.
Proof.
  pose proof (str_in_link_name d) as Hin.
  assert (on_resource_link f_acc_id (Glue_get_database (link_name d))) as Hget by done.
  assert (on_resource_link f_acc_id
            (Glue_create_database
               (resource_link f_acc_id (link_name d) (bare_name (link_name d)))))
    as Hcreate by by exists (link_name d).
  assert (call_for v (consumption_describe acc_id (JObj (principal_dict v)) (link_name d)))
    as Hgrant by done.
  unfold reconcile_and_describe.
  destruct (w h _) as [[]|]; try destruct (w _ (Glue_create_database _));
    cbn [fst]; eexists; (split; [reflexivity|]);
    repeat (apply Forall_cons; split); try apply Forall_nil; tauto.
Qed.

Lemma consumption_buildjson_calls acc_id f_acc_id w (event : dict) v :
  event !! "Principal" = Some v →
  emits (λ c, call_for v c ∨ on_resource_link f_acc_id c)
        (Consumption.buildjson acc_id f_acc_id w event).
Proof.
  intros Hv. unfold Consumption.buildjson. rewrite Hv. cbv beta iota.
  assert (∀ d, emits (λ c, call_for v c ∨ on_resource_link f_acc_id c)
                 (Consumption.grant_db_describe acc_id f_acc_id w
                    (<["DataLakePrincipalIdentifier" := v]> ∅) d))
    as Hdescribe.
  { intros d h. rewrite consumption_grant_db_describe_run.
    apply reconcile_and_describe_calls. }
  unfold Consumption.build_table, Consumption.build_tableWithColumns.
  emits_walk; simplify_eq; apply Hdescribe.
Qed.

Lemma central_for_records_calls ACCOUNT_ID w batch records vars :
  records ⊆ batch →
  emits (for_principal_of batch) (Central.for_records ACCOUNT_ID w records vars).
Proof.
  revert vars. induction records as [|event records IH]; intros vars Hsub;
    cbn [Central.for_records]; [apply emits_ret|].
  apply emits_bind.
  - destruct (event !! "Principal") as [v|] eqn:Hv.
    + eapply emits_impl; [|by apply central_buildjson_calls].
      intros c Hc. exists event, v. split; [|done]. apply Hsub. by left.
    + unfold Central.buildjson. rewrite Hv. cbv beta iota. emits_walk.
  - intros b. apply IH. intros r Hr. apply Hsub. by right.
Qed.

Lemma consumption_for_records_calls acc_id f_acc_id w batch records vars :
  records ⊆ batch →
  emits (λ c, for_principal_of batch c ∨ on_resource_link f_acc_id c)
        (Consumption.for_records acc_id f_acc_id w records vars).
Proof.
  revert vars. induction records as [|event records IH]; intros vars Hsub;
    cbn [Consumption.for_records]; [apply emits_ret|].
  apply emits_bind.
  - destruct (event !! "Principal") as [v|] eqn:Hv.
    + eapply emits_impl; [|by apply consumption_buildjson_calls].
      intros c [Hc|Hc]; [left|by right].
      exists event, v. split; [|done]. apply Hsub. by left.
    + unfold Consumption.buildjson. rewrite Hv. cbv beta iota. emits_walk.
  - intros b. apply IH. intros r Hr. apply Hsub. by right.
Qed.

(** X15. Whatever the batch and the answers of the services, the central
    path calls Lake Formation only, never the catalog, the notification
    service or the clock, and every call it makes is for the [Principal] of
    a record of the batch, passed as the principal identifier. *)
Theorem central_calls_for_batch_principals ACCOUNT_ID (w : world) (batch : list dict) :
  Forall (for_principal_of batch) (calls_of (Central.lambda_handler ACCOUNT_ID w batch)).
Proof.
  unfold calls_of, run, Central.lambda_handler. rewrite bind_run.
  destruct (central_for_records_calls ACCOUNT_ID w batch batch None (reflexivity _) [])
    as (t & Ht & Hcalls).
  destruct (central_for_records_shape ACCOUNT_ID w batch None [])
    as (t' & Ht' & _ & Hok).
  destruct (Central.for_records ACCOUNT_ID w batch None []) as [h1 [e|v]];
    cbn [fst snd app] in *; subst h1; [done|]. subst t'.
  destruct (Hok v eq_refl) as [_ Hlast].
  destruct (last batch) as [l|] eqn:Hl; [|by subst v].
  destruct Hlast as (h0 & b & -> & Hb & _). cbv beta iota.
  destruct (central_buildjson_principal _ _ _ _ _ _ Hb) as (v & Hv & Hpj).
  assert (emits (for_principal_of batch)
            (access ← lift (access_type_lower l);
             if String.eqb access "grant" then
               response ← Central.grant_lf_permissions w b; mret ()
             else if String.eqb access "revoke" then
               response ← Central.revoke_lf_permissions w b; mret ()
             else raise LFAttributeError)) as Htail.
  { apply (emits_impl (call_for v)).
    - intros c Hc. exists l, v. split; [by apply last_Some_elem_of|done].
    - unfold Central.grant_lf_permissions, Central.revoke_lf_permissions.
      emits_walk; apply emits_perform; unfold call_for; cbn; by rewrite Hpj. }
  destruct (Htail t) as (t2 & -> & Hcalls2). by apply Forall_app.
Qed.

(** X16. For a batch in which no record names its database by a list or a
    dict, whatever the services answer, the consumption path never calls
    the notification service or the clock. Its Lake Formation calls are for
    the [Principal] of a record of the batch; its catalog calls look up a
    name that holds [foundation_], or create a resource link of such a name
    that points, in the catalog of the foundation account, at the database
    named by what follows the first [foundation_] of the name. *)
Theorem consumption_calls_for_batch_principals acc_id f_acc_id (w : world)
    (batch : list dict) :
  scalar_database_names batch = true →
  Forall (λ c, for_principal_of batch c ∨ on_resource_link f_acc_id c)
         (calls_of (Consumption.lambda_handler acc_id f_acc_id w batch)).
Proof.
  intros _.
  unfold calls_of, run, Consumption.lambda_handler. rewrite bind_run.
  destruct (consumption_for_records_calls acc_id f_acc_id w batch batch None
              (reflexivity _) [])
    as (t & Ht & Hcalls).
  destruct (consumption_for_records_shape acc_id f_acc_id w batch None [])
    as (t' & Ht' & _ & Hok).
  destruct (Consumption.for_records acc_id f_acc_id w batch None []) as [h1 [e|v]];
    cbn [fst snd app] in *; subst h1; [done|]. subst t'.
  destruct (Hok v eq_refl) as [_ Hlast].
  destruct (last batch) as [l|] eqn:Hl; [|by subst v].
  destruct Hlast as (h0 & b & -> & Hb & _). cbv beta iota.
  destruct (consumption_buildjson_principal _ _ _ _ _ _ _ Hb) as (v & Hv & Hpj).
  assert (emits (λ c, for_principal_of batch c ∨ on_resource_link f_acc_id c)
            (access ← lift (access_type_lower l);
             if String.eqb access "grant" then
               response ← Consumption.grant_lf_permissions w b; mret ()
             else if String.eqb access "revoke" then
               response ← Consumption.revoke_lf_permissions w b; mret ()
             else raise LFAttributeError)) as Htail.
  { apply (emits_impl (call_for v)).
    - intros c Hc. left. exists l, v. split; [by apply last_Some_elem_of|done].
    - unfold Consumption.grant_lf_permissions, Consumption.revoke_lf_permissions.
      emits_walk; apply emits_perform; unfold call_for; cbn; by rewrite Hpj. }
  destruct (Htail t) as (t2 & -> & Hcalls2). by apply Forall_app.
Qed.

Lemma consumption_calls_for_batch_principals_witness :
  Forall (λ c, for_principal_of [over_select_record; revoke_record] c
               ∨ on_resource_link "111111111111" c)
         (calls_of (Consumption.lambda_handler "222222222222" "111111111111"
                      empty_catalog [over_select_record; revoke_record])).
Proof.
  exact (consumption_calls_for_batch_principals "222222222222" "111111111111"
           empty_catalog [over_select_record; revoke_record] eq_refl).
Defined.

(** ** The exceptions of the services *)

Section Propagation.
Variables (tolerated : call → exn → bool) (w : world).

Lemma propagated_app {A B} h t1 t2 (r1 : result A) (r : result B) :
  propagated tolerated w h t1 r1 →
  match r1 with
  | inl e => t2 = [] ∧ r = inl e
  | inr _ => propagated tolerated w (h ++ t1) t2 r
  end →
  propagated tolerated w h (t1 ++ t2) r.
Proof.
  revert h. induction t1 as [|c t1 IH]; intros h H1 H2.
  - rewrite app_nil_r in H2. destruct r1 as [e|a]; [by destruct H2 as [-> _]|done].
  - cbn [app propagated] in *.
    assert (match r1 with
            | inl e => t2 = [] ∧ r = inl e
            | inr _ => propagated tolerated w ((h ++ [c]) ++ t1) t2 r
            end) as H2' by (by rewrite <- app_assoc).
    destruct (refused w h c) as [e|]; [|by apply IH].
    destruct (tolerated c e); [by apply IH|].
    destruct H1 as [-> ->]. by destruct H2 as [-> ->].
Qed.

Lemma propagated_refused {A} h pre c post e (r : result A) :
  propagated tolerated w h (pre ++ c :: post) r →
  refused w (h ++ pre) c = Some e →
  tolerated c e = false →
  post = [] ∧ r = inl e.
Proof.
  revert h. induction pre as [|c' pre IH]; intros h H Hc Htol.
  - rewrite app_nil_r in Hc. cbn [app propagated] in H. by rewrite Hc, Htol in H.
  - cbn [app propagated] in H.
    assert (refused w ((h ++ [c']) ++ pre) c = Some e) as Hc'
      by (by rewrite <- app_assoc).
    destruct (refused w h c') as [e'|]; [|by eapply IH].
    destruct (tolerated c' e'); [by eapply IH|].
    destruct H as [Hnil _]. by destruct pre.
Qed.

Lemma propagates_ret {A} (a : A) : propagates tolerated w (mret a).
Proof. intros h. exists []. by rewrite app_nil_r. Qed.

Lemma propagates_raise {A} e : propagates tolerated w (raise e : M A).
Proof. intros h. exists []. by rewrite app_nil_r. Qed.

Lemma propagates_lift {A} (r : result A) : propagates tolerated w (lift r).
Proof. intros h. exists []. by rewrite app_nil_r. Qed.

Lemma propagates_perform c : propagates tolerated w (perform w c).
Proof.
  intros h. exists [c]. split; [done|]. cbn [perform snd propagated].
  unfold refused. destruct c; try done;
    (destruct (w h _) as [e|resp]; [|done]; by destruct (tolerated _ e)).
Qed.

Lemma propagates_sleep secs : propagates tolerated w (sleep secs).
Proof. intros h. by exists [Time_sleep secs]. Qed.

Lemma propagates_bind {A B} (m : M A) (k : A → M B) :
  propagates tolerated w m → (∀ a, propagates tolerated w (k a)) →
  propagates tolerated w (m ≫= k).
Proof.
  intros Hm Hk h. destruct (Hm h) as (t1 & Ht1 & H1). rewrite bind_run.
  destruct (m h) as [h1 [e|a]]; cbn [fst snd] in *; subst h1.
  - exists t1. split; [done|]. rewrite <- (app_nil_r t1).
    by eapply propagated_app.
  - destruct (Hk a (h ++ t1)) as (t2 & Ht2 & H2). exists (t1 ++ t2).
    rewrite Ht2, app_assoc. split; [done|]. by eapply propagated_app.
Qed.

Lemma propagates_for_each {A} (body : A → M ()) l :
  (∀ x, propagates tolerated w (body x)) → propagates tolerated w (for_each body l).
Proof.
  intros Hbody. induction l as [|x l IH]; cbn [for_each].
  - apply propagates_ret.
  - apply propagates_bind; [apply Hbody|]. by intros _.
Qed.

Lemma propagates_run {A} (m : M A) pre c post e :
  propagates tolerated w m →
  calls_of m = pre ++ c :: post →
  refused w pre c = Some e →
  tolerated c e = false →
  post = [] ∧ outcome m = inl e.
Proof.
  intros Hm Hcalls Hc Htol. destruct (Hm []) as (t & Ht & H).
  unfold calls_of, outcome, run in *. rewrite Ht in Hcalls. cbn [app] in Hcalls.
  subst t. by eapply (propagated_refused []).
Qed.

End Propagation.

Ltac propagates_walk :=
  repeat match goal with
         | |- propagates _ _ (mret _) => apply propagates_ret
         | |- propagates _ _ (raise _) => apply propagates_raise
         | |- propagates _ _ (lift _) => apply propagates_lift
         | |- propagates _ _ (perform _ _) => apply propagates_perform
         | |- propagates _ _ (sleep _) => apply propagates_sleep
         | |- propagates _ _ (_ ≫= _) => apply propagates_bind; [|intros ?]
         | |- propagates _ _ (match ?x with _ => _ end) => destruct x
         end.

Lemma central_buildjson_propagates tolerated ACCOUNT_ID w event :
  propagates tolerated w (Central.buildjson ACCOUNT_ID w event).
Proof.
  unfold Central.buildjson, Central.build_table, Central.build_tableWithColumns,
    Central.grant_db_describe.
  propagates_walk.
Qed.

Lemma central_handler_propagates tolerated ACCOUNT_ID w batch :
  propagates tolerated w (Central.lambda_handler ACCOUNT_ID w batch).
Proof.
  unfold Central.lambda_handler. apply propagates_bind.
  - generalize (@None (dict * built)).
    induction batch as [|event batch IH]; intros vars; cbn [Central.for_records].
    + apply propagates_ret.
    + apply propagates_bind; [apply central_buildjson_propagates|]. intros b. apply IH.
  - intros vars. unfold Central.grant_lf_permissions, Central.revoke_lf_permissions.
    propagates_walk.
Qed.

Lemma check_db_exist_propagates w database :
  propagates not_found_at_lookup w (Consumption.check_db_exist w database).
Proof.
  intros h. exists [Glue_get_database database].
  unfold Consumption.check_db_exist. mstep. cbn [propagated refused].
  destruct (w h _) as [[]|]; by cbn.
Qed.

Lemma consumption_buildjson_propagates acc_id f_acc_id w event :
  propagates not_found_at_lookup w (Consumption.buildjson acc_id f_acc_id w event).
Proof.
  assert (∀ pj d, propagates not_found_at_lookup w
                    (Consumption.grant_db_describe acc_id f_acc_id w pj d)) as Hdescribe.
  { intros pj d. unfold Consumption.grant_db_describe. cbv zeta.
    apply propagates_bind; [apply check_db_exist_propagates|]. intros db_exist.
    propagates_walk. }
  unfold Consumption.buildjson, Consumption.build_table,
    Consumption.build_tableWithColumns.
  repeat (propagates_walk; try apply Hdescribe).
Qed.

Lemma consumption_handler_propagates acc_id f_acc_id w batch :
  propagates not_found_at_lookup w (Consumption.lambda_handler acc_id f_acc_id w batch).
Proof.
  unfold Consumption.lambda_handler. apply propagates_bind.
  - generalize (@None (dict * built)).
    induction batch as [|event batch IH]; intros vars; cbn [Consumption.for_records].
    + apply propagates_ret.
    + apply propagates_bind; [apply consumption_buildjson_propagates|].
      intros b. apply IH.
  - intros vars. unfold Consumption.grant_lf_permissions, Consumption.revoke_lf_permissions.
    propagates_walk.
Qed.

(** X17. The central path swallows no exception of Lake Formation: a call
    that is refused is the last call of the run, and the exception it was
    refused with is the exception the handler ends with. *)
Theorem central_propagates_refusals ACCOUNT_ID (w : world) (batch : list dict)
    (pre post : list call) (c : call) (e : exn) :
  calls_of (Central.lambda_handler ACCOUNT_ID w batch) = pre ++ c :: post →
  refused w pre c = Some e →
  post = [] ∧ outcome (Central.lambda_handler ACCOUNT_ID w batch) = inl e.
Proof.
  intros Hcalls Hc.
  apply (propagates_run (λ _ _, false) w _ pre c post e);
    [apply central_handler_propagates|done..].
Qed.

Lemma central_propagates_refusals_witness :
  @nil call = []
  ∧ outcome (Central.lambda_handler "111111111111" no_grant_option
               [first_of_two; second_of_two])
    = inl (ClientError "AccessDeniedException").
Proof.
  apply (central_propagates_refusals "111111111111" no_grant_option
           [first_of_two; second_of_two]
           [central_describe consumer_principal "sales";
            central_describe consumer_principal "hr"] []
           (LF_grant_permissions consumer_principal
              (JObj {[ "Table" := JObj {[ "DatabaseName" := JStr "hr";
                                          "CatalogId" := JStr "111111111111";
                                          "Name" := JStr "staff" ]} ]})
              (Py.str_list ["SELECT"; "DESCRIBE"])
              (Some (Py.str_list ["SELECT"; "DESCRIBE"])))).
  - vm_compute. reflexivity.
  - reflexivity.
Defined.

(** X18. The consumption path swallows one exception only, not-found at the
    lookup of a catalog entry: any other call that a service refuses, and a
    lookup refused with any other exception, is the last call of the run,
    and the exception it was refused with is the exception the handler ends
    with. *)
Theorem consumption_propagates_refusals acc_id f_acc_id (w : world) (batch : list dict)
    (pre post : list call) (c : call) (e : exn) :
  calls_of (Consumption.lambda_handler acc_id f_acc_id w batch) = pre ++ c :: post →
  refused w pre c = Some e →
  not_found_at_lookup c e = false →
  post = [] ∧ outcome (Consumption.lambda_handler acc_id f_acc_id w batch) = inl e.
Proof.
  intros Hcalls Hc Htol.
  apply (propagates_run not_found_at_lookup w _ pre c post e);
    [apply consumption_handler_propagates|done..].
Qed.

Lemma consumption_propagates_refusals_witness :
  @nil call = []
  ∧ outcome (Consumption.lambda_handler "222222222222" "111111111111" read_only_catalog
               [first_of_two; second_of_two])
    = inl (ClientError "AccessDeniedException").
Proof.
  apply (consumption_propagates_refusals "222222222222" "111111111111" read_only_catalog
           [first_of_two; second_of_two]
           [Glue_get_database "foundation_sales"] []
           (Glue_create_database (resource_link "111111111111" "foundation_sales" "sales"))).
  - vm_compute. reflexivity.
  - reflexivity.
  - reflexivity.
Defined.

Lemma dispatcher_propagates tolerated central region w manifests :
  propagates tolerated w (Automation.lambda_handler central region w manifests).
Proof.
  unfold Automation.lambda_handler.
  apply propagates_for_each. intros records.
  apply propagates_for_each. intros r.
  unfold Automation.process_perm_record, Automation.publish_sns. cbv zeta.
  propagates_walk.
Qed.

(** X19. The dispatcher swallows no exception of the notification service:
    a publication that is refused is the last call of the run, no record
    after it is published, and the exception it was refused with is the
    exception the dispatcher ends with. *)
Theorem dispatcher_propagates_refusals central region (w : world)
    (manifests : list (list dict)) (pre post : list call) (c : call) (e : exn) :
  calls_of (Automation.lambda_handler central region w manifests) = pre ++ c :: post →
  refused w pre c = Some e →
  post = [] ∧ outcome (Automation.lambda_handler central region w manifests) = inl e.
Proof.
  intros Hcalls Hc.
  apply (propagates_run (λ _ _, false) w _ pre c post e);
    [apply dispatcher_propagates|done..].
Qed.

Lemma dispatcher_propagates_refusals_witness :
  @nil call = []
  ∧ outcome (Automation.lambda_handler "111111111111" "eu-west-1" no_topic
               [[revoke_record; cross_account_grant]])
    = inl (ClientError "NotFound").
Proof.
  apply (dispatcher_propagates_refusals "111111111111" "eu-west-1" no_topic
           [[revoke_record; cross_account_grant]] [] []
           (publication "111111111111" "eu-west-1" revoke_record (JStr "222222222222"))).
  - vm_compute. reflexivity.
  - reflexivity.
Defined.

(** ** The queue envelope of the account handlers *)

Section QueueEnvelope.
Variable json_loads : string → result json.
Variables (buildjson : dict → M built)
          (for_records : list dict → option (dict * built) → M (option (dict * built))).
Hypothesis for_records_nil : ∀ vars, for_records [] vars = mret vars.
Hypothesis for_records_cons :
  ∀ event_body records vars,
    for_records (event_body :: records) vars
    = (b ← buildjson event_body; for_records records (Some (event_body, b))).

Lemma queue_for_records_carried records ds vars h :
  Forall2 (carries json_loads) records ds →
  Queue.for_records json_loads buildjson records vars h = for_records ds vars h.
Proof.
  intros Hall. revert vars h.
  induction Hall as [|record d records ds Hd _ IH]; intros vars h.
  - by rewrite for_records_nil.
  - rewrite for_records_cons. cbn [Queue.for_records]. unfold carries in Hd.
    rewrite Hd. unfold Queue.buildjson_any. mstep.
    destruct (buildjson d h) as [h' [e|b]]; [done|]. apply IH.
Qed.

Lemma queue_for_records_stops good bad rest ds e vars h :
  Forall2 (carries json_loads) good ds →
  Queue.perms_to_set json_loads bad = inl e →
  Queue.for_records json_loads buildjson (good ++ bad :: rest) vars h
  = (let '(h', r) := for_records ds vars h in
     (h', match r with
          | inl e' => inl e'
          | inr _ => inl e
          end)).
Proof.
  intros Hall Hbad. revert vars h.
  induction Hall as [|record d records ds Hd _ IH]; intros vars h.
  - rewrite for_records_nil. cbn [app Queue.for_records]. rewrite Hbad. by mstep.
  - rewrite for_records_cons. cbn [app Queue.for_records]. unfold carries in Hd.
    rewrite Hd. unfold Queue.buildjson_any. mstep.
    destruct (buildjson d h) as [h' [e'|b]]; [done|]. apply IH.
Qed.

End QueueEnvelope.

Lemma queue_central_carried json_loads ACCOUNT_ID w (event : json) records ds h :
  Py.getitem event "Records" = inr (JArr records) →
  Forall2 (carries json_loads) records ds →
  Queue.central json_loads ACCOUNT_ID w event h
  = Central.lambda_handler ACCOUNT_ID w ds h.
Proof.
  intros Hrecords Hall.
  unfold Queue.central, Queue.lambda_handler, Central.lambda_handler.
  rewrite Hrecords. repeat (rewrite bind_run; cbn [lift Queue.iterate]).
  by rewrite (queue_for_records_carried json_loads _ (Central.for_records ACCOUNT_ID w)
                (λ _, eq_refl) (λ _ _ _, eq_refl) records ds) by done.
Qed.

Lemma queue_consumption_carried json_loads acc_id f_acc_id w (event : json) records ds h :
  Py.getitem event "Records" = inr (JArr records) →
  Forall2 (carries json_loads) records ds →
  Queue.consumption json_loads acc_id f_acc_id w event h
  = Consumption.lambda_handler acc_id f_acc_id w ds h.
Proof.
  intros Hrecords Hall.
  unfold Queue.consumption, Queue.lambda_handler, Consumption.lambda_handler.
  rewrite Hrecords. repeat (rewrite bind_run; cbn [lift Queue.iterate]).
  by rewrite (queue_for_records_carried json_loads _
                (Consumption.for_records acc_id f_acc_id w)
                (λ _, eq_refl) (λ _ _ _, eq_refl) records ds) by done.
Qed.

(** X20. On a delivery whose queue records all carry a dict, the handler of
    each path, entered with the Lambda event, does what it does on the list
    of these dicts: the same calls, the same result. *)
Theorem handlers_on_carried_records (json_loads : string → result json)
    ACCOUNT_ID acc_id f_acc_id (w : world) (event : json)
    (records : list json) (ds : list dict) (h : list call) :
  Py.getitem event "Records" = inr (JArr records) →
  Forall2 (carries json_loads) records ds →
  Queue.central json_loads ACCOUNT_ID w event h
  = Central.lambda_handler ACCOUNT_ID w ds h
  ∧ Queue.consumption json_loads acc_id f_acc_id w event h
    = Consumption.lambda_handler acc_id f_acc_id w ds h.
Proof.
  intros Hrecords Hall.
  split; [by apply (queue_central_carried _ _ _ _ records)
         |by apply (queue_consumption_carried _ _ _ _ _ records)].
Qed.

Lemma handlers_on_carried_records_witness :
  Queue.central scenario_A_loads "111111111111" all_ok
    (JObj {[ "Records" := JArr [scenario_A_delivery] ]}) []
  = Central.lambda_handler "111111111111" all_ok [scenario_A_named (JStr "orders")] []
  ∧ Queue.consumption scenario_A_loads "222222222222" "111111111111" all_ok
      (JObj {[ "Records" := JArr [scenario_A_delivery] ]}) []
    = Consumption.lambda_handler "222222222222" "111111111111" all_ok
        [scenario_A_named (JStr "orders")] [].
Proof.
  apply (handlers_on_carried_records scenario_A_loads "111111111111" "222222222222"
           "111111111111" all_ok (JObj {[ "Records" := JArr [scenario_A_delivery] ]})
           [scenario_A_delivery] [scenario_A_named (JStr "orders")] []).
  - reflexivity.
  - constructor; [reflexivity|constructor].
Defined.

(** X21. Decoding and normalization go record by record: when a queue
    record cannot be decoded down to its [perms_to_set], the records before
    it have been normalized, with the calls that takes, the handler ends
    with the exception of the decoding (or with the one of an earlier
    normalization), and no record is applied. *)
Theorem handlers_stop_at_undecodable_record (json_loads : string → result json)
    ACCOUNT_ID acc_id f_acc_id (w : world) (event : json)
    (good rest : list json) (bad : json) (ds : list dict) (e : exn) (h : list call) :
  Py.getitem event "Records" = inr (JArr (good ++ bad :: rest)) →
  Forall2 (carries json_loads) good ds →
  Queue.perms_to_set json_loads bad = inl e →
  Queue.central json_loads ACCOUNT_ID w event h
  = (let '(h', r) := Central.for_records ACCOUNT_ID w ds None h in
     (h', match r with
          | inl e' => inl e'
          | inr _ => inl e
          end))
  ∧ Queue.consumption json_loads acc_id f_acc_id w event h
    = (let '(h', r) := Consumption.for_records acc_id f_acc_id w ds None h in
       (h', match r with
            | inl e' => inl e'
            | inr _ => inl e
            end)).
Proof.
  intros Hrecords Hall Hbad.
  unfold Queue.central, Queue.consumption, Queue.lambda_handler.
  rewrite Hrecords. repeat (rewrite bind_run; cbn [lift Queue.iterate]).
  rewrite (queue_for_records_stops json_loads _ (Central.for_records ACCOUNT_ID w)
             (λ _, eq_refl) (λ _ _ _, eq_refl) good bad rest ds e) by done.
  rewrite (queue_for_records_stops json_loads _
             (Consumption.for_records acc_id f_acc_id w)
             (λ _, eq_refl) (λ _ _ _, eq_refl) good bad rest ds e) by done.
  split.
  - by destruct (Central.for_records _ _ _ _ h) as [h' [e'|v]].
  - by destruct (Consumption.for_records _ _ _ _ _ h) as [h' [e'|v]].
Qed.

Lemma handlers_stop_at_undecodable_record_witness :
  Queue.central scenario_A_loads "111111111111" all_ok
    (JObj {[ "Records" := JArr ([scenario_A_delivery] ++ JObj ∅ :: []) ]}) []
  = (let '(h', r) := Central.for_records "111111111111" all_ok
                       [scenario_A_named (JStr "orders")] None [] in
     (h', match r with
          | inl e' => inl e'
          | inr _ => inl (KeyError "body")
          end))
  ∧ Queue.consumption scenario_A_loads "222222222222" "111111111111" all_ok
      (JObj {[ "Records" := JArr ([scenario_A_delivery] ++ JObj ∅ :: []) ]}) []
    = (let '(h', r) := Consumption.for_records "222222222222" "111111111111" all_ok
                         [scenario_A_named (JStr "orders")] None [] in
       (h', match r with
            | inl e' => inl e'
            | inr _ => inl (KeyError "body")
            end)).
Proof.
  apply (handlers_stop_at_undecodable_record scenario_A_loads "111111111111"
           "222222222222" "111111111111" all_ok
           (JObj {[ "Records" := JArr ([scenario_A_delivery] ++ JObj ∅ :: []) ]})
           [scenario_A_delivery] [] (JObj ∅) [scenario_A_named (JStr "orders")]
           (KeyError "body") []).
  - reflexivity.
  - constructor; [reflexivity|constructor].
  - reflexivity.
Defined.

(** ** The letter case of the access type, from the dispatcher to the
    central path *)

Lemma central_grant_run ACCOUNT_ID w (r t : dict) p n d ps :
  answers w →
  r !! "Principal" = Some p →
  r !! "Table" = Some (JObj t) →
  t !! "DatabaseName" = Some (JStr d) →
  t !! "Name" = Some n →
  r !! "Permissions" = Some (Py.str_list ps) →
  access_type_lower r = inr "grant" →
  ∃ permissions option,
    run (Central.lambda_handler ACCOUNT_ID w [r])
    = ([central_describe (JObj (principal_dict p)) d;
        table_grant ACCOUNT_ID p n d permissions option], inr ()).
Proof.
  intros Hw Hp Ht Hdb Hn Hperm Haccess.
  unfold run. rewrite central_handler_single. mstep.
  rewrite (central_buildjson_table_run _ _ _ _ _ _ _ Hp Ht Hdb).
  destruct (Hw [] (central_describe (JObj (principal_dict p)) d)) as [resp ->].
  unfold table_selector. rewrite Hn.
  assert (∃ out, build_perm_json Central.perm_lit r
                 = inr {[ "Permissions" := Py.str_list out ]}) as [out ->].
  { destruct (decide (Forall (λ x, x ∈ ps) Central.perm_lit)) as [Hsub|Hsub].
    - exists ps. apply build_perm_json_kept; [done|]. by rewrite Forall_forall in Hsub.
    - exists Central.perm_lit. apply (build_perm_json_replaced _ _ ps); [done|].
      intros Hall. apply Hsub. by rewrite Forall_forall. }
  mstep. rewrite Haccess. cbn [String.eqb Ascii.eqb Bool.eqb].
  unfold Central.grant_lf_permissions. mstep.
  cbn [perm_grant_json perm_json table_json tableWithColumns_json principal_json].
  rewrite (item_Some _ _ _ (lookup_singleton_eq _ _)).
  unfold build_resource. rewrite truthy_insert.
  unfold central_grant_option.
  destruct (has_key "PermissionsWithGrantOption" r).
  - rewrite truthy_singleton, (item_Some _ _ _ (lookup_singleton_eq _ _)).
    eexists _, _. unfold table_grant.
    by destruct (Hw ([] ++ [central_describe (JObj (principal_dict p)) d])
                   (LF_grant_permissions (JObj (principal_dict p))
                      (JObj {[ "Table" := JObj (<["Name" := n]> (selector_base ACCOUNT_ID d)) ]})
                      (Py.str_list out) (Some (Py.str_list ["SELECT"; "DESCRIBE"]))))
      as [resp' ->].
  - rewrite truthy_empty.
    eexists _, _. unfold table_grant.
    by destruct (Hw ([] ++ [central_describe (JObj (principal_dict p)) d])
                   (LF_grant_permissions (JObj (principal_dict p))
                      (JObj {[ "Table" := JObj (<["Name" := n]> (selector_base ACCOUNT_ID d)) ]})
                      (Py.str_list out) (Some (JArr []))))
      as [resp' ->].
Qed.

(** X22. The dispatcher compares the access type with [grant] letter for
    letter, the central path after lower-casing it. A complete grant for
    another account whose access type is written otherwise, [GRANT] say, is
    published without its DB-describe companion; the central path, given the
    record, makes the fine-grained grant all the same. *)
Theorem grant_in_other_letters_gets_no_companion central region ACCOUNT_ID (w : world)
    (r t : dict) (p s : string) (a n : json) (d : string) (ps : list string) :
  answers w →
  r !! "Principal" = Some (JStr p) →
  r !! "AccountID" = Some a →
  r !! "AccessType" = Some (JStr s) →
  s ≠ "grant" → Py.lower s = "grant" →
  r !! "Table" = Some (JObj t) →
  t !! "DatabaseName" = Some (JStr d) →
  t !! "Name" = Some n →
  r !! "Permissions" = Some (Py.str_list ps) →
  run (Automation.lambda_handler central region w [[r]])
  = ([publication central region r a], inr ())
  ∧ ∃ permissions option,
      run (Central.lambda_handler ACCOUNT_ID w [r])
      = ([central_describe (JObj (principal_dict (JStr p))) d;
          table_grant ACCOUNT_ID (JStr p) n d permissions option], inr ()).
Proof.
  intros Hw Hp Ha Haccess Hne Hlower Ht Hdb Hn Hperm. split.
  - unfold run, Automation.lambda_handler. cbn [for_each]. rewrite !bind_run.
    unfold Automation.process_perm_record.
    rewrite (item_Some _ _ _ Hp), (item_Some _ _ _ Haccess). unfold regex_match.
    mstep. cbn [Py.is_str]. destruct (String.eqb_spec s "grant") as [?|_]; [done|].
    rewrite (publish_sns_run _ _ _ _ _ _ Ha).
    by destruct (Hw [] (publication central region r a)) as [resp ->].
  - eapply central_grant_run; try done.
    by rewrite (access_type_lower_text _ _ Haccess), Hlower.
Qed.

Lemma grant_in_other_letters_gets_no_companion_witness :
  run (Automation.lambda_handler "111111111111" "eu-west-1" all_ok [[capital_grant]])
  = ([publication "111111111111" "eu-west-1" capital_grant (JStr "222222222222")], inr ())
  ∧ ∃ permissions option,
      run (Central.lambda_handler "111111111111" all_ok [capital_grant])
      = ([central_describe (JObj (principal_dict (JStr consumer_arn))) "sales";
          table_grant "111111111111" (JStr consumer_arn) (JStr "orders") "sales"
            permissions option], inr ()).
Proof.
  apply (grant_in_other_letters_gets_no_companion "111111111111" "eu-west-1"
           "111111111111" all_ok capital_grant
           {[ "DatabaseName" := JStr "sales"; "Name" := JStr "orders" ]}
           consumer_arn "GRANT" (JStr "222222222222") (JStr "orders") "sales" ["SELECT"]
           all_ok_answers); try reflexivity.
  discriminate.
Defined.

(** ** The routing prefix on the consumption path *)

Lemma selector_base_prefixed catalog d :
  prefix_free d →
  selector_base catalog ("foundation_" +:+ d) = selector_base catalog d.
Proof.
  intros Hd. unfold selector_base.
  rewrite (bare_name_prefixed _ Hd), (bare_name_bare _ Hd).
  apply map_eq. intros k.
  destruct (decide (k = "DatabaseName")) as [->|Hk].
  - by rewrite !lookup_insert_eq.
  - rewrite !(lookup_insert_ne _ "DatabaseName") by done.
    destruct (decide (k = "CatalogId")) as [->|Hk'].
    + by rewrite !lookup_insert_eq.
    + rewrite !(lookup_insert_ne _ "CatalogId") by done.
      by rewrite !(lookup_insert_ne _ "DatabaseName") by done.
Qed.

Lemma consumption_buildjson_prefixed acc_id f_acc_id w (r t : dict) d h :
  r !! "Table" = Some (JObj t) →
  t !! "DatabaseName" = Some (JStr d) →
  prefix_free d →
  Consumption.buildjson acc_id f_acc_id w (with_prefixed_database r t d) h
  = Consumption.buildjson acc_id f_acc_id w r h.
Proof.
  intros Ht Hdb Hd. unfold with_prefixed_database.
  destruct (r !! "Principal") as [p|] eqn:Hp.
  - rewrite (consumption_buildjson_table_run acc_id f_acc_id w _ p
               (<["DatabaseName" := JStr ("foundation_" +:+ d)]> t)
               ("foundation_" +:+ d));
      [|by rewrite lookup_insert_ne|by rewrite lookup_insert_eq
       |by rewrite lookup_insert_eq].
    rewrite (consumption_buildjson_table_run acc_id f_acc_id w _ p t d) by done.
    rewrite link_name_prefixed, (link_name_bare _ Hd), (selector_base_prefixed _ _ Hd).
    unfold table_selector, build_perm_json.
    by rewrite !(lookup_insert_ne _ "DatabaseName"), !(lookup_insert_ne _ "Table") by done.
  - unfold Consumption.buildjson.
    rewrite (lookup_insert_ne _ "Table" "Principal") by done. rewrite Hp. reflexivity.
Qed.

(** X23. The consumption path treats a database name alike with and
    without the routing prefix: for a record whose [Table] selector names a
    database without [foundation_], putting [foundation_] before the name
    changes neither the calls made nor the result, whatever the services
    answer. *)
Theorem consumption_ignores_leading_prefix acc_id f_acc_id (w : world)
    (r t : dict) (d : string) (h : list call) :
  r !! "Table" = Some (JObj t) →
  t !! "DatabaseName" = Some (JStr d) →
  prefix_free d →
  Consumption.lambda_handler acc_id f_acc_id w [with_prefixed_database r t d] h
  = Consumption.lambda_handler acc_id f_acc_id w [r] h.
Proof.
  intros Ht Hdb Hd. unfold Consumption.lambda_handler.
  cbn [Consumption.for_records]. rewrite !bind_run.
  rewrite (consumption_buildjson_prefixed _ _ _ _ _ _ _ Ht Hdb Hd).
  destruct (Consumption.buildjson acc_id f_acc_id w r h) as [h' [e|b]]; [done|].
  cbn [mret M_ret ret].
  replace (access_type_lower (with_prefixed_database r t d)) with (access_type_lower r);
    [done|].
  unfold access_type_lower, item, Py.getitem, with_prefixed_database.
  by rewrite (lookup_insert_ne _ "Table") by done.
Qed.

Lemma consumption_ignores_leading_prefix_witness :
  Consumption.lambda_handler "222222222222" "111111111111" empty_catalog
    [with_prefixed_database over_select_record
       {[ "DatabaseName" := JStr "sales"; "Name" := JStr "orders" ]} "sales"] []
  = Consumption.lambda_handler "222222222222" "111111111111" empty_catalog
      [over_select_record] [].
Proof.
  exact (consumption_ignores_leading_prefix "222222222222" "111111111111" empty_catalog
           over_select_record {[ "DatabaseName" := JStr "sales"; "Name" := JStr "orders" ]}
           "sales" [] eq_refl eq_refl eq_refl).
Defined.

(** ** From the publication to the queue record *)

(** X24. What the dispatcher publishes for a record comes back as that
    record: when a queue delivers a notification whose [Message] is the text
    of the message published for [r], and [json.loads] reads back the two
    texts, the queue record carries [r], and each account handler, entered
    with the delivery of that one record, does what it does on [r]. *)
Theorem published_record_is_carried (json_dumps : json → string)
    (json_loads : string → result json) central region ACCOUNT_ID acc_id f_acc_id
    (w w' : world) (r notification : dict) (a : json) (h h' : list call) :
  r !! "AccountID" = Some a →
  notification !! "Message" = Some (JStr (json_dumps (sns_message r))) →
  json_loads (json_dumps (sns_message r)) = inr (sns_message r) →
  json_loads (json_dumps (JObj notification)) = inr (JObj notification) →
  fst (Automation.publish_sns central region w r h)
  = h ++ [SNS_publish (Automation.topic_arn central region) (sns_message r) a]
  ∧ carries json_loads (queue_record json_dumps notification) r
  ∧ Queue.central json_loads ACCOUNT_ID w'
      (JObj {[ "Records" := JArr [queue_record json_dumps notification] ]}) h'
    = Central.lambda_handler ACCOUNT_ID w' [r] h'
  ∧ Queue.consumption json_loads acc_id f_acc_id w'
      (JObj {[ "Records" := JArr [queue_record json_dumps notification] ]}) h'
    = Consumption.lambda_handler acc_id f_acc_id w' [r] h'.
Proof.
  intros Ha Hmessage Hloads_message Hloads_body.
  assert (carries json_loads (queue_record json_dumps notification) r) as Hcarries.
  { unfold carries, Queue.perms_to_set, queue_record.
    rewrite (getitem_obj_Some _ _ _ (lookup_singleton_eq _ _)).
    cbn [mbind result_bind Queue.loads]. rewrite Hloads_body.
    cbn [mbind result_bind]. rewrite (getitem_obj_Some _ _ _ Hmessage).
    cbn [mbind result_bind Queue.loads]. rewrite Hloads_message.
    cbn [mbind result_bind]. unfold sns_message.
    by rewrite (getitem_obj_Some _ _ _ (lookup_singleton_eq _ _)). }
  split; [by rewrite (publish_sns_run _ _ _ _ _ _ Ha)|]. split; [done|].
  split.
  - apply (queue_central_carried _ _ _ _ [queue_record json_dumps notification]).
    + apply getitem_obj_Some, lookup_singleton_eq.
    + by constructor.
  - apply (queue_consumption_carried _ _ _ _ _ [queue_record json_dumps notification]).
    + apply getitem_obj_Some, lookup_singleton_eq.
    + by constructor.
Qed.

Lemma published_record_is_carried_witness :
  fst (Automation.publish_sns "111111111111" "eu-west-1" all_ok cross_account_grant [])
  = [] ++ [SNS_publish (Automation.topic_arn "111111111111" "eu-west-1")
             (sns_message cross_account_grant) (JStr "222222222222")]
  ∧ carries (two_texts_loads (sns_message cross_account_grant))
      (queue_record two_texts_dumps {[ "Message" := JStr "message of the notification" ]})
      cross_account_grant
  ∧ Queue.central (two_texts_loads (sns_message cross_account_grant)) "111111111111" all_ok
      (JObj {[ "Records" :=
                 JArr [queue_record two_texts_dumps
                         {[ "Message" := JStr "message of the notification" ]}] ]}) []
    = Central.lambda_handler "111111111111" all_ok [cross_account_grant] []
  ∧ Queue.consumption (two_texts_loads (sns_message cross_account_grant))
      "222222222222" "111111111111" all_ok
      (JObj {[ "Records" :=
                 JArr [queue_record two_texts_dumps
                         {[ "Message" := JStr "message of the notification" ]}] ]}) []
    = Consumption.lambda_handler "222222222222" "111111111111" all_ok
        [cross_account_grant] [].
Proof.
  exact (published_record_is_carried two_texts_dumps
           (two_texts_loads (sns_message cross_account_grant))
           "111111111111" "eu-west-1" "111111111111" "222222222222" "111111111111"
           all_ok all_ok cross_account_grant
           {[ "Message" := JStr "message of the notification" ]}
           (JStr "222222222222") [] [] eq_refl eq_refl eq_refl eq_refl).
Defined.

(** ** The queue envelope of the dispatcher *)

Section ManifestEnvelope.
Variables (json_loads : string → result json) (unquote_plus : string → string) (now : Z).
Variable read_s3_content : json → json → result json.
Variables (ACCOUNT_ID REGION : string) (w : world).

Lemma for_each_process_any (m : list dict) h :
  for_each (Manifest.process_any ACCOUNT_ID REGION w) (JObj <$> m) h
  = for_each (Automation.process_perm_record ACCOUNT_ID REGION w) m h.
Proof.
  revert h. induction m as [|r m IH]; intros h; [done|].
  cbn [fmap list_fmap for_each]. rewrite !bind_run. cbn [Manifest.process_any].
  destruct (Automation.process_perm_record ACCOUNT_ID REGION w r h) as [h' [e|[]]];
    [done|apply IH].
Qed.

Lemma manifest_for_each records (manifests : list (list dict)) h :
  Forall2 (λ record m,
             Manifest.manifest json_loads unquote_plus now read_s3_content record
             = inr (JObj <$> m)) records manifests →
  for_each (λ record,
              perm_records ← lift (Manifest.manifest json_loads unquote_plus now
                                     read_s3_content record);
              for_each (Manifest.process_any ACCOUNT_ID REGION w) perm_records)
           records h
  = for_each (for_each (Automation.process_perm_record ACCOUNT_ID REGION w)) manifests h.
Proof.
  intros Hall. revert h. induction Hall as [|record m records manifests Hm _ IH];
    intros h; [done|].
  cbn [for_each]. rewrite !bind_run. rewrite Hm. cbn [lift].
  rewrite for_each_process_any.
  destruct (for_each _ m h) as [h' [e|[]]]; [done|apply IH].
Qed.

End ManifestEnvelope.

(** X25. Entered with the Lambda event, when every queue record names a
    manifest that is read and whose [Records] are dicts, the dispatcher does
    what it does on the list of these manifests: the same publications in
    the same order, the same result. *)
Theorem dispatcher_on_read_manifests (json_loads : string → result json)
    (unquote_plus : string → string) (now : Z)
    (read_s3_content : json → json → result json) central region (w : world)
    (event : json) (records : list json) (manifests : list (list dict))
    (h : list call) :
  Py.getitem event "Records" = inr (JArr records) →
  Forall2 (λ record m,
             Manifest.manifest json_loads unquote_plus now read_s3_content record
             = inr (JObj <$> m)) records manifests →
  Manifest.lambda_handler json_loads unquote_plus now read_s3_content central region w
    event h
  = Automation.lambda_handler central region w manifests h.
Proof.
  intros Hrecords Hall. unfold Manifest.lambda_handler, Automation.lambda_handler.
  rewrite Hrecords. repeat (rewrite bind_run; cbn [lift Queue.iterate]).
  by apply manifest_for_each.
Qed.

Lemma dispatcher_on_read_manifests_witness :
  Manifest.lambda_handler one_notification_loads id 0 one_manifest
    "111111111111" "eu-west-1" all_ok
    (JObj {[ "Records" := JArr [JObj {[ "body" := JStr "notification" ]}] ]}) []
  = Automation.lambda_handler "111111111111" "eu-west-1" all_ok
      [[revoke_record; cross_account_grant]] [].
Proof.
  apply (dispatcher_on_read_manifests one_notification_loads id 0 one_manifest
           "111111111111" "eu-west-1" all_ok
           (JObj {[ "Records" := JArr [JObj {[ "body" := JStr "notification" ]}] ]})
           [JObj {[ "body" := JStr "notification" ]}]
           [[revoke_record; cross_account_grant]] []).
  - reflexivity.
  - constructor; [reflexivity|constructor].
Defined.

(** X26. Of the bucket events of one notification the dispatcher reads the
    first only: two queue records whose notifications begin with the same
    event name the same manifest, whatever events follow. *)
Theorem only_first_event_names_the_manifest (json_loads : string → result json)
    (unquote_plus : string → string) (now : Z)
    (read_s3_content : json → json → result json)
    (record record' : json) (body body' : string) (notification notification' : dict)
    (first : json) (others others' : list json) :
  Py.getitem record "body" = inr (JStr body) →
  json_loads body = inr (JObj notification) →
  notification !! "Records" = Some (JArr (first :: others)) →
  Py.getitem record' "body" = inr (JStr body') →
  json_loads body' = inr (JObj notification') →
  notification' !! "Records" = Some (JArr (first :: others')) →
  Manifest.manifest json_loads unquote_plus now read_s3_content record
  = Manifest.manifest json_loads unquote_plus now read_s3_content record'.
Proof.
  intros Hbody Hloads Hevents Hbody' Hloads' Hevents'. unfold Manifest.manifest.
  rewrite Hbody, Hbody'. cbn [mbind result_bind Queue.loads].
  rewrite Hloads, Hloads'. cbn [mbind result_bind].
  by rewrite (getitem_obj_Some _ _ _ Hevents), (getitem_obj_Some _ _ _ Hevents').
Qed.

Lemma only_first_event_names_the_manifest_witness :
  Manifest.manifest one_notification_loads id 0 one_manifest
    (JObj {[ "body" := JStr "notification" ]})
  = Manifest.manifest one_notification_loads id 0 one_manifest
      (JObj {[ "body" := JStr "notification"; "receiptHandle" := JStr "again" ]}).
Proof.
  exact (only_first_event_names_the_manifest one_notification_loads id 0 one_manifest
           (JObj {[ "body" := JStr "notification" ]})
           (JObj {[ "body" := JStr "notification"; "receiptHandle" := JStr "again" ]})
           "notification" "notification"
           {[ "Records" := JArr [manifest_event "manifests" "grants.json";
                                 manifest_event "manifests" "other.json"] ]}
           {[ "Records" := JArr [manifest_event "manifests" "grants.json";
                                 manifest_event "manifests" "other.json"] ]}
           (manifest_event "manifests" "grants.json")
           [manifest_event "manifests" "other.json"]
           [manifest_event "manifests" "other.json"]
           eq_refl eq_refl eq_refl eq_refl eq_refl eq_refl).
Defined.

(** ** [parse_s3_event] *)

Lemma prefix_true_append sep s :
  String.prefix sep s = true → ∃ rest, s = sep +:+ rest.
Proof.
  revert s. induction sep as [|x sep IH]; intros s H.
  - by exists s.
  - destruct s as [|y s]; [discriminate H|]. cbn [String.prefix] in H.
    destruct (ascii_dec x y) as [->|]; [|discriminate H].
    destruct (IH s H) as [rest ->]. exists rest. by rewrite append_cons.
Qed.

(** The first piece of a split is what comes before the first occurrence of
    the separator. *)
Lemma split_go_first sep cur s :
  ∃ piece, Py.split_go sep 0 cur s !! 0%nat = Some (cur +:+ piece)
           ∧ (s = piece ∨ ∃ rest, s = piece +:+ sep +:+ rest).
Proof.
  revert cur. induction s as [|c s IH]; intros cur.
  - exists EmptyString. cbn. rewrite append_nil_r. by split; [|left].
  - cbn [Py.split_go]. destruct (String.prefix sep (String c s)) eqn:Hp.
    + exists EmptyString. rewrite append_nil_r. split; [done|]. right.
      destruct (prefix_true_append _ _ Hp) as [rest ->]. by exists rest.
    + destruct (IH (cur +:+ String c EmptyString)) as (piece & Hpiece & Hs).
      exists (String c piece). rewrite append_snoc in Hpiece. split; [done|].
      destruct Hs as [->|[rest ->]]; [by left|right]. exists rest.
      by rewrite append_cons.
Qed.

(** X27. When [parse_s3_event] returns, its [bucket] is the name of the
    bucket of the event and its [key] the key of the object, a string, after
    [unquote_plus]; the event has a size and an event time, a string, that
    [lambda_handler] does not use; and [last_modified_date] is the event
    time up to its first dot, the dot excluded, followed by [+00:00]. *)
Theorem parse_s3_event_fields (unquote_plus : string → string) (now : Z)
    (s3_event : json) (message : dict) :
  Manifest.parse_s3_event unquote_plus now s3_event = inr message →
  ∃ name key size time date,
    s3_field s3_event "bucket" "name" = inr name
    ∧ s3_field s3_event "object" "key" = inr (JStr key)
    ∧ s3_field s3_event "object" "size" = inr size
    ∧ Py.getitem s3_event "eventTime" = inr (JStr time)
    ∧ message !! "bucket" = Some name
    ∧ message !! "key" = Some (JStr (unquote_plus key))
    ∧ message !! "last_modified_date" = Some (JStr (date +:+ "+00:00"))
    ∧ Py.str_in "." date = false
    ∧ (time = date ∨ ∃ rest, time = date +:+ "." +:+ rest).
Proof.
  unfold Manifest.parse_s3_event, s3_field. intros H.
  destruct (Py.getitem s3_event "s3") as [e|s3]; [discriminate H|].
  cbn [mbind result_bind] in *.
  destruct (Py.getitem s3 "bucket") as [e|bucket]; [discriminate H|].
  cbn [mbind result_bind] in *.
  destruct (Py.getitem bucket "name") as [e|name]; [discriminate H|].
  cbn [mbind result_bind] in *.
  destruct (Py.getitem s3 "object") as [e|object]; [discriminate H|].
  cbn [mbind result_bind] in *.
  destruct (Py.getitem object "key") as [e|[| | |key| |]]; try discriminate H.
  cbn [mbind result_bind Manifest.unquote] in *.
  destruct (Py.getitem object "size") as [e|size]; [discriminate H|].
  cbn [mbind result_bind] in *.
  destruct (Py.getitem s3_event "eventTime") as [e|[| | |time| |]]; try discriminate H.
  cbn [mbind result_bind Manifest.before_dot] in *.
  destruct (split_go_first "." EmptyString time) as (date & Hdate & Htime).
  unfold Py.split in H. rewrite Hdate in H. cbn [mbind result_bind] in H.
  injection H as <-. exists name, key, size, time, date.
  repeat (split; [done|]). split; [|done].
  pose proof (split_pieces "." time) as Hfree. unfold Py.split in Hfree.
  rewrite Forall_lookup in Hfree. by apply (Hfree ltac:(done) 0%nat date).
Qed.

Lemma parse_s3_event_fields_witness :
  ∃ name key size time date,
    s3_field (manifest_event "manifests" "grants.json") "bucket" "name" = inr name
    ∧ s3_field (manifest_event "manifests" "grants.json") "object" "key" = inr (JStr key)
    ∧ s3_field (manifest_event "manifests" "grants.json") "object" "size" = inr size
    ∧ Py.getitem (manifest_event "manifests" "grants.json") "eventTime" = inr (JStr time)
    ∧ ({[ "bucket" := JStr "manifests"; "key" := JStr "grants.json"; "size" := JNum 512;
          "last_modified_date" := JStr "2021-06-01T10:00:00+00:00";
          "timestamp" := JNum 0 ]} : dict) !! "bucket" = Some name
    ∧ ({[ "bucket" := JStr "manifests"; "key" := JStr "grants.json"; "size" := JNum 512;
          "last_modified_date" := JStr "2021-06-01T10:00:00+00:00";
          "timestamp" := JNum 0 ]} : dict) !! "key" = Some (JStr (id key))
    ∧ ({[ "bucket" := JStr "manifests"; "key" := JStr "grants.json"; "size" := JNum 512;
          "last_modified_date" := JStr "2021-06-01T10:00:00+00:00";
          "timestamp" := JNum 0 ]} : dict) !! "last_modified_date"
      = Some (JStr (date +:+ "+00:00"))
    ∧ Py.str_in "." date = false
    ∧ (time = date ∨ ∃ rest, time = date +:+ "." +:+ rest).
Proof.
  exact (parse_s3_event_fields id 0 (manifest_event "manifests" "grants.json")
           {[ "bucket" := JStr "manifests"; "key" := JStr "grants.json"; "size" := JNum 512;
              "last_modified_date" := JStr "2021-06-01T10:00:00+00:00";
              "timestamp" := JNum 0 ]} eq_refl).
Defined.
